(** * LMR_config: the configuration resolution engine

    A shallow embedding of [LMR_config.py].  The Python module declares one
    class per parameter group; the class body holds the literal defaults
    (the "User Parameters" sections) and [__init__] resolves an instance:
    it copies attributes from the class to the instance, derives the paths
    that are left at [None], and inverts the proxy classification table.

    The embedding keeps what the resolvers depend on:
    - attribute lookup goes to the instance dictionary first and then
      through the class's method resolution order;
    - lists and dictionaries are objects in a shared store, so that an
      attribute that is assigned without a copy is an alias;
    - a dictionary yields its items in the order of the slots of its hash
      table, as on the Python 2 that [iteritems] asks for;
    - a call binds keyword arguments against the signature of [__init__]
      and raises [TypeError] on a keyword the signature does not have. *)

From Stdlib Require Import ZArith QArith String Ascii List.
From stdpp Require Import gmap strings list fin_maps.

Open Scope string_scope.
Open Scope list_scope.

(** ** Strings and paths *)

Module Str.

(** [s.startswith(c)] and [s.endswith(c)] for a one-character [c]. *)
Definition startswith (c : ascii) (s : string) : bool :=
  match s with
  | EmptyString => false
  | String a _ => Ascii.eqb a c
  end.

Fixpoint endswith (c : ascii) (s : string) : bool :=
  match s with
  | EmptyString => false
  | String a EmptyString => Ascii.eqb a c
  | String _ r => endswith c r
  end.

(** [s.split(c, 1)[0]]: the part of [s] before the first [c], all of [s]
    when [c] does not occur. *)
Fixpoint split_head (c : ascii) (s : string) : string :=
  match s with
  | EmptyString => EmptyString
  | String a r => if Ascii.eqb a c then EmptyString
                  else String a (split_head c r)
  end.

(** [sep.join(l)]. *)
Definition join (sep : string) (l : list string) : string :=
  String.concat sep l.

(** [fmt % arg] for one string argument and a format whose directives are
    [%s], which takes the argument, and [%%], which gives a percent sign.
    [None] stands for the exception Python raises: when the number of [%s]
    directives is not one, or when the format ends in a lone [%].  No format
    of the module has another directive; the embedding gives [None] for
    them too. *)
Fixpoint format_s (fmt arg : string) (used : bool) : option string :=
  match fmt with
  | EmptyString => if used then Some EmptyString else None
  | String a r =>
      if Ascii.eqb a "%" then
        match r with
        | String b r' =>
            if Ascii.eqb b "s" then
              if used then None
              else (λ t, arg +:+ t) <$> format_s r' arg true
            else if Ascii.eqb b "%" then String "%" <$> format_s r' arg used
            else None
        | EmptyString => None
        end
      else String a <$> format_s r arg used
  end.

End Str.

Module Posixpath.

(** One turn of the loop of [posixpath.join]:
    [if b.startswith('/'): path = b
     elif path == '' or path.endswith('/'): path += b
     else: path += '/' + b] *)
Definition join_step (path b : string) : string :=
  if Str.startswith "/" b then b
  else if String.eqb path EmptyString || Str.endswith "/" path then path +:+ b
  else path +:+ "/" +:+ b.

(** [join(a, *p)] *)
Definition join (a : string) (p : list string) : string :=
  fold_left join_step p a.

End Posixpath.

(** ** The dictionary of CPython 2

    The module runs on Python 2 only ([iteritems]), where a dictionary is
    an open-addressing hash table and iteration goes through its slots.
    The order in which a dictionary yields its keys follows from the hashes
    of the keys, the order in which they were stored and the size the table
    was created with.  This is [Objects/dictobject.c], [stringobject.c] and
    [tupleobject.c] of CPython 2.7 on a 64-bit platform, with hash
    randomisation off as is its default. *)

Module Dictobject.

(** A machine word: a C [long] or [size_t] of 64 bits, taken unsigned. *)
Definition word (x : Z) : Z := (x mod 2 ^ 64)%Z.

(** [-1] is the error value of a hash function: [if (x == -1) x = -2]. *)
Definition not_error (x : Z) : Z :=
  if (x =? 2 ^ 64 - 1)%Z then (2 ^ 64 - 2)%Z else x.

(** [string_hash] of [stringobject.c], with the hash secret at zero:
    [x = *p << 7; while (--len >= 0) x = (1000003*x) ^ *p++;
     x ^= Py_SIZE(a)]; the empty string hashes to [0]. *)
Definition string_hash (s : string) : Z :=
  match s with
  | EmptyString => 0%Z
  | String c _ =>
      let code (a : ascii) := Z.of_nat (nat_of_ascii a) in
      let x := fold_left (λ x a, Z.lxor (word (1000003 * x)) (code a))
                         (list_ascii_of_string s) (Z.shiftl (code c) 7) in
      not_error (Z.lxor x (Z.of_nat (String.length s)))
  end.

(** [tuplehash] of [tupleobject.c]:
    [x = 0x345678; mult = 1000003;
     while (--len >= 0) { x = (x ^ y) * mult; mult += 82520 + len + len; }
     x += 97531]. *)
Fixpoint tuple_hash_from (ys : list Z) (x mult : Z) : Z :=
  match ys with
  | [] => not_error (word (x + 97531))
  | y :: ys' =>
      tuple_hash_from ys' (word (Z.lxor x y * mult))
        (word (mult + 82520 + 2 * Z.of_nat (length ys')))
  end.

Definition tuple_hash (ys : list Z) : Z := tuple_hash_from ys 3430008 1000003.

(** An entry of a table: the hash of the key and the rank of the key among
    the keys of the dictionary, in the order in which they were first
    stored.  A slot of the table is free or holds an entry. *)
Abbreviation entry := (Z * nat)%type.
Abbreviation slots := (list (option entry)).

Definition free (t : slots) (i : nat) : bool :=
  match t !! i with
  | Some None => true
  | _ => false
  end.

Definition slot_of (t : slots) (i : Z) : nat :=
  Z.to_nat (Z.land i (Z.of_nat (length t) - 1)).

(** The probe sequence of [lookdict] behind the first slot:
    [for (perturb = hash; ; perturb >>= PERTURB_SHIFT) {
         i = (i << 2) + i + perturb + 1;
         ep = &ep0[i & mask]; if (ep->me_key == NULL) return ep; ... }]
    for a key that the table does not hold. *)
Fixpoint probe (turns : nat) (t : slots) (i perturb : Z) : nat :=
  match turns with
  | O => length t
  | S turns' =>
      let i' := word (5 * i + perturb + 1) in
      if free t (slot_of t i') then slot_of t i'
      else probe turns' t i' (Z.shiftr perturb 5)
  end.

(** The slot for a new key of hash [hash]: [i = hash & mask] first, and
    the probe sequence from there.  [perturb] is zero after thirteen turns,
    and from there on [i = 5*i + 1] goes through every slot of a table
    whose size is a power of two; a table always has a free slot, so that
    the search ends within the turns given here. *)
Definition find_slot (t : slots) (hash : Z) : nat :=
  let i := slot_of t hash in
  if free t i then i else probe (length t + 13) t (Z.of_nat i) hash.

(** [insertdict_clean]: the entry goes to the slot found.  A search that
    ran out of turns would leave the entry behind the last slot, so that no
    entry is lost; a table that is at most two thirds full does not come
    to that. *)
Definition insert_clean (t : slots) (e : entry) : slots :=
  let s := find_slot t e.1 in
  if free t s then <[s := Some e]> t else t ++ [Some e].

Definition entries (t : slots) : list entry := omap id t.

(** The size [dictresize] gives a table that is to hold [minused]
    entries: [for (newsize = PyDict_MINSIZE; newsize <= minused;
    newsize <<= 1);] with [PyDict_MINSIZE] at 8. *)
Fixpoint size_from (turns size minused : nat) : nat :=
  match turns with
  | O => size
  | S turns' => if (size <=? minused)%nat
                then size_from turns' (2 * size) minused
                else size
  end.

Definition table_size (minused : nat) : nat := size_from minused 8 minused.

(** [dictresize]: the entries are put into a new table, in the order of
    their slots. *)
Definition resize (t : slots) (minused : nat) : slots :=
  fold_left insert_clean (entries t) (replicate (table_size minused) None).

(** [PyDict_SetItem] with a new key: the table is resized when it is two
    thirds full,
    [if (!(mp->ma_used > n_used && mp->ma_fill*3 >= (mp->ma_mask+1)*2))
         return 0;
     return dictresize(mp, (mp->ma_used > 50000 ? 2 : 4) * mp->ma_used);] *)
Definition insert (t : slots) (e : entry) : slots :=
  let t' := insert_clean t e in
  let used := length (entries t') in
  if (length t' * 2 <=? used * 3)%nat
  then resize t' ((if (50000 <? Z.of_nat used)%Z then 2 else 4) * used)
  else t'.

(** The order in which a dictionary that was created with [size] slots
    yields its keys, as the ranks of the keys; [hashes] are the hashes of
    the keys in the order in which they were first stored.  Iteration goes
    through the slots from the first to the last. *)
Definition layout (size : nat) (hashes : list Z) : list nat :=
  snd <$> entries (fold_left insert (zip hashes (seq 0 (length hashes)))
                             (replicate size None)).

End Dictobject.

(** ** Values, objects and the store *)

Definition loc := nat.

(** Python values.  Immutable data is held by value; lists, dictionaries and
    instances are references into the store; a class is named by its
    qualified name. *)
#[warnings="-register-all"]
Inductive value : Type :=
| VNone
| VBool (b : bool)
| VInt (n : Z)
| VFloat (q : Q)
| VStr (s : string)
| VTuple (items : list value)
| VClass (name : string)
| VRef (l : loc).

(** Dictionary keys of the module: strings, and the pairs of strings that
    key the reverse index. *)
Inductive key : Type :=
| KStr (s : string)
| KPair (a b : string).

#[global] Instance key_eq_dec : EqDecision key.
Proof. solve_decision. Defined.

(** Store objects.  A dictionary is held as the number of slots its table
    was created with and its items in the order in which their keys were
    first stored; the order in which iteration yields the items follows
    from the two ([dict_order]).  The module deletes no key. *)
Inductive obj : Type :=
| OInst (cls : string) (attrs : gmap string value)
| OList (items : list value)
| OTable (size : nat) (items : list (key * value)).

(** A dictionary that was created as [{}], or by a display of fewer than
    eight items: its table has the eight slots of [PyDict_MINSIZE]. *)
Abbreviation ODict := (OTable 8).

(** A class: its method resolution order (itself first) and the names bound
    in its body. *)
Record class : Type := Class { mro : list string; cdict : gmap string value }.

Abbreviation heap := (list obj).
Abbreviation classes := (gmap string class).
Abbreviation kwargs := (list (string * value)).

Inductive exn : Type :=
| TypeError | AttributeError | KeyError | IndexError
| RecursionError | SystemError.

Inductive result (A : Type) : Type :=
| Ok (a : A) (h : heap)
| Raise (e : exn).
Arguments Ok {A} a h.
Arguments Raise {A} e.

(** Computations read the classes and thread the store; an exception ends
    them. *)
Definition M (A : Type) : Type := classes → heap → result A.

#[global] Instance M_ret : MRet M := λ A a _ h, Ok a h.
#[global] Instance M_bind : MBind M := λ A B f m C h,
  match m C h with
  | Ok a h' => f a C h'
  | Raise e => Raise e
  end.

Definition raise {A} (e : exn) : M A := λ _ _, Raise e.

Definition lift {A} (e : exn) (o : option A) : M A :=
  match o with
  | Some a => mret a
  | None => raise e
  end.

Fixpoint for_each {A} (l : list A) (body : A → M unit) : M unit :=
  match l with
  | [] => mret tt
  | x :: l' => body x;; for_each l' body
  end.

(** ** Attribute access *)

(** The first class of the resolution order that binds [n]. *)
Fixpoint mro_lookup (C : classes) (order : list string) (n : string)
  : option value :=
  match order with
  | [] => None
  | c :: rest =>
      match C !! c ≫= (λ k, cdict k !! n) with
      | Some v => Some v
      | None => mro_lookup C rest n
      end
  end.

Definition class_attr (C : classes) (c n : string) : option value :=
  C !! c ≫= (λ k, mro_lookup C (mro k) n).

(** The class [c] binds each name of [l] to the value beside it. *)
Definition has_attrs (C : classes) (c : string) (l : list (string * value))
  : Prop :=
  Forall (λ nv, class_attr C c nv.1 = Some nv.2) l.

(** A string, or [None] for a parameter that is left unset. *)
Definition opt_str (o : option string) : value :=
  match o with
  | Some s => VStr s
  | None => VNone
  end.

(** [v.n]: for an instance the instance dictionary, then its class; for a
    class the class. *)
Definition getattr (v : value) (n : string) : M value := λ C h,
  match v with
  | VClass c =>
      match class_attr C c n with
      | Some x => Ok x h
      | None => Raise AttributeError
      end
  | VRef l =>
      match h !! l with
      | Some (OInst c d) =>
          match d !! n with
          | Some x => Ok x h
          | None =>
              match class_attr C c n with
              | Some x => Ok x h
              | None => Raise AttributeError
              end
          end
      | Some _ => Raise AttributeError
      | None => Raise SystemError
      end
  | _ => Raise AttributeError
  end.

(** [v.n = x] on an instance: binds [n] in the instance dictionary. *)
Definition setattr (v : value) (n : string) (x : value) : M unit := λ C h,
  match v with
  | VRef l =>
      match h !! l with
      | Some (OInst c d) => Ok tt (<[l := OInst c (<[n := x]> d)]> h)
      | Some _ => Raise AttributeError
      | None => Raise SystemError
      end
  | _ => Raise AttributeError
  end.

(** ** The store *)

Definition alloc (o : obj) : M value := λ _ h, Ok (VRef (length h)) (h ++ [o]).

Definition deref (v : value) : M obj := λ _ h,
  match v with
  | VRef l =>
      match h !! l with
      | Some o => Ok o h
      | None => Raise SystemError
      end
  | _ => Raise TypeError
  end.

Definition store (v : value) (o : obj) : M unit := λ _ h,
  match v with
  | VRef l => if decide (l < length h) then Ok tt (<[l := o]> h)
              else Raise SystemError
  | _ => Raise TypeError
  end.

(** List and dictionary displays. *)
Definition new_list (items : list value) : M value := alloc (OList items).

(** ** Dictionaries *)

Fixpoint dict_get (k : key) (d : list (key * value)) : option value :=
  match d with
  | [] => None
  | (k', v) :: d' => if decide (k' = k) then Some v else dict_get k d'
  end.

(** [d[k] = v] on the items in the order in which their keys were first
    stored: an existing key keeps its place, a new key goes last. *)
Fixpoint dict_set (k : key) (v : value) (d : list (key * value))
  : list (key * value) :=
  match d with
  | [] => [(k, v)]
  | (k', v') :: d' => if decide (k' = k) then (k, v) :: d'
                      else (k', v') :: dict_set k v d'
  end.

(** The key a value hashes to; a list or a dictionary is unhashable. *)
Definition to_key (v : value) : option key :=
  match v with
  | VStr s => Some (KStr s)
  | VTuple [VStr a; VStr b] => Some (KPair a b)
  | _ => None
  end.

Definition of_key (k : key) : value :=
  match k with
  | KStr s => VStr s
  | KPair a b => VTuple [VStr a; VStr b]
  end.

(** The hash of a key. *)
Definition hash_key (k : key) : Z :=
  match k with
  | KStr s => Dictobject.string_hash s
  | KPair a b =>
      Dictobject.tuple_hash [Dictobject.string_hash a;
                             Dictobject.string_hash b]
  end.

(** The elements of [l] in the order in which a dictionary yields them
    that was created with [size] slots and into which they were stored in
    the order of [l], under keys of the hashes [hash]. *)
Definition order_by {A} (hash : A → Z) (size : nat) (l : list A) : list A :=
  omap (λ i, l !! i) (Dictobject.layout size (hash <$> l)).

(** The order in which a dictionary yields its items. *)
Definition dict_order (size : nat) (items : list (key * value))
  : list (key * value) :=
  order_by (λ kv, hash_key kv.1) size items.

(** [d[k] = v] on a dictionary object. *)
Definition setitem (d k v : value) : M unit :=
  o ← deref d;
  match o with
  | OTable size items =>
      kk ← lift TypeError (to_key k);
      store d (OTable size (dict_set kk v items))
  | _ => raise TypeError
  end.

(** [d[k]] on a dictionary object. *)
Definition getitem (d k : value) : M value :=
  o ← deref d;
  match o with
  | OTable _ items =>
      kk ← lift TypeError (to_key k);
      lift KeyError (dict_get kk items)
  | _ => raise TypeError
  end.

(** A dictionary display [{k1: v1, ...}]: [BUILD_MAP] creates the table
    for the number of items of the display, and [STORE_MAP] stores them one
    after the other. *)
Definition new_dict (items : list (key * value)) : M value :=
  alloc (OTable (Dictobject.table_size (length items))
                (fold_left (λ d kv, dict_set kv.1 kv.2 d) items [])).

(** [d.iteritems()], taken as the list of the items it yields. *)
Definition iteritems (d : value) : M (list (key * value)) :=
  o ← deref d;
  match o with
  | OTable size items => mret (dict_order size items)
  | _ => raise AttributeError
  end.

(** The elements a [for] loop or [list()] draws from a value. *)
Definition iterate (v : value) : M (list value) :=
  match v with
  | VTuple items => mret items
  | VStr s => mret (VStr <$> ((λ a, String a EmptyString) <$> list_ascii_of_string s))
  | VRef _ =>
      o ← deref v;
      match o with
      | OList items => mret items
      | OTable size items =>
          mret ((λ kv, of_key kv.1) <$> dict_order size items)
      | OInst _ _ => raise TypeError
      end
  | _ => raise TypeError
  end.

(** [list(v)]: a new list with the elements of [v]. *)
Definition py_list (v : value) : M value :=
  items ← iterate v;
  new_list items.

(** [l.append(x)] *)
Definition append (l x : value) : M unit :=
  o ← deref l;
  match o with
  | OList items => store l (OList (items ++ [x]))
  | _ => raise AttributeError
  end.

(** [t[i]] on a tuple or a list. *)
Definition index (t : value) (i : nat) : M value :=
  items ← match t with
          | VTuple items => mret items
          | VRef _ =>
              o ← deref t;
              match o with
              | OList items => mret items
              | _ => raise TypeError
              end
          | _ => raise TypeError
          end;
  lift IndexError (items !! i).

(** ** [copy.deepcopy] *)

Abbreviation memo := (gmap loc loc).

Fixpoint fold_memo {A} (l : list A) (body : A → memo → M memo) (m : memo)
  : M memo :=
  match l with
  | [] => mret m
  | x :: l' => m' ← body x m; fold_memo l' body m'
  end.

Fixpoint map_memo (f : value → memo → M (value * memo)) (l : list value)
  (m : memo) : M (list value * memo) :=
  match l with
  | [] => mret ([], m)
  | x :: l' =>
      r ← f x m;
      rs ← map_memo f l' r.2;
      mret (r.1 :: rs.1, rs.2)
  end.

(** [deepcopy(x, memo)].  Atomic values are returned as they are; a list, a
    dictionary or an instance that the memo already holds is returned from
    it; otherwise the empty copy is created and entered in the memo before
    the components are copied into it; the copy of a dictionary is a [{}]
    that takes the items in the order in which [x.iteritems()] yields
    them.  [depth] bounds the nesting of the recursive calls, as the
    interpreter's recursion limit does. *)
Fixpoint deepcopy_rec (depth : nat) (x : value) (m : memo)
  : M (value * memo) :=
  match depth with
  | O => raise RecursionError
  | S depth' =>
      match x with
      | VTuple items =>
          r ← map_memo (deepcopy_rec depth') items m;
          mret (VTuple r.1, r.2)
      | VRef l =>
          match m !! l with
          | Some l' => mret (VRef l', m)
          | None =>
              o ← deref x;
              match o with
              | OList items =>
                  y ← alloc (OList []);
                  match y with
                  | VRef ly =>
                      m' ← fold_memo items (λ a m,
                             r ← deepcopy_rec depth' a m;
                             append y r.1;;
                             mret r.2) (<[l := ly]> m);
                      mret (y, m')
                  | _ => raise SystemError
                  end
              | OTable size items =>
                  y ← alloc (ODict []);
                  match y with
                  | VRef ly =>
                      m' ← fold_memo (dict_order size items) (λ kv m,
                             r ← deepcopy_rec depth' kv.2 m;
                             setitem y (of_key kv.1) r.1;;
                             mret r.2) (<[l := ly]> m);
                      mret (y, m')
                  | _ => raise SystemError
                  end
              | OInst c d =>
                  y ← alloc (OInst c ∅);
                  match y with
                  | VRef ly =>
                      m' ← fold_memo (map_to_list d) (λ nv m,
                             r ← deepcopy_rec depth' nv.2 m;
                             setattr y nv.1 r.1;;
                             mret r.2) (<[l := ly]> m);
                      mret (y, m')
                  | _ => raise SystemError
                  end
              end
          end
      | _ => mret (x, m)
      end
  end.

Definition recursion_limit : nat := 1000.

Definition deepcopy (x : value) : M value :=
  r ← deepcopy_rec recursion_limit x ∅;
  mret r.1.

(** ** String operations on values *)

Definition is_none (v : value) : bool :=
  match v with
  | VNone => true
  | _ => false
  end.

Definition as_str (e : exn) (v : value) : M string :=
  match v with
  | VStr s => mret s
  | _ => raise e
  end.

Fixpoint as_strs (e : exn) (vs : list value) : M (list string) :=
  match vs with
  | [] => mret []
  | v :: vs' => s ← as_str e v; ss ← as_strs e vs'; mret (s :: ss)
  end.

(** [a + b] on strings. *)
Definition str_add (a b : value) : M value :=
  x ← as_str TypeError a;
  y ← as_str TypeError b;
  mret (VStr (x +:+ y)).

(** [v1 + v2 + ... + vn], associated to the left as Python does. *)
Definition str_sum (vs : list value) : M value :=
  match vs with
  | [] => raise TypeError
  | v :: vs' => foldl (λ acc b, a ← acc; str_add a b) (mret v) vs'
  end.

(** [sep.join(v)] *)
Definition str_join (sep : string) (v : value) : M value :=
  items ← iterate v;
  ss ← as_strs TypeError items;
  mret (VStr (Str.join sep ss)).

(** [v == s] for a string literal [s]. *)
Definition eq_str (v : value) (s : string) : bool :=
  match v with
  | VStr t => String.eqb t s
  | _ => false
  end.

(** [v.split(c, 1)[0]] *)
Definition split_head (c : ascii) (v : value) : M value :=
  s ← as_str AttributeError v;
  mret (VStr (Str.split_head c s)).

(** [fmt % arg] for a string [arg]. *)
Definition str_format (fmt arg : string) : M value :=
  r ← lift TypeError (Str.format_s fmt arg false);
  mret (VStr r).

(** [os.path.join(a, *p)] *)
Definition join_step (path b : value) : M value :=
  bs ← as_str AttributeError b;
  if Str.startswith "/" bs then mret b
  else
    ps ← as_str AttributeError path;
    mret (VStr (Posixpath.join_step ps bs)).

Definition join (a : value) (p : list value) : M value :=
  foldl (λ acc b, path ← acc; join_step path b) (mret a) p.

(** ** Calls *)

(** Binding the keywords of a call against the parameters that follow
    [self], each with its default: a keyword that names no parameter is a
    [TypeError]; a parameter without a keyword takes its default.  The
    callers of this module pass keywords only. *)
Fixpoint kw_get (n : string) (kw : kwargs) : option value :=
  match kw with
  | [] => None
  | (m, v) :: kw' => if String.eqb m n then Some v else kw_get n kw'
  end.

Definition bind_kw (params : list (string * value)) (kw : kwargs)
  : M (list value) :=
  if forallb (λ a : string * value, bool_decide (a.1 ∈ params.*1)) kw
  then mret ((λ p : string * value, default p.2 (kw_get p.1 kw)) <$> params)
  else raise TypeError.

(** A call of the class [cls] with the keywords [kw]: a new instance of
    [cls], initialised by the class's [__init__]. *)
Definition instantiate (cls : value) (init : value → kwargs → M unit)
  (kw : kwargs) : M value :=
  match cls with
  | VClass c =>
      self ← alloc (OInst c ∅);
      init self kw;;
      mret self
  | _ => raise TypeError
  end.

(** [self.n = self.n] *)
Definition copy_attr (self : value) (n : string) : M unit :=
  x ← getattr self n;
  setattr self n x.

(** The names bound by a class body, a later binding replacing an earlier
    one. *)
Definition namespace (l : list (string * value)) : gmap string value :=
  foldl (λ d nv, <[nv.1 := nv.2]> d) ∅ l.

Definition strs (l : list string) : list value := VStr <$> l.

(** A dictionary display whose values are list displays. *)
Fixpoint table (rows : list (string * list string))
  : M (list (key * value)) :=
  match rows with
  | [] => mret []
  | (k, labels) :: rows' =>
      l ← new_list (strs labels);
      rest ← table rows';
      mret ((KStr k, l) :: rest)
  end.

(** A row of a classification table in the store: the coarse key, the list
    object bound to it and the labels that the list holds. *)
Record row : Type := Row {
  row_key : string;
  row_loc : loc;
  row_labels : list string
}.

Definition row_item (r : row) : key * value := (KStr (row_key r), VRef (row_loc r)).

(** The dictionary at [t] is the table [rows]: a dictionary that yields
    the rows in this order, of distinct keys, each bound to a list object of
    its own. *)
Definition table_at (h : heap) (t : loc) (rows : list row) : Prop :=
  (∃ size items, h !! t = Some (OTable size items) ∧
                 dict_order size items = row_item <$> rows) ∧
  Forall (λ r, h !! row_loc r = Some (OList (strs (row_labels r)))) rows ∧
  NoDup (row_key <$> rows) ∧
  NoDup (row_loc <$> rows).

(** The rows of a table display whose lists were allocated from [b] on,
    in the order of the display. *)
Definition rows_from (b : loc) (display : list (string * list string))
  : list row :=
  imap (λ i kl, Row kl.1 (b + i) kl.2) display.

(** The same rows in the order in which the dictionary of the display
    yields them. *)
Definition yielded_rows (b : loc) (display : list (string * list string))
  : list row :=
  order_by (λ r, hash_key (KStr (row_key r)))
           (Dictobject.table_size (length display)) (rows_from b display).

(** The rows of the deep copy of a table, in the order in which they were
    copied: the lists of the copy follow the dictionary of the copy, which
    is at [b]. *)
Definition copied_rows (b : loc) (rows : list row) : list row :=
  imap (λ i r, Row (row_key r) (b + S i) (row_labels r)) rows.

(** The lists that the deep copy of a table allocates, and the turn of
    the loop of [deepcopy] that copies one item of a dictionary into the
    copy [y]. *)
Definition row_lists (rows : list row) : heap :=
  (λ r, OList (strs (row_labels r))) <$> rows.

Definition copy_item (d : nat) (y : value) : key * value → memo → M memo :=
  λ kv m,
    r ← deepcopy_rec (S (S d)) kv.2 m;
    setitem y (of_key kv.1) r.1;;
    mret r.2.

(** The display a table in the store was written as. *)
Definition display_of (rows : list row) : list (string * list string) :=
  (λ r, (row_key r, row_labels r)) <$> rows.

(** What the loop of [build_proxy_type_mapping] leaves in the reverse
    index, as a function of the table it walks. *)
Definition index_row (d : list (key * value)) (kl : string * list string)
  : list (key * value) :=
  foldl (λ d label,
           dict_set (KPair (Str.split_head "_" kl.1) label) (VStr kl.1) d)
        d kl.2.

Definition reverse_index (display : list (string * list string))
  : list (key * value) :=
  foldl index_row [] display.

(** The order in which the loop walks the rows of the deep copy of a
    table: the copy is a [{}] into which [deepcopy] stored the rows in the
    order [display], and [iteritems] yields them in the order of its
    slots. *)
Definition walk (display : list (string * list string))
  : list (string * list string) :=
  order_by (λ kl, hash_key (KStr kl.1)) 8 display.

(** The name of the calibration file as the resolvers of [psm] put it
    together, with one tag and with two. *)
Definition psm_file (use_from : list string) (dbversion tag : string)
  : string :=
  let j := Str.join "-" use_from in
  if String.eqb j "NCDC"
  then ((((("PSMs_" +:+ j) +:+ "_") +:+ dbversion) +:+ "_") +:+ tag)
         +:+ ".pckl"
  else ((("PSMs_" +:+ j) +:+ "_") +:+ tag) +:+ ".pckl".

Definition psm_file2 (use_from : list string) (dbversion tag_t tag_p : string)
  : string :=
  let j := Str.join "-" use_from in
  if String.eqb j "NCDC"
  then ((((((("PSMs_" +:+ j) +:+ "_") +:+ dbversion) +:+ "_") +:+ tag_t)
           +:+ "_") +:+ tag_p) +:+ ".pckl"
  else ((((("PSMs_" +:+ j) +:+ "_") +:+ tag_t) +:+ "_") +:+ tag_p)
         +:+ ".pckl".

(** ** The parameter groups *)

(** *** [class wrapper] *)
Module wrapper.

(** The parameters of the class, typed as its docstring types them. *)
Record params : Type := Params {
  multi_seed : value;
  iter_range : list value
}.

Definition attrs (p : params) : list (string * value) := [
  ("multi_seed", multi_seed p);
  ("iter_range", VTuple (iter_range p))].

Definition view (C : classes) (p : params) : Prop :=
  has_attrs C "wrapper" (attrs p).

Definition shipped : params := Params VNone [VInt 0; VInt 0].

Definition body : M class :=
  mret (Class ["wrapper"; "object"] (namespace [
    ("multi_seed", VNone);
    ("iter_range", VTuple [VInt 0; VInt 0])])).

Definition __init__ (self : value) (kw : kwargs) : M unit :=
  bind_kw [] kw;;
  copy_attr self "multi_seed";;
  copy_attr self "iter_range".

(** The dictionary of a resolved instance. *)
Definition resolved (p : params) : gmap string value := namespace [
  ("multi_seed", multi_seed p);
  ("iter_range", VTuple (iter_range p))].

End wrapper.

(** *** [class core] *)
Module core.

Record params : Type := Params {
  nexp : value;
  lmr_path : string;
  online_reconstruction : value;
  clean_start : value;
  use_precalc_ye : value;
  recon_period : value;
  nens : value;
  seed : value;
  loc_rad : value;
  datadir_output : value;
  archive_dir : value
}.

Definition attrs (p : params) : list (string * value) := [
  ("nexp", nexp p);
  ("lmr_path", VStr (lmr_path p));
  ("online_reconstruction", online_reconstruction p);
  ("clean_start", clean_start p);
  ("use_precalc_ye", use_precalc_ye p);
  ("recon_period", recon_period p);
  ("nens", nens p);
  ("seed", seed p);
  ("loc_rad", loc_rad p);
  ("datadir_output", datadir_output p);
  ("archive_dir", archive_dir p)].

Definition view (C : classes) (p : params) : Prop :=
  has_attrs C "core" (attrs p).

Definition shipped : params := {|
  nexp := VStr "test_ncdc_v0.1.0";
  lmr_path := "/home/disk/kalman3/rtardif/LMR";
  online_reconstruction := VBool false;
  clean_start := VBool true;
  use_precalc_ye := VBool false;
  recon_period := VTuple [VInt 1800; VInt 2000];
  nens := VInt 100;
  seed := VInt 0;
  loc_rad := VNone;
  datadir_output := VStr "/home/disk/kalman3/rtardif/LMR/output/wrk";
  archive_dir := VStr "/home/disk/kalman3/rtardif/LMR/output"
|}.

Definition body : M class :=
  mret (Class ["core"; "object"] (namespace [
    ("nexp", VStr "test_ncdc_v0.1.0");
    ("lmr_path", VStr "/home/disk/kalman3/rtardif/LMR");
    ("online_reconstruction", VBool false);
    ("clean_start", VBool true);
    ("use_precalc_ye", VBool false);
    ("recon_period", VTuple [VInt 1800; VInt 2000]);
    ("nens", VInt 100);
    ("seed", VInt 0);
    ("loc_rad", VNone);
    ("datadir_output", VStr "/home/disk/kalman3/rtardif/LMR/output/wrk");
    ("archive_dir", VStr "/home/disk/kalman3/rtardif/LMR/output")])).

(** [def __init__(self, curr_iter=None)] *)
Definition __init__ (self : value) (kw : kwargs) : M unit :=
  args ← bind_kw [("curr_iter", VNone)] kw;
  let curr_iter := default VNone (args !! 0%nat) in
  copy_attr self "nexp";;
  copy_attr self "lmr_path";;
  copy_attr self "online_reconstruction";;
  copy_attr self "clean_start";;
  copy_attr self "use_precalc_ye";;
  copy_attr self "recon_period";;
  copy_attr self "nens";;
  copy_attr self "loc_rad";;
  copy_attr self "seed";;
  copy_attr self "datadir_output";;
  copy_attr self "archive_dir";;
  if is_none curr_iter then
    r ← getattr (VClass "wrapper") "iter_range";
    x ← index r 0;
    setattr self "curr_iter" x
  else
    setattr self "curr_iter" curr_iter.

Definition resolved (p : params) (curr_iter : value)
  : gmap string value := namespace [
  ("nexp", nexp p);
  ("lmr_path", VStr (lmr_path p));
  ("online_reconstruction", online_reconstruction p);
  ("clean_start", clean_start p);
  ("use_precalc_ye", use_precalc_ye p);
  ("recon_period", recon_period p);
  ("nens", nens p);
  ("loc_rad", loc_rad p);
  ("seed", seed p);
  ("datadir_output", datadir_output p);
  ("archive_dir", archive_dir p);
  ("curr_iter", curr_iter)].

End core.

(** The block that both proxy groups end their resolution with:
    [self.proxy_type_mapping = {}
     for ptype, measurements in self.proxy_assim2.iteritems():
         type_name = ptype.split('_', 1)[0]
         for measure in measurements:
             self.proxy_type_mapping[(type_name, measure)] = ptype] *)
Definition build_proxy_type_mapping (self : value) : M unit :=
  (d ← new_dict []; setattr self "proxy_type_mapping" d);;
  t ← getattr self "proxy_assim2";
  items ← iteritems t;
  for_each items (λ item,
    let ptype := of_key item.1 in
    let measurements := item.2 in
    type_name ← split_head "_" ptype;
    ms ← iterate measurements;
    for_each ms (λ measure,
      m ← getattr self "proxy_type_mapping";
      setitem m (VTuple [type_name; measure]) ptype)).

(** *** [class proxies] *)
Module proxies.

Module _pages.

Record params : Type := Params {
  datadir_proxy : option string;
  datafile_proxy : string;
  metafile_proxy : string;
  dataformat_proxy : value;
  regions : loc;
  regions_items : list value;
  proxy_resolution : value;
  proxy_timeseries_kind : value;
  proxy_order : loc;
  proxy_order_items : list value;
  proxy_assim2 : loc;
  rows : list row;
  proxy_blacklist : loc;
  proxy_blacklist_items : list value
}.

Definition attrs (p : params) : list (string * value) := [
  ("datadir_proxy", opt_str (datadir_proxy p));
  ("datafile_proxy", VStr (datafile_proxy p));
  ("metafile_proxy", VStr (metafile_proxy p));
  ("dataformat_proxy", dataformat_proxy p);
  ("regions", VRef (regions p));
  ("proxy_resolution", proxy_resolution p);
  ("proxy_timeseries_kind", proxy_timeseries_kind p);
  ("proxy_order", VRef (proxy_order p));
  ("proxy_assim2", VRef (proxy_assim2 p));
  ("proxy_blacklist", VRef (proxy_blacklist p))].

Definition view (C : classes) (h : heap) (p : params) : Prop :=
  has_attrs C "proxies._pages" (attrs p) ∧
  h !! regions p = Some (OList (regions_items p)) ∧
  h !! proxy_order p = Some (OList (proxy_order_items p)) ∧
  table_at h (proxy_assim2 p) (rows p) ∧
  h !! proxy_blacklist p = Some (OList (proxy_blacklist_items p)).

(** The table display of the class body. *)
Definition proxy_assim2_display : list (string * list string) :=
  [
    ("Tree ring_Width", ["Ring width"; "Tree ring width";
                         "Total ring width"; "TRW"]);
    ("Tree ring_Density", ["Maximum density"; "Minimum density";
                           "Earlywood density"; "Latewood density";
                           "MXD"]);
    ("Ice core_d18O", ["d18O"]);
    ("Ice core_d2H", ["d2H"]);
    ("Ice core_Accumulation", ["Accumulation"]);
    ("Coral_d18O", ["d18O"]);
    ("Coral_Luminescence", ["Luminescence"]);
    ("Lake sediment_All", ["Varve thickness"; "Thickness";
                           "Mass accumulation rate";
                           "Particle-size distribution";
                           "Organic matter"; "X-ray density"]);
    ("Marine sediment_All", ["Mg/Ca"]);
    ("Speleothem_All", ["Lamina thickness"])].

Definition body : M class :=
  regions ← new_list (strs ["Antarctica"; "Arctic"; "Asia"; "Australasia";
                            "Europe"; "North America"; "South America"]);
  proxy_resolution ← new_list [VFloat 1];
  proxy_order ← new_list (strs [
    "Tree ring_Width";
    "Tree ring_Density";
    "Ice core_d18O";
    "Ice core_d2H";
    "Ice core_Accumulation";
    "Coral_d18O";
    "Coral_Luminescence";
    "Lake sediment_All";
    "Marine sediment_All";
    "Speleothem_All"]);
  rows ← table proxy_assim2_display;
  proxy_assim2 ← new_dict rows;
  proxy_blacklist ← new_list [];
  mret (Class ["proxies._pages"; "object"] (namespace [
    ("datadir_proxy", VNone);
    ("datafile_proxy", VStr "Pages2k_Proxies.df.pckl");
    ("metafile_proxy", VStr "Pages2k_Metadata.df.pckl");
    ("dataformat_proxy", VStr "DF");
    ("regions", regions);
    ("proxy_resolution", proxy_resolution);
    ("proxy_timeseries_kind", VStr "asis");
    ("proxy_order", proxy_order);
    ("proxy_assim2", proxy_assim2);
    ("proxy_blacklist", proxy_blacklist)])).

Definition __init__ (self : value) (kw : kwargs) : M unit :=
  bind_kw [] kw;;
  (d ← getattr self "datadir_proxy";
   if is_none d then
     root ← getattr (VClass "core") "lmr_path";
     p ← join root [VStr "data"; VStr "proxies"];
     setattr self "datadir_proxy" p
   else
     copy_attr self "datadir_proxy");;
  (d ← getattr self "datadir_proxy";
   f ← getattr self "datafile_proxy";
   p ← join d [f];
   setattr self "datafile_proxy" p);;
  (d ← getattr self "datadir_proxy";
   f ← getattr self "metafile_proxy";
   p ← join d [f];
   setattr self "metafile_proxy" p);;
  copy_attr self "dataformat_proxy";;
  (x ← getattr self "regions"; y ← py_list x; setattr self "regions" y);;
  copy_attr self "proxy_resolution";;
  copy_attr self "proxy_timeseries_kind";;
  (x ← getattr self "proxy_order"; y ← py_list x; setattr self "proxy_order" y);;
  (x ← getattr self "proxy_assim2"; y ← deepcopy x; setattr self "proxy_assim2" y);;
  (x ← getattr self "proxy_blacklist"; y ← py_list x; setattr self "proxy_blacklist" y);;
  build_proxy_type_mapping self;;
  (r ← getattr self "regions";
   p ← getattr self "proxy_resolution";
   d ← new_dict [(KStr "PAGES 2k Region", r); (KStr "Resolution (yr)", p)];
   setattr self "simple_filters" d).

(** The directory the instance resolves to. *)
Definition dir (root : string) (p : params) : string :=
  match datadir_proxy p with
  | Some d => d
  | None => Posixpath.join root ["data"; "proxies"]
  end.

(** The dictionary of an instance resolved at [b], and the objects the
    resolution allocates after it. *)
Definition resolved (root : string) (b : loc) (p : params)
  : gmap string value :=
  let n := length (rows p) in
  namespace [
    ("datadir_proxy", VStr (dir root p));
    ("datafile_proxy", VStr (Posixpath.join (dir root p) [datafile_proxy p]));
    ("metafile_proxy", VStr (Posixpath.join (dir root p) [metafile_proxy p]));
    ("dataformat_proxy", dataformat_proxy p);
    ("regions", VRef (b + 1));
    ("proxy_resolution", proxy_resolution p);
    ("proxy_timeseries_kind", proxy_timeseries_kind p);
    ("proxy_order", VRef (b + 2));
    ("proxy_assim2", VRef (b + 3));
    ("proxy_blacklist", VRef (b + 4 + n));
    ("proxy_type_mapping", VRef (b + 5 + n));
    ("simple_filters", VRef (b + 6 + n))].

Definition allocated (b : loc) (p : params) : heap :=
  let n := length (rows p) in
  [OList (regions_items p);
   OList (proxy_order_items p);
   ODict (row_item <$> copied_rows (b + 3) (rows p))]
  ++ ((λ r, OList (strs (row_labels r))) <$> rows p)
  ++ [OList (proxy_blacklist_items p);
      ODict (reverse_index (walk (display_of (rows p))));
      ODict [(KStr "PAGES 2k Region", VRef (b + 1));
             (KStr "Resolution (yr)", proxy_resolution p)]].

Definition shipped : params := {|
  datadir_proxy := None;
  datafile_proxy := "Pages2k_Proxies.df.pckl";
  metafile_proxy := "Pages2k_Metadata.df.pckl";
  dataformat_proxy := VStr "DF";
  regions := 0;
  regions_items := strs ["Antarctica"; "Arctic"; "Asia"; "Australasia";
                         "Europe"; "North America"; "South America"];
  proxy_resolution := VRef 1;
  proxy_timeseries_kind := VStr "asis";
  proxy_order := 2;
  proxy_order_items := strs [
    "Tree ring_Width";
    "Tree ring_Density";
    "Ice core_d18O";
    "Ice core_d2H";
    "Ice core_Accumulation";
    "Coral_d18O";
    "Coral_Luminescence";
    "Lake sediment_All";
    "Marine sediment_All";
    "Speleothem_All"];
  proxy_assim2 := 13;
  rows := yielded_rows 3 proxy_assim2_display;
  proxy_blacklist := 14;
  proxy_blacklist_items := []
|}.

(** The parameters after [_pages.datadir_proxy] and
    [_pages.datafile_proxy] have been assigned. *)
Definition with_paths (d : option string) (f : string) (p : params)
  : params := {|
  datadir_proxy := d;
  datafile_proxy := f;
  metafile_proxy := metafile_proxy p;
  dataformat_proxy := dataformat_proxy p;
  regions := regions p;
  regions_items := regions_items p;
  proxy_resolution := proxy_resolution p;
  proxy_timeseries_kind := proxy_timeseries_kind p;
  proxy_order := proxy_order p;
  proxy_order_items := proxy_order_items p;
  proxy_assim2 := proxy_assim2 p;
  rows := rows p;
  proxy_blacklist := proxy_blacklist p;
  proxy_blacklist_items := proxy_blacklist_items p
|}.

(** The parameters after [_pages.proxy_assim2] has been assigned the
    table [rs] at [t]. *)
Definition with_table (t : loc) (rs : list row) (p : params)
  : params := {|
  datadir_proxy := datadir_proxy p;
  datafile_proxy := datafile_proxy p;
  metafile_proxy := metafile_proxy p;
  dataformat_proxy := dataformat_proxy p;
  regions := regions p;
  regions_items := regions_items p;
  proxy_resolution := proxy_resolution p;
  proxy_timeseries_kind := proxy_timeseries_kind p;
  proxy_order := proxy_order p;
  proxy_order_items := proxy_order_items p;
  proxy_assim2 := t;
  rows := rs;
  proxy_blacklist := proxy_blacklist p;
  proxy_blacklist_items := proxy_blacklist_items p
|}.

End _pages.

Module _ncdc.

Record params : Type := Params {
  dbversion : string;
  datadir_proxy : option string;
  datafile_proxy : string;
  metafile_proxy : string;
  dataformat_proxy : value;
  regions : loc;
  regions_items : list value;
  proxy_resolution : value;
  proxy_timeseries_kind : value;
  database_filter : loc;
  database_filter_items : list value;
  proxy_order : loc;
  proxy_order_items : list value;
  proxy_assim2 : loc;
  rows : list row;
  proxy_blacklist : loc;
  proxy_blacklist_items : list value
}.

Definition attrs (p : params) : list (string * value) := [
  ("dbversion", VStr (dbversion p));
  ("datadir_proxy", opt_str (datadir_proxy p));
  ("datafile_proxy", VStr (datafile_proxy p));
  ("metafile_proxy", VStr (metafile_proxy p));
  ("dataformat_proxy", dataformat_proxy p);
  ("regions", VRef (regions p));
  ("proxy_resolution", proxy_resolution p);
  ("proxy_timeseries_kind", proxy_timeseries_kind p);
  ("database_filter", VRef (database_filter p));
  ("proxy_order", VRef (proxy_order p));
  ("proxy_assim2", VRef (proxy_assim2 p));
  ("proxy_blacklist", VRef (proxy_blacklist p))].

Definition view (C : classes) (h : heap) (p : params) : Prop :=
  has_attrs C "proxies._ncdc" (attrs p) ∧
  h !! regions p = Some (OList (regions_items p)) ∧
  h !! database_filter p = Some (OList (database_filter_items p)) ∧
  h !! proxy_order p = Some (OList (proxy_order_items p)) ∧
  table_at h (proxy_assim2 p) (rows p) ∧
  h !! proxy_blacklist p = Some (OList (proxy_blacklist_items p)).

(** The table display of the class body. *)
Definition proxy_assim2_display : list (string * list string) :=
  [
    ("Corals and Sclerosponges_d18O",
       ["d18O"; "delta18O"; "d18o"; "d18O_stk"; "d18O_int"; "d18O_norm";
        "d18o_avg"; "d18o_ave"; "dO18"; "d18O_4"]);
    ("Corals and Sclerosponges_d14C", ["d14C"; "d14c"; "ac_d14c"]);
    ("Corals and Sclerosponges_d13C",
       ["d13C"; "d13c"; "d13c_ave"; "d13c_ann_ave"; "d13C_int"]);
    ("Corals and Sclerosponges_SrCa",
       ["Sr/Ca"; "Sr/Ca_norm"; "Sr/Ca_anom"; "Sr/Ca_int"]);
    ("Corals and Sclerosponges_Sr", ["Sr"]);
    ("Corals and Sclerosponges_BaCa", ["Ba/Ca"]);
    ("Corals and Sclerosponges_CdCa", ["Cd/Ca"]);
    ("Corals and Sclerosponges_MgCa", ["Mg/Ca"]);
    ("Corals and Sclerosponges_UCa", ["U/Ca"; "U/Ca_anom"]);
    ("Corals and Sclerosponges_Pb", ["Pb"]);
    ("Corals and Sclerosponges_Rates", ["ext"; "calc"]);
    ("Ice Cores_d18O",
       ["d18O"; "delta18O"; "delta18o"; "d18o"; "d18o_int"; "d18O_int";
        "d18O_norm"; "d18o_norm"; "dO18"; "d18O_anom"]);
    ("Ice Cores_dD", ["deltaD"; "delD"]);
    ("Ice Cores_Accumulation", ["accum"; "accumu"]);
    ("Ice Cores_MeltFeature", ["MFP"]);
    ("Lake Cores_Varve", ["varve"; "varve_thickness"; "varve thickness"]);
    ("Lake Cores_BioMarkers", ["Uk37"; "TEX86"]);
    ("Lake Cores_GeoChem", ["Sr/Ca"; "Mg/Ca"; "Cl_cont"]);
    ("Marine Cores_d18O", ["d18O"]);
    ("Speleothems_d18O", ["d18O"]);
    ("Speleothems_d13C", ["d13C"]);
    ("Tree Rings_WidthBreit", ["trsgi_breit"]);
    ("Tree Rings_WidthPages2", ["trsgi"]);
    ("Tree Rings_WidthPages", ["TRW"; "ERW"; "LRW"]);
    ("Tree Rings_WoodDensity",
       ["max_d"; "min_d"; "early_d"; "earl_d"; "density"; "late_d";
        "MXD"]);
    ("Tree Rings_Isotopes", ["d18O"])].

Definition body : M class :=
  let dbversion := "v0.1.0" in
  datafile_proxy ← str_format "NCDC_%s_Proxies.df.pckl" dbversion;
  metafile_proxy ← str_format "NCDC_%s_Metadata.df.pckl" dbversion;
  regions ← new_list (strs ["Antarctica"; "Arctic"; "Asia"; "Australasia";
                            "Europe"; "North America"; "South America"]);
  proxy_resolution ← new_list [VFloat 1];
  database_filter ← new_list [];
  proxy_order ← new_list (strs [
    "Tree Rings_WoodDensity";
    "Tree Rings_WidthPages";
    "Tree Rings_WidthPages2";
    "Tree Rings_Isotopes";
    "Corals and Sclerosponges_d18O";
    "Corals and Sclerosponges_SrCa";
    "Corals and Sclerosponges_Rates";
    "Ice Cores_d18O";
    "Ice Cores_dD";
    "Ice Cores_Accumulation";
    "Ice Cores_MeltFeature";
    "Lake Cores_Varve";
    "Lake Cores_BioMarkers";
    "Lake Cores_GeoChem";
    "Marine Cores_d18O"]);
  rows ← table proxy_assim2_display;
  proxy_assim2 ← new_dict rows;
  proxy_blacklist ← new_list (strs [
    "00aust01a"; "06cook02a"; "06cook03a"; "08vene01a";
    "09japa01a"; "10guad01a"; "99aust01a"; "99fpol01a"]);
  mret (Class ["proxies._ncdc"; "object"] (namespace [
    ("dbversion", VStr dbversion);
    ("datadir_proxy", VNone);
    ("datafile_proxy", datafile_proxy);
    ("metafile_proxy", metafile_proxy);
    ("dataformat_proxy", VStr "DF");
    ("regions", regions);
    ("proxy_resolution", proxy_resolution);
    ("proxy_timeseries_kind", VStr "asis");
    ("database_filter", database_filter);
    ("proxy_order", proxy_order);
    ("proxy_assim2", proxy_assim2);
    ("proxy_blacklist", proxy_blacklist)])).

Definition __init__ (self : value) (kw : kwargs) : M unit :=
  bind_kw [] kw;;
  (d ← getattr self "datadir_proxy";
   if is_none d then
     root ← getattr (VClass "core") "lmr_path";
     p ← join root [VStr "data"; VStr "proxies"];
     setattr self "datadir_proxy" p
   else
     copy_attr self "datadir_proxy");;
  (d ← getattr self "datadir_proxy";
   f ← getattr self "datafile_proxy";
   p ← join d [f];
   setattr self "datafile_proxy" p);;
  (d ← getattr self "datadir_proxy";
   f ← getattr self "metafile_proxy";
   p ← join d [f];
   setattr self "metafile_proxy" p);;
  copy_attr self "dataformat_proxy";;
  (x ← getattr self "regions"; y ← py_list x; setattr self "regions" y);;
  copy_attr self "proxy_resolution";;
  copy_attr self "proxy_timeseries_kind";;
  (x ← getattr self "proxy_order"; y ← py_list x; setattr self "proxy_order" y);;
  (x ← getattr self "proxy_assim2"; y ← deepcopy x; setattr self "proxy_assim2" y);;
  (x ← getattr self "database_filter"; y ← py_list x; setattr self "database_filter" y);;
  (x ← getattr self "proxy_blacklist"; y ← py_list x; setattr self "proxy_blacklist" y);;
  build_proxy_type_mapping self;;
  (p ← getattr self "proxy_resolution";
   d ← new_dict [(KStr "Resolution (yr)", p)];
   setattr self "simple_filters" d).

Definition dir (root : string) (p : params) : string :=
  match datadir_proxy p with
  | Some d => d
  | None => Posixpath.join root ["data"; "proxies"]
  end.

Definition resolved (root : string) (b : loc) (p : params)
  : gmap string value :=
  let n := length (rows p) in
  namespace [
    ("datadir_proxy", VStr (dir root p));
    ("datafile_proxy", VStr (Posixpath.join (dir root p) [datafile_proxy p]));
    ("metafile_proxy", VStr (Posixpath.join (dir root p) [metafile_proxy p]));
    ("dataformat_proxy", dataformat_proxy p);
    ("regions", VRef (b + 1));
    ("proxy_resolution", proxy_resolution p);
    ("proxy_timeseries_kind", proxy_timeseries_kind p);
    ("proxy_order", VRef (b + 2));
    ("proxy_assim2", VRef (b + 3));
    ("database_filter", VRef (b + 4 + n));
    ("proxy_blacklist", VRef (b + 5 + n));
    ("proxy_type_mapping", VRef (b + 6 + n));
    ("simple_filters", VRef (b + 7 + n))].

Definition allocated (b : loc) (p : params) : heap :=
  let n := length (rows p) in
  [OList (regions_items p);
   OList (proxy_order_items p);
   ODict (row_item <$> copied_rows (b + 3) (rows p))]
  ++ ((λ r, OList (strs (row_labels r))) <$> rows p)
  ++ [OList (database_filter_items p);
      OList (proxy_blacklist_items p);
      ODict (reverse_index (walk (display_of (rows p))));
      ODict [(KStr "Resolution (yr)", proxy_resolution p)]].

Definition shipped : params := {|
  dbversion := "v0.1.0";
  datadir_proxy := None;
  datafile_proxy := "NCDC_v0.1.0_Proxies.df.pckl";
  metafile_proxy := "NCDC_v0.1.0_Metadata.df.pckl";
  dataformat_proxy := VStr "DF";
  regions := 15;
  regions_items := strs ["Antarctica"; "Arctic"; "Asia"; "Australasia";
                         "Europe"; "North America"; "South America"];
  proxy_resolution := VRef 16;
  proxy_timeseries_kind := VStr "asis";
  database_filter := 17;
  database_filter_items := [];
  proxy_order := 18;
  proxy_order_items := strs [
    "Tree Rings_WoodDensity";
    "Tree Rings_WidthPages";
    "Tree Rings_WidthPages2";
    "Tree Rings_Isotopes";
    "Corals and Sclerosponges_d18O";
    "Corals and Sclerosponges_SrCa";
    "Corals and Sclerosponges_Rates";
    "Ice Cores_d18O";
    "Ice Cores_dD";
    "Ice Cores_Accumulation";
    "Ice Cores_MeltFeature";
    "Lake Cores_Varve";
    "Lake Cores_BioMarkers";
    "Lake Cores_GeoChem";
    "Marine Cores_d18O"];
  proxy_assim2 := 45;
  rows := yielded_rows 19 proxy_assim2_display;
  proxy_blacklist := 46;
  proxy_blacklist_items := strs [
    "00aust01a"; "06cook02a"; "06cook03a"; "08vene01a";
    "09japa01a"; "10guad01a"; "99aust01a"; "99fpol01a"]
|}.

End _ncdc.

Record params : Type := Params {
  use_from : loc;
  use_from_items : list string;
  proxy_frac : value
}.

Definition attrs (p : params) : list (string * value) := [
  ("use_from", VRef (use_from p));
  ("proxy_frac", proxy_frac p);
  ("_pages", VClass "proxies._pages");
  ("_ncdc", VClass "proxies._ncdc")].

Definition view (C : classes) (h : heap) (p : params) : Prop :=
  has_attrs C "proxies" (attrs p) ∧
  h !! use_from p = Some (OList (strs (use_from_items p))).

Definition shipped : params := Params 47 ["NCDC"] (VFloat 1).

Definition body : M class :=
  use_from ← new_list (strs ["NCDC"]);
  mret (Class ["proxies"; "object"] (namespace [
    ("use_from", use_from);
    ("proxy_frac", VFloat 1);
    ("_pages", VClass "proxies._pages");
    ("_ncdc", VClass "proxies._ncdc")])).

(** [def __init__(self, **kwargs)]: every keyword is accepted here and
    passed on to the two sub-groups. *)
Definition __init__ (self : value) (kw : kwargs) : M unit :=
  copy_attr self "use_from";;
  copy_attr self "proxy_frac";;
  (x ← getattr (VClass "core") "seed"; setattr self "seed" x);;
  (c ← getattr self "_pages";
   i ← instantiate c _pages.__init__ kw;
   setattr self "pages" i);;
  (c ← getattr self "_ncdc";
   i ← instantiate c _ncdc.__init__ kw;
   setattr self "ncdc" i).

(** The dictionary of an instance resolved at [b], and the objects the
    resolution allocates after it: the two sub-groups, each followed by
    what its own resolution allocates. *)
Definition resolved (seed : value) (b : loc) (pp : _pages.params)
  (p : params) : gmap string value := namespace [
  ("use_from", VRef (use_from p));
  ("proxy_frac", proxy_frac p);
  ("seed", seed);
  ("pages", VRef (b + 1));
  ("ncdc", VRef (b + 8 + length (_pages.rows pp)))].

Definition allocated (root : string) (b : loc) (pp : _pages.params)
  (np : _ncdc.params) : heap :=
  let b' := b + 8 + length (_pages.rows pp) in
  (OInst "proxies._pages" (_pages.resolved root (b + 1) pp)
     :: _pages.allocated (b + 1) pp)
  ++ (OInst "proxies._ncdc" (_ncdc.resolved root b' np)
        :: _ncdc.allocated b' np).

End proxies.

(** *** [class psm] *)
Module psm.

Module _linear.

Record params : Type := Params {
  datadir_calib : option string;
  datatag_calib : string;
  datafile_calib : value;
  dataformat_calib : value;
  pre_calib_datafile : option string;
  psm_r_crit : value
}.

Definition attrs (p : params) : list (string * value) := [
  ("datadir_calib", opt_str (datadir_calib p));
  ("datatag_calib", VStr (datatag_calib p));
  ("datafile_calib", datafile_calib p);
  ("dataformat_calib", dataformat_calib p);
  ("pre_calib_datafile", opt_str (pre_calib_datafile p));
  ("psm_r_crit", psm_r_crit p)].

Definition view (C : classes) (p : params) : Prop :=
  has_attrs C "psm._linear" (attrs p).

Definition shipped : params := {|
  datadir_calib := None;
  datatag_calib := "GISTEMP";
  datafile_calib := VStr "gistemp1200_ERSST.nc";
  dataformat_calib := VStr "NCD";
  pre_calib_datafile := None;
  psm_r_crit := VFloat 0
|}.

Definition body : M class :=
  mret (Class ["psm._linear"; "object"] (namespace [
    ("datadir_calib", VNone);
    ("datatag_calib", VStr "GISTEMP");
    ("datafile_calib", VStr "gistemp1200_ERSST.nc");
    ("dataformat_calib", VStr "NCD");
    ("pre_calib_datafile", VNone);
    ("psm_r_crit", VFloat 0)])).

Definition __init__ (self : value) (kw : kwargs) : M unit :=
  bind_kw [] kw;;
  copy_attr self "datatag_calib";;
  copy_attr self "datafile_calib";;
  copy_attr self "dataformat_calib";;
  copy_attr self "psm_r_crit";;
  (d ← getattr self "datadir_calib";
   if is_none d then
     root ← getattr (VClass "core") "lmr_path";
     p ← join root [VStr "data"; VStr "analyses"];
     setattr self "datadir_calib" p
   else
     copy_attr self "datadir_calib");;
  (f ← getattr self "pre_calib_datafile";
   if is_none f then
     filename ← (
       u ← getattr (VClass "proxies") "use_from";
       j ← str_join "-" u;
       if eq_str j "NCDC" then
         ncdc ← getattr (VClass "proxies") "_ncdc";
         dbversion ← getattr ncdc "dbversion";
         u ← getattr (VClass "proxies") "use_from";
         j ← str_join "-" u;
         tag ← getattr self "datatag_calib";
         str_sum [VStr "PSMs_"; j; VStr "_"; dbversion;
                  VStr "_"; tag; VStr ".pckl"]
       else
         u ← getattr (VClass "proxies") "use_from";
         j ← str_join "-" u;
         tag ← getattr self "datatag_calib";
         str_sum [VStr "PSMs_"; j; VStr "_"; tag; VStr ".pckl"]);
     root ← getattr (VClass "core") "lmr_path";
     p ← join root [VStr "PSM"; filename];
     setattr self "pre_calib_datafile" p
   else
     copy_attr self "pre_calib_datafile").

Definition resolved (root : string) (use_from : list string)
  (dbversion : string) (p : params) : gmap string value := namespace [
  ("datatag_calib", VStr (datatag_calib p));
  ("datafile_calib", datafile_calib p);
  ("dataformat_calib", dataformat_calib p);
  ("psm_r_crit", psm_r_crit p);
  ("datadir_calib",
     VStr (default (Posixpath.join root ["data"; "analyses"])
                   (datadir_calib p)));
  ("pre_calib_datafile",
     VStr (default
             (Posixpath.join root
                ["PSM"; psm_file use_from dbversion (datatag_calib p)])
             (pre_calib_datafile p)))].

End _linear.

(** [class _linear_TorP(_linear)] *)
Module _linear_TorP.

Record params : Type := Params {
  datadir_calib : option string;
  datatag_calib_T : string;
  datafile_calib_T : value;
  datatag_calib_P : string;
  datafile_calib_P : value;
  dataformat_calib : value;
  pre_calib_datafile_T : option string;
  pre_calib_datafile_P : option string;
  psm_r_crit : value
}.

Definition attrs (p : params) : list (string * value) := [
  ("datadir_calib", opt_str (datadir_calib p));
  ("datatag_calib_T", VStr (datatag_calib_T p));
  ("datafile_calib_T", datafile_calib_T p);
  ("datatag_calib_P", VStr (datatag_calib_P p));
  ("datafile_calib_P", datafile_calib_P p);
  ("dataformat_calib", dataformat_calib p);
  ("pre_calib_datafile_T", opt_str (pre_calib_datafile_T p));
  ("pre_calib_datafile_P", opt_str (pre_calib_datafile_P p));
  ("psm_r_crit", psm_r_crit p)].

Definition view (C : classes) (p : params) : Prop :=
  has_attrs C "psm._linear_TorP" (attrs p).

(** The class statement [class _linear_TorP(_linear)]: the class comes
    before [_linear] in its resolution order, and its own body does not
    bind [n]. *)
Definition inherits (C : classes) (n : string) : Prop :=
  ∃ k, C !! "psm._linear_TorP" = Some k ∧
       mro k = ["psm._linear_TorP"; "psm._linear"; "object"] ∧
       cdict k !! n = None.

Definition shipped : params := {|
  datadir_calib := None;
  datatag_calib_T := "GISTEMP";
  datafile_calib_T := VStr "gistemp1200_ERSST.nc";
  datatag_calib_P := "GPCC";
  datafile_calib_P := VStr "GPCC_precip.mon.flux.1x1.v6.nc";
  dataformat_calib := VStr "NCD";
  pre_calib_datafile_T := None;
  pre_calib_datafile_P := None;
  psm_r_crit := VFloat 0
|}.

Definition body : M class :=
  mret (Class ["psm._linear_TorP"; "psm._linear"; "object"] (namespace [
    ("datadir_calib", VNone);
    ("datatag_calib_T", VStr "GISTEMP");
    ("datafile_calib_T", VStr "gistemp1200_ERSST.nc");
    ("datatag_calib_P", VStr "GPCC");
    ("datafile_calib_P", VStr "GPCC_precip.mon.flux.1x1.v6.nc");
    ("dataformat_calib", VStr "NCD");
    ("pre_calib_datafile_T", VNone);
    ("pre_calib_datafile_P", VNone);
    ("psm_r_crit", VFloat 0)])).

Definition __init__ (self : value) (kw : kwargs) : M unit :=
  bind_kw [] kw;;
  copy_attr self "datatag_calib_T";;
  copy_attr self "datafile_calib_T";;
  copy_attr self "datatag_calib_P";;
  copy_attr self "datafile_calib_P";;
  copy_attr self "dataformat_calib";;
  copy_attr self "psm_r_crit";;
  (d ← getattr self "datadir_calib";
   if is_none d then
     root ← getattr (VClass "core") "lmr_path";
     p ← join root [VStr "data"; VStr "analyses"];
     setattr self "datadir_calib" p
   else
     copy_attr self "datadir_calib");;
  (f ← getattr self "pre_calib_datafile_T";
   if is_none f then
     filename_t ← (
       u ← getattr (VClass "proxies") "use_from";
       j ← str_join "-" u;
       if eq_str j "NCDC" then
         ncdc ← getattr (VClass "proxies") "_ncdc";
         dbversion ← getattr ncdc "dbversion";
         u ← getattr (VClass "proxies") "use_from";
         j ← str_join "-" u;
         tag ← getattr self "datatag_calib_T";
         str_sum [VStr "PSMs_"; j; VStr "_"; dbversion;
                  VStr "_"; tag; VStr ".pckl"]
       else
         u ← getattr (VClass "proxies") "use_from";
         j ← str_join "-" u;
         tag ← getattr self "datatag_calib_T";
         str_sum [VStr "PSMs_"; j; VStr "_"; tag; VStr ".pckl"]);
     root ← getattr (VClass "core") "lmr_path";
     p ← join root [VStr "PSM"; filename_t];
     setattr self "pre_calib_datafile_T" p
   else
     copy_attr self "pre_calib_datafile_T");;
  (f ← getattr self "pre_calib_datafile_P";
   if is_none f then
     filename_p ← (
       u ← getattr (VClass "proxies") "use_from";
       j ← str_join "-" u;
       if eq_str j "NCDC" then
         ncdc ← getattr (VClass "proxies") "_ncdc";
         dbversion ← getattr ncdc "dbversion";
         u ← getattr (VClass "proxies") "use_from";
         j ← str_join "-" u;
         tag ← getattr self "datatag_calib_P";
         str_sum [VStr "PSMs_"; j; VStr "_"; dbversion;
                  VStr "_"; tag; VStr ".pckl"]
       else
         u ← getattr (VClass "proxies") "use_from";
         j ← str_join "-" u;
         tag ← getattr self "datatag_calib_P";
         str_sum [VStr "PSMs_"; j; VStr "_"; tag; VStr ".pckl"]);
     root ← getattr (VClass "core") "lmr_path";
     p ← join root [VStr "PSM"; filename_p];
     setattr self "pre_calib_datafile_P" p
   else
     copy_attr self "pre_calib_datafile_P").

Definition resolved (root : string) (use_from : list string)
  (dbversion : string) (p : params) : gmap string value := namespace [
  ("datatag_calib_T", VStr (datatag_calib_T p));
  ("datafile_calib_T", datafile_calib_T p);
  ("datatag_calib_P", VStr (datatag_calib_P p));
  ("datafile_calib_P", datafile_calib_P p);
  ("dataformat_calib", dataformat_calib p);
  ("psm_r_crit", psm_r_crit p);
  ("datadir_calib",
     VStr (default (Posixpath.join root ["data"; "analyses"])
                   (datadir_calib p)));
  ("pre_calib_datafile_T",
     VStr (default
             (Posixpath.join root
                ["PSM"; psm_file use_from dbversion (datatag_calib_T p)])
             (pre_calib_datafile_T p)));
  ("pre_calib_datafile_P",
     VStr (default
             (Posixpath.join root
                ["PSM"; psm_file use_from dbversion (datatag_calib_P p)])
             (pre_calib_datafile_P p)))].

End _linear_TorP.

Module _bilinear.

Record params : Type := Params {
  datatag_calib_T : string;
  datafile_calib_T : value;
  dataformat_calib_T : value;
  datatag_calib_P : string;
  datafile_calib_P : value;
  dataformat_calib_P : value;
  datadir_calib : option string;
  pre_calib_datafile : option string;
  psm_r_crit : value
}.

Definition attrs (p : params) : list (string * value) := [
  ("datatag_calib_T", VStr (datatag_calib_T p));
  ("datafile_calib_T", datafile_calib_T p);
  ("dataformat_calib_T", dataformat_calib_T p);
  ("datatag_calib_P", VStr (datatag_calib_P p));
  ("datafile_calib_P", datafile_calib_P p);
  ("dataformat_calib_P", dataformat_calib_P p);
  ("datadir_calib", opt_str (datadir_calib p));
  ("pre_calib_datafile", opt_str (pre_calib_datafile p));
  ("psm_r_crit", psm_r_crit p)].

Definition view (C : classes) (p : params) : Prop :=
  has_attrs C "psm._bilinear" (attrs p).

Definition shipped : params := {|
  datatag_calib_T := "GISTEMP";
  datafile_calib_T := VStr "gistemp1200_ERSST.nc";
  dataformat_calib_T := VStr "NCD";
  datatag_calib_P := "DaiPDSI";
  datafile_calib_P :=
    VStr "Dai_pdsi.mon.mean.selfcalibrated_185001-201412.nc";
  dataformat_calib_P := VStr "NCD";
  datadir_calib := None;
  pre_calib_datafile := None;
  psm_r_crit := VFloat 0
|}.

Definition body : M class :=
  mret (Class ["psm._bilinear"; "object"] (namespace [
    ("datatag_calib_T", VStr "GISTEMP");
    ("datafile_calib_T", VStr "gistemp1200_ERSST.nc");
    ("dataformat_calib_T", VStr "NCD");
    ("datatag_calib_P", VStr "DaiPDSI");
    ("datafile_calib_P",
       VStr "Dai_pdsi.mon.mean.selfcalibrated_185001-201412.nc");
    ("dataformat_calib_P", VStr "NCD");
    ("datadir_calib", VNone);
    ("pre_calib_datafile", VNone);
    ("psm_r_crit", VFloat 0)])).

Definition __init__ (self : value) (kw : kwargs) : M unit :=
  bind_kw [] kw;;
  copy_attr self "datatag_calib_T";;
  copy_attr self "datafile_calib_T";;
  copy_attr self "dataformat_calib_T";;
  copy_attr self "datatag_calib_P";;
  copy_attr self "datafile_calib_P";;
  copy_attr self "dataformat_calib_P";;
  copy_attr self "psm_r_crit";;
  (d ← getattr self "datadir_calib";
   if is_none d then
     root ← getattr (VClass "core") "lmr_path";
     p ← join root [VStr "data"; VStr "analyses"];
     setattr self "datadir_calib" p
   else
     copy_attr self "datadir_calib");;
  (f ← getattr self "pre_calib_datafile";
   if is_none f then
     filename ← (
       u ← getattr (VClass "proxies") "use_from";
       j ← str_join "-" u;
       if eq_str j "NCDC" then
         ncdc ← getattr (VClass "proxies") "_ncdc";
         dbversion ← getattr ncdc "dbversion";
         u ← getattr (VClass "proxies") "use_from";
         j ← str_join "-" u;
         tag_t ← getattr self "datatag_calib_T";
         tag_p ← getattr self "datatag_calib_P";
         str_sum [VStr "PSMs_"; j; VStr "_"; dbversion;
                  VStr "_"; tag_t; VStr "_"; tag_p; VStr ".pckl"]
       else
         u ← getattr (VClass "proxies") "use_from";
         j ← str_join "-" u;
         tag_t ← getattr self "datatag_calib_T";
         tag_p ← getattr self "datatag_calib_P";
         str_sum [VStr "PSMs_"; j; VStr "_"; tag_t;
                  VStr "_"; tag_p; VStr ".pckl"]);
     root ← getattr (VClass "core") "lmr_path";
     p ← join root [VStr "PSM"; filename];
     setattr self "pre_calib_datafile" p
   else
     copy_attr self "pre_calib_datafile").

Definition resolved (root : string) (use_from : list string)
  (dbversion : string) (p : params) : gmap string value := namespace [
  ("datatag_calib_T", VStr (datatag_calib_T p));
  ("datafile_calib_T", datafile_calib_T p);
  ("dataformat_calib_T", dataformat_calib_T p);
  ("datatag_calib_P", VStr (datatag_calib_P p));
  ("datafile_calib_P", datafile_calib_P p);
  ("dataformat_calib_P", dataformat_calib_P p);
  ("psm_r_crit", psm_r_crit p);
  ("datadir_calib",
     VStr (default (Posixpath.join root ["data"; "analyses"])
                   (datadir_calib p)));
  ("pre_calib_datafile",
     VStr (default
             (Posixpath.join root
                ["PSM"; psm_file2 use_from dbversion
                          (datatag_calib_T p) (datatag_calib_P p)])
             (pre_calib_datafile p)))].

End _bilinear.

Module _h_interp.

Record params : Type := Params {
  radius_influence : value;
  datadir_obsError : string;
  filename_obsError : string;
  dataformat_obsError : value;
  datafile_obsError : option string
}.

Definition attrs (p : params) : list (string * value) := [
  ("radius_influence", radius_influence p);
  ("datadir_obsError", VStr (datadir_obsError p));
  ("filename_obsError", VStr (filename_obsError p));
  ("dataformat_obsError", dataformat_obsError p);
  ("datafile_obsError", opt_str (datafile_obsError p))].

Definition view (C : classes) (p : params) : Prop :=
  has_attrs C "psm._h_interp" (attrs p).

Definition shipped : params := {|
  radius_influence := VFloat 50;
  datadir_obsError := "./";
  filename_obsError := "R.txt";
  dataformat_obsError := VStr "TXT";
  datafile_obsError := None
|}.

Definition body : M class :=
  mret (Class ["psm._h_interp"; "object"] (namespace [
    ("radius_influence", VFloat 50);
    ("datadir_obsError", VStr "./");
    ("filename_obsError", VStr "R.txt");
    ("dataformat_obsError", VStr "TXT");
    ("datafile_obsError", VNone)])).

Definition __init__ (self : value) (kw : kwargs) : M unit :=
  bind_kw [] kw;;
  copy_attr self "radius_influence";;
  copy_attr self "datadir_obsError";;
  copy_attr self "filename_obsError";;
  copy_attr self "dataformat_obsError";;
  (f ← getattr self "datafile_obsError";
   if is_none f then
     d ← getattr self "datadir_obsError";
     n ← getattr self "filename_obsError";
     p ← join d [n];
     setattr self "datafile_obsError" p
   else
     copy_attr self "datafile_obsError").

Definition resolved (p : params) : gmap string value := namespace [
  ("radius_influence", radius_influence p);
  ("datadir_obsError", VStr (datadir_obsError p));
  ("filename_obsError", VStr (filename_obsError p));
  ("dataformat_obsError", dataformat_obsError p);
  ("datafile_obsError",
     VStr (default
             (Posixpath.join (datadir_obsError p) [filename_obsError p])
             (datafile_obsError p)))].

End _h_interp.

Record params : Type := Params {
  use_psm : value
}.

Definition attrs (p : params) : list (string * value) := [
  ("use_psm", use_psm p);
  ("_linear", VClass "psm._linear");
  ("_linear_TorP", VClass "psm._linear_TorP");
  ("_bilinear", VClass "psm._bilinear");
  ("_h_interp", VClass "psm._h_interp")].

Definition view (C : classes) (p : params) : Prop :=
  has_attrs C "psm" (attrs p).

Definition shipped : params := Params (VRef 48).

Definition body : M class :=
  use_psm ← new_dict [(KStr "pages", VStr "linear");
                      (KStr "NCDC", VStr "linear")];
  mret (Class ["psm"; "object"] (namespace [
    ("use_psm", use_psm);
    ("_linear", VClass "psm._linear");
    ("_linear_TorP", VClass "psm._linear_TorP");
    ("_bilinear", VClass "psm._bilinear");
    ("_h_interp", VClass "psm._h_interp")])).

(** [def __init__(self, **kwargs)] *)
Definition __init__ (self : value) (kw : kwargs) : M unit :=
  copy_attr self "use_psm";;
  (c ← getattr self "_linear";
   i ← instantiate c _linear.__init__ kw;
   setattr self "linear" i);;
  (c ← getattr self "_linear_TorP";
   i ← instantiate c _linear_TorP.__init__ kw;
   setattr self "linear_TorP" i);;
  (c ← getattr self "_bilinear";
   i ← instantiate c _bilinear.__init__ kw;
   setattr self "bilinear" i);;
  (c ← getattr self "_h_interp";
   i ← instantiate c _h_interp.__init__ kw;
   setattr self "h_interp" i).

Definition resolved (b : loc) (p : params) : gmap string value := namespace [
  ("use_psm", use_psm p);
  ("linear", VRef (b + 1));
  ("linear_TorP", VRef (b + 2));
  ("bilinear", VRef (b + 3));
  ("h_interp", VRef (b + 4))].

Definition allocated (root : string) (use_from : list string)
  (dbversion : string) (lp : _linear.params) (tp : _linear_TorP.params)
  (bp : _bilinear.params) (hp : _h_interp.params) : heap := [
  OInst "psm._linear" (_linear.resolved root use_from dbversion lp);
  OInst "psm._linear_TorP" (_linear_TorP.resolved root use_from dbversion tp);
  OInst "psm._bilinear" (_bilinear.resolved root use_from dbversion bp);
  OInst "psm._h_interp" (_h_interp.resolved hp)].

End psm.

(** *** [class prior] *)
Module prior.

Record params : Type := Params {
  datadir_prior : option string;
  prior_source : string;
  datafile_prior : value;
  dataformat_prior : value;
  psm_required_variables : value;
  state_variables : loc;
  state_variables_items : list value;
  detrend : value;
  state_kind : value
}.

Definition attrs (p : params) : list (string * value) := [
  ("datadir_prior", opt_str (datadir_prior p));
  ("prior_source", VStr (prior_source p));
  ("datafile_prior", datafile_prior p);
  ("dataformat_prior", dataformat_prior p);
  ("psm_required_variables", psm_required_variables p);
  ("state_variables", VRef (state_variables p));
  ("detrend", detrend p);
  ("state_kind", state_kind p)].

Definition view (C : classes) (h : heap) (p : params) : Prop :=
  has_attrs C "prior" (attrs p) ∧
  h !! state_variables p = Some (OList (state_variables_items p)).

Definition shipped : params := {|
  datadir_prior := None;
  prior_source := "ccsm4_last_millenium";
  datafile_prior := VStr "[vardef_template]_CCSM4_past1000_085001-185012.nc";
  dataformat_prior := VStr "NCD";
  psm_required_variables := VRef 49;
  state_variables := 50;
  state_variables_items := strs ["tas_sfc_Amon"; "pr_sfc_Amon"];
  detrend := VBool false;
  state_kind := VStr "anom"
|}.

Definition body : M class :=
  psm_required_variables ← new_list (strs ["tas_sfc_Amon"; "pr_sfc_Amon"]);
  state_variables ← new_list (strs ["tas_sfc_Amon"; "pr_sfc_Amon"]);
  mret (Class ["prior"; "object"] (namespace [
    ("datadir_prior", VNone);
    ("prior_source", VStr "ccsm4_last_millenium");
    ("datafile_prior",
       VStr "[vardef_template]_CCSM4_past1000_085001-185012.nc");
    ("dataformat_prior", VStr "NCD");
    ("psm_required_variables", psm_required_variables);
    ("state_variables", state_variables);
    ("detrend", VBool false);
    ("state_kind", VStr "anom")])).

Definition __init__ (self : value) (kw : kwargs) : M unit :=
  bind_kw [] kw;;
  copy_attr self "prior_source";;
  copy_attr self "datafile_prior";;
  copy_attr self "dataformat_prior";;
  (x ← getattr self "state_variables"; y ← py_list x;
   setattr self "state_variables" y);;
  copy_attr self "psm_required_variables";;
  copy_attr self "detrend";;
  copy_attr self "state_kind";;
  (x ← getattr (VClass "core") "seed"; setattr self "seed" x);;
  (d ← getattr self "datadir_prior";
   if is_none d then
     root ← getattr (VClass "core") "lmr_path";
     src ← getattr self "prior_source";
     p ← join root [VStr "data"; VStr "model"; src];
     setattr self "datadir_prior" p
   else
     copy_attr self "datadir_prior").

Definition resolved (root : string) (seed : value) (b : loc) (p : params)
  : gmap string value := namespace [
  ("prior_source", VStr (prior_source p));
  ("datafile_prior", datafile_prior p);
  ("dataformat_prior", dataformat_prior p);
  ("state_variables", VRef (b + 1));
  ("psm_required_variables", psm_required_variables p);
  ("detrend", detrend p);
  ("state_kind", state_kind p);
  ("seed", seed);
  ("datadir_prior",
     VStr (default (Posixpath.join root ["data"; "model"; prior_source p])
                   (datadir_prior p)))].

End prior.

(** ** The parameters of the whole module *)

Record module_params : Type := ModuleParams {
  wrapper_p : wrapper.params;
  core_p : core.params;
  pages_p : proxies._pages.params;
  ncdc_p : proxies._ncdc.params;
  proxies_p : proxies.params;
  linear_p : psm._linear.params;
  linear_TorP_p : psm._linear_TorP.params;
  bilinear_p : psm._bilinear.params;
  h_interp_p : psm._h_interp.params;
  psm_p : psm.params;
  prior_p : prior.params
}.

(** *** [class Config] *)
Module Config.

Definition body : M class :=
  mret (Class ["Config"; "object"] ∅).

Definition __init__ (self : value) (kw : kwargs) : M unit :=
  bind_kw [] kw;;
  (i ← instantiate (VClass "wrapper") wrapper.__init__ []; setattr self "wrapper" i);;
  (i ← instantiate (VClass "core") core.__init__ []; setattr self "core" i);;
  (i ← instantiate (VClass "proxies") proxies.__init__ []; setattr self "proxies" i);;
  (i ← instantiate (VClass "psm") psm.__init__ []; setattr self "psm" i);;
  (i ← instantiate (VClass "prior") prior.__init__ []; setattr self "prior" i).

(** The dictionary of an aggregate composed at [b], and the objects the
    composition allocates after it: the five groups in the order of the
    assignments, each followed by what its own resolution allocates. *)
Definition resolved (b : loc) (P : module_params) : gmap string value :=
  let n := length (proxies._pages.rows (pages_p P))
           + length (proxies._ncdc.rows (ncdc_p P)) in
  namespace [
    ("wrapper", VRef (b + 1));
    ("core", VRef (b + 2));
    ("proxies", VRef (b + 3));
    ("psm", VRef (b + 19 + n));
    ("prior", VRef (b + 24 + n))].

Definition allocated (b : loc) (curr_iter : value) (P : module_params)
  : heap :=
  let n := length (proxies._pages.rows (pages_p P))
           + length (proxies._ncdc.rows (ncdc_p P)) in
  let root := core.lmr_path (core_p P) in
  let seed := core.seed (core_p P) in
  [OInst "wrapper" (wrapper.resolved (wrapper_p P));
   OInst "core" (core.resolved (core_p P) curr_iter)]
  ++ (OInst "proxies" (proxies.resolved seed (b + 3) (pages_p P) (proxies_p P))
        :: proxies.allocated root (b + 3) (pages_p P) (ncdc_p P))
  ++ (OInst "psm" (psm.resolved (b + 19 + n) (psm_p P))
        :: psm.allocated root (proxies.use_from_items (proxies_p P))
             (proxies._ncdc.dbversion (ncdc_p P))
             (linear_p P) (linear_TorP_p P) (bilinear_p P) (h_interp_p P))
  ++ [OInst "prior" (prior.resolved root seed (b + 24 + n) (prior_p P));
      OList (prior.state_variables_items (prior_p P))].

End Config.

(** ** The module as shipped *)

(** The class statements of the module, in the order of the file. *)
Definition module_body : M classes :=
  wrapper ← wrapper.body;
  core ← core.body;
  pages ← proxies._pages.body;
  ncdc ← proxies._ncdc.body;
  proxies ← proxies.body;
  linear ← psm._linear.body;
  linear_TorP ← psm._linear_TorP.body;
  bilinear ← psm._bilinear.body;
  h_interp ← psm._h_interp.body;
  psm ← psm.body;
  prior ← prior.body;
  config ← Config.body;
  mret (list_to_map [
    ("wrapper", wrapper); ("core", core);
    ("proxies._pages", pages); ("proxies._ncdc", ncdc); ("proxies", proxies);
    ("psm._linear", linear); ("psm._linear_TorP", linear_TorP);
    ("psm._bilinear", bilinear); ("psm._h_interp", h_interp); ("psm", psm);
    ("prior", prior); ("Config", config)]).

Definition shipped : classes * heap :=
  match module_body ∅ [] with
  | Ok C h => (C, h)
  | Raise _ => (∅, [])
  end.

Definition shipped_classes : classes := shipped.1.
Definition shipped_heap : heap := shipped.2.

(** ** Reading resolved instances *)

(** The instance dictionary of [v]. *)
Definition inst_dict (h : heap) (v : value) : option (gmap string value) :=
  match v with
  | VRef l =>
      match h !! l with
      | Some (OInst _ d) => Some d
      | _ => None
      end
  | _ => None
  end.

(** What the resolvers of [psm] read from the other groups: the root path,
    the list of proxy sources and the version of the NCDC database. *)
Definition calib_context (C : classes) (h : heap) (root : string)
  (use_from : list string) (dbversion : string) : Prop :=
  class_attr C "core" "lmr_path" = Some (VStr root) ∧
  (∃ u, class_attr C "proxies" "use_from" = Some (VRef u) ∧
        h !! u = Some (OList (strs use_from))) ∧
  class_attr C "proxies" "_ncdc" = Some (VClass "proxies._ncdc") ∧
  class_attr C "proxies._ncdc" "dbversion" = Some (VStr dbversion).

(** The classes [C] and the store [h] hold the parameters [P]: every class
    binds its parameters to values of the documented types, and the lists
    and tables they refer to are in the store. *)
Definition typed (C : classes) (h : heap) (P : module_params) : Prop :=
  wrapper.view C (wrapper_p P) ∧
  core.view C (core_p P) ∧
  proxies._pages.view C h (pages_p P) ∧
  proxies._ncdc.view C h (ncdc_p P) ∧
  proxies.view C h (proxies_p P) ∧
  psm._linear.view C (linear_p P) ∧
  psm._linear_TorP.view C (linear_TorP_p P) ∧
  psm._bilinear.view C (bilinear_p P) ∧
  psm._h_interp.view C (h_interp_p P) ∧
  psm.view C (psm_p P) ∧
  prior.view C h (prior_p P).

Definition shipped_params : module_params := {|
  wrapper_p := wrapper.shipped;
  core_p := core.shipped;
  pages_p := proxies._pages.shipped;
  ncdc_p := proxies._ncdc.shipped;
  proxies_p := proxies.shipped;
  linear_p := psm._linear.shipped;
  linear_TorP_p := psm._linear_TorP.shipped;
  bilinear_p := psm._bilinear.shipped;
  h_interp_p := psm._h_interp.shipped;
  psm_p := psm.shipped;
  prior_p := prior.shipped
|}.

(** ** Changing a parameter *)

(** The assignment [c.n = v] of a class attribute, by which a caller sets a
    parameter before it resolves a group. *)
Definition set_class_attr (c n : string) (v : value) (C : classes)
  : classes :=
  match C !! c with
  | Some k => <[c := Class (mro k) (<[n := v]> (cdict k))]> C
  | None => C
  end.

(** The shipped module with the classification table of [_pages] replaced
    by the table display [display]. *)
Definition with_pages_table (display : list (string * list string))
  : classes * heap :=
  match (rows ← table display; new_dict rows) shipped_classes shipped_heap with
  | Ok t h =>
      (set_class_attr "proxies._pages" "proxy_assim2" t shipped_classes, h)
  | Raise _ => shipped
  end.

(** ** The specification's words *)

(** The owner of a (type-prefix, label) pair in the reverse index: the
    coarse key of the last declared row whose key has the prefix before its
    first separator and whose sequence holds the label. *)
Definition owns (prefix label : string) (kl : string * list string) : bool :=
  bool_decide (Str.split_head "_" kl.1 = prefix ∧ label ∈ kl.2).

Definition owner (display : list (string * list string))
  (prefix label : string) : option string :=
  fst <$> List.find (owns prefix label) (reverse display).

(** What the specification says of the reverse index [items] built from
    the table [display]: each pair reads the coarse key of its owner; in
    particular the pair of a row and of one of its labels reads the key of
    that row, unless a row declared later has the same pair. *)
Definition inverts (display : list (string * list string))
  (items : list (key * value)) : Prop :=
  (∀ prefix label,
     dict_get (KPair prefix label) items
     = VStr <$> owner display prefix label) ∧
  (∀ pre kl post label,
     display = pre ++ kl :: post →
     label ∈ kl.2 →
     Forall (λ kl', owns (Str.split_head "_" kl.1) label kl' = false) post →
     dict_get (KPair (Str.split_head "_" kl.1) label) items
     = Some (VStr kl.1)).

(** No two rows of the table own the same pair. *)
Definition collision_free (display : list (string * list string)) : Prop :=
  ∀ prefix label kl kl',
    kl ∈ display → kl' ∈ display →
    owns prefix label kl = true → owns prefix label kl' = true →
    kl.1 = kl'.1.

Definition collision_freeb (display : list (string * list string)) : bool :=
  forallb (λ kl : string * list string,
    forallb (λ label,
      forallb (λ kl' : string * list string,
        implb (owns (Str.split_head "_" kl.1) label kl')
              (String.eqb kl.1 kl'.1))
        display)
      kl.2)
    display.

(** The version that enters the name of a calibration file: the version
    that the NCDC group declares, when the proxy sources joined by ['-']
    read ['NCDC']. *)
Definition selected_version (use_from : list string) (dbversion : string)
  : option string :=
  if String.eqb (Str.join "-" use_from) "NCDC" then Some dbversion else None.

(** The name of a calibration file in the join order of the specification:
    the prefix, the source names joined by ['-'], the version if there is
    one, the calibration tags joined by ['_'], the extension. *)
Definition calib_filename (sources : list string) (version : option string)
  (tags : list string) : string :=
  "PSMs" +:+ "_" +:+ Str.join "-" sources
         +:+ match version with
             | Some v => "_" +:+ v
             | None => EmptyString
             end
         +:+ "_" +:+ Str.join "_" tags +:+ ".pckl".

(** Equality in value: the same value, or objects of the same kind whose
    components are equal in value, field for field. *)
#[warnings="-register-all"]
Inductive deep_eq (h : heap) : value → value → Prop :=
| deep_eq_same v : deep_eq h v v
| deep_eq_tuple xs ys :
    Forall2 (deep_eq h) xs ys → deep_eq h (VTuple xs) (VTuple ys)
| deep_eq_list l1 l2 xs ys :
    h !! l1 = Some (OList xs) → h !! l2 = Some (OList ys) →
    Forall2 (deep_eq h) xs ys →
    deep_eq h (VRef l1) (VRef l2)
| deep_eq_dict l1 l2 xs ys :
    h !! l1 = Some (ODict xs) → h !! l2 = Some (ODict ys) →
    Forall2 (λ a b, a.1 = b.1 ∧ deep_eq h a.2 b.2) xs ys →
    deep_eq h (VRef l1) (VRef l2)
| deep_eq_inst l1 l2 c d1 d2 :
    h !! l1 = Some (OInst c d1) → h !! l2 = Some (OInst c d2) →
    (∀ n, option_Forall2 (deep_eq h) (d1 !! n) (d2 !! n)) →
    deep_eq h (VRef l1) (VRef l2).

(** The objects [objs] are in the store [h] from the place [b] on. *)
Definition placed (h : heap) (b : loc) (objs : heap) : Prop :=
  ∀ i o, objs !! i = Some o → h !! (b + i) = Some o.

(** ** Outcomes *)

(** The value a computation returns, or the exception it raises. *)
Definition outcome {A} (r : result A) : A + exn :=
  match r with
  | Ok a _ => inl a
  | Raise e => inr e
  end.

(** Resolving the group [cls] from the classes [C] and the store [h] gives
    an instance whose field [field] reads [x]. *)
Definition resolves_to (C : classes) (h : heap) (cls : string)
  (init : value → kwargs → M unit) (field : string) (x : value) : Prop :=
  ∃ h',
    instantiate (VClass cls) init [] C h = Ok (VRef (length h)) h' ∧
    getattr (VRef (length h)) field C h' = Ok x h'.

(** The parameters of the module with those of [_pages] replaced. *)
Definition with_pages (pp : proxies._pages.params) (P : module_params)
  : module_params := {|
  wrapper_p := wrapper_p P;
  core_p := core_p P;
  pages_p := pp;
  ncdc_p := ncdc_p P;
  proxies_p := proxies_p P;
  linear_p := linear_p P;
  linear_TorP_p := linear_TorP_p P;
  bilinear_p := bilinear_p P;
  h_interp_p := h_interp_p P;
  psm_p := psm_p P;
  prior_p := prior_p P
|}.

(** The shipped classes after the assignments
    [proxies._pages.datadir_proxy = '/tmp/db'] and
    [proxies._pages.datafile_proxy = 'my_proxies.pckl']. *)
Definition explicit_pages_classes : classes :=
  set_class_attr "proxies._pages" "datafile_proxy" (VStr "my_proxies.pckl")
    (set_class_attr "proxies._pages" "datadir_proxy" (VStr "/tmp/db")
       shipped_classes).

Definition explicit_pages_params : module_params :=
  with_pages
    (proxies._pages.with_paths (Some "/tmp/db") "my_proxies.pckl"
       proxies._pages.shipped)
    shipped_params.

(** The table of the specification's example,
    [{'A_x': ['p','q'], 'B_y': ['q']}], and the shipped module with that
    table in [_pages]: its two lists and the dictionary follow the shipped
    store. *)
Definition example_display : list (string * list string) :=
  [("A_x", ["p"; "q"]); ("B_y", ["q"])].

Definition example_classes : classes := (with_pages_table example_display).1.
Definition example_heap : heap := (with_pages_table example_display).2.

Definition example_pages : proxies._pages.params :=
  proxies._pages.with_table 53 (yielded_rows 51 example_display)
    proxies._pages.shipped.

(** A table in which two coarse keys have the same pair,
    [{'A_x': ['q'], 'A_y': ['q']}]. *)
Definition collision_display : list (string * list string) :=
  [("A_x", ["q"]); ("A_y", ["q"])].

(** The class [cls] is resolved and the reverse index of the instance is
    read at the key [k]. *)
Definition mapping_of (cls : string) (init : value → kwargs → M unit)
  (k : value) : M value :=
  inst ← instantiate (VClass cls) init [];
  m ← getattr inst "proxy_type_mapping";
  getitem m k.

(** ** Mutation through an instance *)

(** Two instances of a group are resolved, and [x] is appended to the list
    that the first holds in [field]; the result is what the class and the
    second instance then hold in [field]. *)
Definition append_through (cls : string) (init : value → kwargs → M unit)
  (field : string) (x : value) : M (list value * list value) :=
  a ← instantiate (VClass cls) init [];
  b ← instantiate (VClass cls) init [];
  l ← getattr a field;
  append l x;;
  d ← getattr (VClass cls) field;
  of_class ← iterate d;
  lb ← getattr b field;
  of_other ← iterate lb;
  mret (of_class, of_other).

(** Two root configurations are composed, and [x] is appended to the list
    that the group [group] of the first holds in [field]; the result is what
    the class of the group and the same group of the second configuration
    then hold in [field]. *)
Definition append_through_config (group field : string) (x : value)
  : M (list value * list value) :=
  c1 ← instantiate (VClass "Config") Config.__init__ [];
  c2 ← instantiate (VClass "Config") Config.__init__ [];
  g1 ← getattr c1 group;
  l1 ← getattr g1 field;
  append l1 x;;
  d ← getattr (VClass group) field;
  of_class ← iterate d;
  g2 ← getattr c2 group;
  l2 ← getattr g2 field;
  of_other ← iterate l2;
  mret (of_class, of_other).

(** The same for a dictionary: [v] is stored under the key [k] of the
    dictionary that the first instance holds in [field], and [k] is then
    looked up in what the class and the second instance hold; [KeyError]
    when the key is not there. *)
Definition setitem_through (cls : string) (init : value → kwargs → M unit)
  (field : string) (k v : value) : M (value * value) :=
  a ← instantiate (VClass cls) init [];
  b ← instantiate (VClass cls) init [];
  d ← getattr a field;
  setitem d k v;;
  dc ← getattr (VClass cls) field;
  of_class ← getitem dc k;
  db ← getattr b field;
  of_other ← getitem db k;
  mret (of_class, of_other).

(** The groups that the root configuration holds. *)
Definition groups : list string :=
  ["wrapper"; "core"; "proxies"; "psm"; "prior"].

(** ** Further notions for the properties of the resolvers *)

(** After a resolution that took the store [h] to [h'], the instance holds
    in [field] a list of the items [items] that is no object of [h]. *)
Definition copies_list (C : classes) (h h' : heap) (inst : value)
  (field : string) (items : list value) : Prop :=
  ∃ r, getattr inst field C h' = Ok (VRef r) h' ∧
       h' !! r = Some (OList items) ∧
       h !! r = None.

(** The same for a classification table: the instance holds in [field] a
    table with the keys and the labels of [rows], which it need not yield
    in the order of [rows], and neither the dictionary nor any of its lists
    is an object of [h]. *)
Definition copies_table (C : classes) (h h' : heap) (inst : value)
  (field : string) (rows : list row) : Prop :=
  ∃ t rows',
    getattr inst field C h' = Ok (VRef t) h' ∧
    table_at h' t rows' ∧
    display_of rows' ≡ₚ display_of rows ∧
    h !! t = None ∧
    Forall (λ r, h !! row_loc r = None) rows'.

(** The shipped classes after the assignment [wrapper.iter_range = ()]. *)
Definition no_iterations_classes : classes :=
  set_class_attr "wrapper" "iter_range" (VTuple []) shipped_classes.

(** Every entry of the reverse index [items] comes from the table
    [display]: its key is a pair of a type name and a label, its value is a
    coarse key of the table whose part before the first ['_'] is the type
    name and whose sequence holds the label; the type name has no ['_']. *)
Definition entries_sound (display : list (string * list string))
  (items : list (key * value)) : Prop :=
  ∀ k v, dict_get k items = Some v →
    ∃ type_name label ptype labels,
      k = KPair type_name label ∧ v = VStr ptype ∧
      (ptype, labels) ∈ display ∧
      Str.split_head "_" ptype = type_name ∧
      label ∈ labels ∧
      "_"%char ∉ list_ascii_of_string type_name.

(** The groups of the root configuration, each with its resolver: the
    aggregate holds the instance of the class [g] in its field [g]. *)
Definition group_resolvers : list (string * (value → kwargs → M unit)) :=
  [("wrapper", wrapper.__init__); ("core", core.__init__);
   ("proxies", proxies.__init__); ("psm", psm.__init__);
   ("prior", prior.__init__)].

(** Every class of the module with its resolver. *)
Definition resolvers : list (string * (value → kwargs → M unit)) :=
  [("wrapper", wrapper.__init__); ("core", core.__init__);
   ("proxies._pages", proxies._pages.__init__);
   ("proxies._ncdc", proxies._ncdc.__init__);
   ("proxies", proxies.__init__);
   ("psm._linear", psm._linear.__init__);
   ("psm._linear_TorP", psm._linear_TorP.__init__);
   ("psm._bilinear", psm._bilinear.__init__);
   ("psm._h_interp", psm._h_interp.__init__);
   ("psm", psm.__init__);
   ("prior", prior.__init__);
   ("Config", Config.__init__)].

(** Resolving the class [cls] from the store [h] with no argument succeeds,
    returns an object that [h] does not have, and leaves every object of [h]
    as it is. *)
Definition preserves_store (C : classes) (h : heap) (cls : string)
  (init : value → kwargs → M unit) : Prop :=
  ∃ h',
    instantiate (VClass cls) init [] C h = Ok (VRef (length h)) h' ∧
    h !! length h = None ∧
    ∀ l o, h !! l = Some o → h' !! l = Some o.

(** The sub-groups of [proxies] and of [psm]: the field of the group, the
    class of the sub-group and its resolver. *)
Definition proxies_subgroups
  : list (string * string * (value → kwargs → M unit)) :=
  [("pages", "proxies._pages", proxies._pages.__init__);
   ("ncdc", "proxies._ncdc", proxies._ncdc.__init__)].

Definition psm_subgroups
  : list (string * string * (value → kwargs → M unit)) :=
  [("linear", "psm._linear", psm._linear.__init__);
   ("linear_TorP", "psm._linear_TorP", psm._linear_TorP.__init__);
   ("bilinear", "psm._bilinear", psm._bilinear.__init__);
   ("h_interp", "psm._h_interp", psm._h_interp.__init__)].

(** The instance [g] holds in the field of the sub-group [s] an instance
    that is equal in value to the one that the resolver of [s] gives when
    it is called on its own, and is another object. *)
Definition holds_resolved (C : classes) (h1 : heap) (g : value)
  (s : string * string * (value → kwargs → M unit)) : Prop :=
  ∃ l i h2,
    getattr g s.1.1 C h1 = Ok (VRef l) h1 ∧
    instantiate (VClass s.1.2) s.2 [] C h1 = Ok (VRef i) h2 ∧
    l ≠ i ∧
    deep_eq h2 (VRef l) (VRef i).

(** The shipped classes after the assignment
    [proxies._ncdc.dbversion = v]. *)
Definition with_dbversion (v : string) : classes :=
  set_class_attr "proxies._ncdc" "dbversion" (VStr v) shipped_classes.

(** * Reasoning about computations *)

(** ** The order of a dictionary *)

Lemma entries_insert_free (t : Dictobject.slots) s e :
  Dictobject.free t s = true →
  Dictobject.entries (<[s := Some e]> t) ≡ₚ e :: Dictobject.entries t.
Proof.
  unfold Dictobject.free, Dictobject.entries. intros Hs.
  destruct (t !! s) as [[x|]|] eqn:E; try done.
  assert (Hlen : length (take s t) = s).
  { apply length_take_le. apply lookup_lt_Some in E. lia. }
  rewrite <- (take_drop_middle t s None E).
  rewrite insert_app_r_alt by lia.
  rewrite Hlen, Nat.sub_diag. cbn [insert list_insert].
  rewrite !omap_app. cbn [omap id]. by rewrite Permutation_middle.
Qed.

Lemma entries_insert_clean t e :
  Dictobject.entries (Dictobject.insert_clean t e)
  ≡ₚ e :: Dictobject.entries t.
Proof.
  unfold Dictobject.insert_clean. cbv zeta.
  destruct (Dictobject.free t _) eqn:E.
  - by apply entries_insert_free.
  - unfold Dictobject.entries. rewrite omap_app.
    rewrite Permutation_app_comm. done.
Qed.

Lemma entries_fold_clean es : ∀ t,
  Dictobject.entries (fold_left Dictobject.insert_clean es t)
  ≡ₚ es ++ Dictobject.entries t.
Proof.
  induction es as [|e es IH]; intros t; [done|].
  cbn [fold_left]. rewrite IH, entries_insert_clean.
  by rewrite <- Permutation_middle.
Qed.

Lemma entries_replicate n : Dictobject.entries (replicate n None) = [].
Proof. induction n as [|n IH]; [done|]. exact IH. Qed.

Lemma entries_insert t e :
  Dictobject.entries (Dictobject.insert t e) ≡ₚ e :: Dictobject.entries t.
Proof.
  unfold Dictobject.insert. cbv zeta.
  destruct (_ <=? _)%nat; [|apply entries_insert_clean].
  unfold Dictobject.resize.
  rewrite entries_fold_clean, entries_replicate, app_nil_r.
  apply entries_insert_clean.
Qed.

Lemma entries_fold_insert es : ∀ t,
  Dictobject.entries (fold_left Dictobject.insert es t)
  ≡ₚ es ++ Dictobject.entries t.
Proof.
  induction es as [|e es IH]; intros t; [done|].
  cbn [fold_left]. rewrite IH, entries_insert.
  by rewrite <- Permutation_middle.
Qed.

(** A dictionary yields each of its keys once. *)
Lemma layout_permutation size hashes :
  Dictobject.layout size hashes ≡ₚ seq 0 (length hashes).
Proof.
  unfold Dictobject.layout.
  rewrite entries_fold_insert, entries_replicate, app_nil_r.
  by rewrite snd_zip by (by rewrite length_seq).
Qed.

Lemma omap_lookup_seq {A} (l : list A) : ∀ pre,
  omap (λ i, (pre ++ l) !! i) (seq (length pre) (length l)) = l.
Proof.
  induction l as [|x l IH]; intros pre; [done|].
  cbn [length seq]. change (omap ?f (?a :: ?r)) with
    (match f a with Some y => y :: omap f r | None => omap f r end).
  cbv beta. rewrite list_lookup_middle by done.
  f_equal. specialize (IH (pre ++ [x])).
  rewrite <- app_assoc, length_app, Nat.add_1_r in IH. exact IH.
Qed.

Lemma order_by_permutation {A} (hash : A → Z) size (l : list A) :
  order_by hash size l ≡ₚ l.
Proof.
  unfold order_by. rewrite layout_permutation, length_fmap.
  exact (eq_ind_r (λ x, x ≡ₚ l) (reflexivity l) (omap_lookup_seq l [])).
Qed.

Lemma order_by_fmap {A B} (f : A → B) (hash : B → Z) (hash' : A → Z) size l :
  (∀ x, hash' x = hash (f x)) →
  order_by hash size (f <$> l) = f <$> order_by hash' size l.
Proof.
  intros Hh. unfold order_by.
  rewrite <- list_fmap_compose.
  rewrite (list_fmap_ext (hash ∘ f) hash' l) by (intros; symmetry; apply Hh).
  induction (Dictobject.layout size (hash' <$> l)) as [|i ix IH]; [done|].
  change (omap ?f (?a :: ?r)) with
    (match f a with Some y => y :: omap f r | None => omap f r end).
  cbv beta. rewrite list_lookup_fmap, IH.
  by destruct (l !! i).
Qed.

Lemma elem_of_order_by {A} (hash : A → Z) size (l : list A) x :
  x ∈ order_by hash size l ↔ x ∈ l.
Proof. by rewrite order_by_permutation. Qed.


Lemma append_cons x a b : String x a +:+ b = String x (a +:+ b).
Proof. reflexivity. Qed.

Lemma append_assoc (a b c : string) : (a +:+ b) +:+ c = a +:+ (b +:+ c).
Proof. induction a as [|x a IH]; [done|]. by rewrite !append_cons, IH. Qed.

Lemma bind_ok {A B} (m : M A) (f : A → M B) C h a h1 :
  m C h = Ok a h1 → (m ≫= f) C h = f a C h1.
Proof. intros E. unfold mbind, M_bind. by rewrite E. Qed.

Lemma bind_raise {A B} (m : M A) (f : A → M B) C h e :
  m C h = Raise e → (m ≫= f) C h = Raise e.
Proof. intros E. unfold mbind, M_bind. by rewrite E. Qed.

Lemma bind_assoc {A B D} (m : M A) (f : A → M B) (g : B → M D) C h :
  ((m ≫= f) ≫= g) C h = (m ≫= (λ x, f x ≫= g)) C h.
Proof. unfold mbind, M_bind. by destruct (m C h). Qed.

(** ** The instance under construction

    While [__init__] runs, the store is the store [h0] of the call, then
    the instance, then the objects [T] that the resolver has allocated. *)

Lemma frame_lookup (h0 : heap) o T : (h0 ++ o :: T) !! length h0 = Some o.
Proof. by rewrite list_lookup_middle. Qed.

Lemma frame_insert (h0 : heap) o o' T :
  <[length h0 := o']> (h0 ++ o :: T) = h0 ++ o' :: T.
Proof. rewrite insert_app_r_alt; [|lia]. by rewrite Nat.sub_diag. Qed.

Lemma frame_old (h0 : heap) X l o : h0 !! l = Some o → (h0 ++ X) !! l = Some o.
Proof. apply lookup_app_l_Some. Qed.

Lemma frame_tail (h0 : heap) i T k :
  (h0 ++ i :: T) !! (length h0 + S k) = T !! k.
Proof.
  rewrite lookup_app_r by lia.
  replace (length h0 + S k - length h0) with (S k) by lia. done.
Qed.

Lemma frame_tail_insert (h0 : heap) i T k o :
  <[length h0 + S k := o]> (h0 ++ i :: T) = h0 ++ i :: <[k := o]> T.
Proof.
  rewrite insert_app_r_alt by lia.
  replace (length h0 + S k - length h0) with (S k) by lia. done.
Qed.

Lemma getattr_inst h0 c d T n x C :
  d !! n = Some x →
  getattr (VRef (length h0)) n C (h0 ++ OInst c d :: T)
  = Ok x (h0 ++ OInst c d :: T).
Proof. intros E. unfold getattr. by rewrite frame_lookup, E. Qed.

Lemma getattr_cls h0 c d T n x C :
  d !! n = None → class_attr C c n = Some x →
  getattr (VRef (length h0)) n C (h0 ++ OInst c d :: T)
  = Ok x (h0 ++ OInst c d :: T).
Proof. intros E1 E2. unfold getattr. by rewrite frame_lookup, E1, E2. Qed.

Lemma getattr_class c n x C h :
  class_attr C c n = Some x → getattr (VClass c) n C h = Ok x h.
Proof. intros E. unfold getattr. by rewrite E. Qed.

Lemma setattr_self h0 c d T n x C :
  setattr (VRef (length h0)) n x C (h0 ++ OInst c d :: T)
  = Ok tt (h0 ++ OInst c (<[n := x]> d) :: T).
Proof. unfold setattr. by rewrite frame_lookup, frame_insert. Qed.

Lemma copy_attr_cls h0 c d T n x C :
  d !! n = None → class_attr C c n = Some x →
  copy_attr (VRef (length h0)) n C (h0 ++ OInst c d :: T)
  = Ok tt (h0 ++ OInst c (<[n := x]> d) :: T).
Proof.
  intros Hd Hc. unfold copy_attr.
  erewrite bind_ok by (by apply getattr_cls). apply setattr_self.
Qed.

Lemma copy_attr_inst h0 c d T n x C :
  d !! n = Some x →
  copy_attr (VRef (length h0)) n C (h0 ++ OInst c d :: T)
  = Ok tt (h0 ++ OInst c (<[n := x]> d) :: T).
Proof.
  intros Hd. unfold copy_attr.
  erewrite bind_ok by (by apply getattr_inst). apply setattr_self.
Qed.

Lemma instantiate_run c init kw C h h1 :
  init (VRef (length h)) kw C (h ++ [OInst c ∅]) = Ok tt h1 →
  instantiate (VClass c) init kw C h = Ok (VRef (length h)) h1.
Proof.
  intros E. unfold instantiate.
  erewrite bind_ok by reflexivity. erewrite bind_ok by exact E. reflexivity.
Qed.

Lemma bind_kw_nil C h : bind_kw [] [] C h = Ok [] h.
Proof. reflexivity. Qed.

Lemma alloc_frame o C (h0 : heap) i T :
  alloc o C (h0 ++ i :: T)
  = Ok (VRef (length h0 + S (length T))) (h0 ++ i :: (T ++ [o])).
Proof.
  unfold alloc. rewrite length_app, <- app_assoc. done.
Qed.

Lemma deref_at l o C (h : heap) :
  h !! l = Some o → deref (VRef l) C h = Ok o h.
Proof. intros E. unfold deref. by rewrite E. Qed.

Lemma py_list_frame l xs C (h0 : heap) i T :
  h0 !! l = Some (OList xs) →
  py_list (VRef l) C (h0 ++ i :: T)
  = Ok (VRef (length h0 + S (length T))) (h0 ++ i :: (T ++ [OList xs])).
Proof.
  intros E. unfold py_list, iterate.
  erewrite bind_ok; last first.
  { erewrite bind_ok by (apply deref_at, frame_old, E). reflexivity. }
  apply alloc_frame.
Qed.

Lemma as_strs_strs e l C h : as_strs e (strs l) C h = Ok l h.
Proof.
  induction l as [|s l IH]; [done|]. cbn [strs fmap list_fmap as_strs].
  erewrite bind_ok by reflexivity. erewrite bind_ok by exact IH. done.
Qed.

Lemma str_join_at sep l xs C (h : heap) :
  h !! l = Some (OList (strs xs)) →
  str_join sep (VRef l) C h = Ok (VStr (Str.join sep xs)) h.
Proof.
  intros E. unfold str_join, iterate.
  erewrite bind_ok; last first.
  { erewrite bind_ok by (apply deref_at, E). reflexivity. }
  erewrite bind_ok by apply as_strs_strs. done.
Qed.

Lemma join_step_str a b C h :
  join_step (VStr a) (VStr b) C h = Ok (VStr (Posixpath.join_step a b)) h.
Proof.
  unfold join_step. erewrite bind_ok by reflexivity. cbv beta.
  unfold Posixpath.join_step. destruct (Str.startswith "/" b); [done|].
  by erewrite bind_ok by reflexivity.
Qed.

Lemma join1 a b C h :
  join (VStr a) [VStr b] C h = Ok (VStr (Posixpath.join a [b])) h.
Proof.
  unfold join. cbn [foldl]. erewrite bind_ok by reflexivity.
  apply join_step_str.
Qed.

Lemma join2 a b c C h :
  join (VStr a) [VStr b; VStr c] C h
  = Ok (VStr (Posixpath.join a [b; c])) h.
Proof.
  unfold join. cbn [foldl]. erewrite bind_ok by apply (join1 a b).
  apply join_step_str.
Qed.

Lemma join3 a b c d C h :
  join (VStr a) [VStr b; VStr c; VStr d] C h
  = Ok (VStr (Posixpath.join a [b; c; d])) h.
Proof.
  unfold join. cbn [foldl]. erewrite bind_ok by apply (join2 a b c).
  apply join_step_str.
Qed.

Lemma str_sum5 a b c d e C h :
  str_sum [VStr a; VStr b; VStr c; VStr d; VStr e] C h
  = Ok (VStr ((((a +:+ b) +:+ c) +:+ d) +:+ e)) h.
Proof. reflexivity. Qed.

Lemma str_sum7 a b c d e f g C h :
  str_sum [VStr a; VStr b; VStr c; VStr d; VStr e; VStr f; VStr g] C h
  = Ok (VStr ((((((a +:+ b) +:+ c) +:+ d) +:+ e) +:+ f) +:+ g)) h.
Proof. reflexivity. Qed.

Lemma str_sum9 a b c d e f g i j C h :
  str_sum [VStr a; VStr b; VStr c; VStr d; VStr e; VStr f; VStr g;
           VStr i; VStr j] C h
  = Ok (VStr ((((((((a +:+ b) +:+ c) +:+ d) +:+ e) +:+ f) +:+ g) +:+ i)
               +:+ j)) h.
Proof. reflexivity. Qed.

Lemma index_tuple items i x C h :
  items !! i = Some x → index (VTuple items) i C h = Ok x h.
Proof.
  intros E. unfold index. erewrite bind_ok by reflexivity.
  cbv beta. by rewrite E.
Qed.

(** ** Stepping through a resolver *)

Ltac open_attrs :=
  repeat match goal with
  | H : has_attrs _ _ _ |- _ => unfold has_attrs in H
  | H : Forall _ (_ :: _) |- _ =>
      apply Forall_cons in H as [? H]; cbn [fst snd] in *
  | H : Forall _ [] |- _ => clear H
  end.

(** The run of one primitive: the goal is [m C h = Ok ?a ?h']. *)
Ltac prim :=
  first
  [ apply setattr_self
  | apply copy_attr_inst; reflexivity
  | apply copy_attr_cls; [reflexivity | eassumption]
  | apply getattr_inst; reflexivity
  | apply getattr_cls; [reflexivity | eassumption]
  | apply getattr_class; eassumption
  | apply bind_kw_nil
  | apply join1 | apply join2 | apply join3
  | apply str_sum5 | apply str_sum7 | apply str_sum9
  | apply str_join_at; apply frame_old; eassumption
  | apply py_list_frame; eassumption
  | apply alloc_frame
  | apply index_tuple; reflexivity ].

Ltac step := rewrite ?bind_assoc; erewrite bind_ok; [cbv beta | prim].
Ltac last_step := rewrite ?bind_assoc; prim.

(** Running a resolver on parameters whose tests have been decided. *)
Ltac run :=
  repeat first
    [ step
    | progress cbn [opt_str is_none default eq_str]
    | match goal with
      | E : String.eqb _ _ = _ |- _ => rewrite E
      end ];
  last_step.

(** ** The resolvers of [psm] *)

Section calibration.
Context (C : classes) (h : heap).
Context (root : string) (use_from : list string) (dbversion : string).
Hypothesis Hctx : calib_context C h root use_from dbversion.

Lemma linear_exec p :
  psm._linear.view C p →
  instantiate (VClass "psm._linear") psm._linear.__init__ [] C h
  = Ok (VRef (length h))
       (h ++ [OInst "psm._linear"
                (psm._linear.resolved root use_from dbversion p)]).
Proof.
  destruct Hctx as (Hroot & (u & Hu & Hul) & Hncdc & Hver).
  destruct p as [dc tag df fmt pc rc].
  unfold psm._linear.view, psm._linear.attrs.
  cbn [psm._linear.datadir_calib psm._linear.datatag_calib
         psm._linear.datafile_calib psm._linear.dataformat_calib
         psm._linear.pre_calib_datafile psm._linear.psm_r_crit].
  intros Hv. open_attrs.
  apply instantiate_run.
  unfold psm._linear.__init__, psm._linear.resolved, namespace, psm_file.
  cbn [psm._linear.datadir_calib psm._linear.datatag_calib
         psm._linear.datafile_calib psm._linear.dataformat_calib
         psm._linear.pre_calib_datafile psm._linear.psm_r_crit
         foldl fst snd].
  cbv zeta.
  destruct (String.eqb (Str.join "-" use_from) "NCDC") eqn:E;
    destruct dc as [dc|]; destruct pc as [pc|]; run.
Qed.

Lemma linear_TorP_exec p :
  psm._linear_TorP.view C p →
  instantiate (VClass "psm._linear_TorP") psm._linear_TorP.__init__ [] C h
  = Ok (VRef (length h))
       (h ++ [OInst "psm._linear_TorP"
                (psm._linear_TorP.resolved root use_from dbversion p)]).
Proof.
  destruct Hctx as (Hroot & (u & Hu & Hul) & Hncdc & Hver).
  destruct p as [dc tagT dfT tagP dfP fmt pcT pcP rc].
  unfold psm._linear_TorP.view, psm._linear_TorP.attrs.
  cbn [psm._linear_TorP.datadir_calib psm._linear_TorP.datatag_calib_T
         psm._linear_TorP.datafile_calib_T psm._linear_TorP.datatag_calib_P
         psm._linear_TorP.datafile_calib_P psm._linear_TorP.dataformat_calib
         psm._linear_TorP.pre_calib_datafile_T
         psm._linear_TorP.pre_calib_datafile_P psm._linear_TorP.psm_r_crit].
  intros Hv. open_attrs.
  apply instantiate_run.
  unfold psm._linear_TorP.__init__, psm._linear_TorP.resolved, namespace,
    psm_file.
  cbn [psm._linear_TorP.datadir_calib psm._linear_TorP.datatag_calib_T
         psm._linear_TorP.datafile_calib_T psm._linear_TorP.datatag_calib_P
         psm._linear_TorP.datafile_calib_P psm._linear_TorP.dataformat_calib
         psm._linear_TorP.pre_calib_datafile_T
         psm._linear_TorP.pre_calib_datafile_P psm._linear_TorP.psm_r_crit
         foldl fst snd].
  cbv zeta.
  destruct (String.eqb (Str.join "-" use_from) "NCDC") eqn:E;
    destruct dc as [dc|]; destruct pcT as [pcT|]; destruct pcP as [pcP|];
    run.
Qed.

Lemma bilinear_exec p :
  psm._bilinear.view C p →
  instantiate (VClass "psm._bilinear") psm._bilinear.__init__ [] C h
  = Ok (VRef (length h))
       (h ++ [OInst "psm._bilinear"
                (psm._bilinear.resolved root use_from dbversion p)]).
Proof.
  destruct Hctx as (Hroot & (u & Hu & Hul) & Hncdc & Hver).
  destruct p as [tagT dfT fmtT tagP dfP fmtP dc pc rc].
  unfold psm._bilinear.view, psm._bilinear.attrs.
  cbn [psm._bilinear.datadir_calib psm._bilinear.datatag_calib_T
         psm._bilinear.datafile_calib_T psm._bilinear.datatag_calib_P
         psm._bilinear.datafile_calib_P psm._bilinear.dataformat_calib_T
         psm._bilinear.dataformat_calib_P
         psm._bilinear.pre_calib_datafile psm._bilinear.psm_r_crit].
  intros Hv. open_attrs.
  apply instantiate_run.
  unfold psm._bilinear.__init__, psm._bilinear.resolved, namespace,
    psm_file2.
  cbn [psm._bilinear.datadir_calib psm._bilinear.datatag_calib_T
         psm._bilinear.datafile_calib_T psm._bilinear.datatag_calib_P
         psm._bilinear.datafile_calib_P psm._bilinear.dataformat_calib_T
         psm._bilinear.dataformat_calib_P
         psm._bilinear.pre_calib_datafile psm._bilinear.psm_r_crit
         foldl fst snd].
  cbv zeta.
  destruct (String.eqb (Str.join "-" use_from) "NCDC") eqn:E;
    destruct dc as [dc|]; destruct pc as [pc|]; run.
Qed.

End calibration.

Lemma h_interp_exec C h p :
  psm._h_interp.view C p →
  instantiate (VClass "psm._h_interp") psm._h_interp.__init__ [] C h
  = Ok (VRef (length h))
       (h ++ [OInst "psm._h_interp" (psm._h_interp.resolved p)]).
Proof.
  destruct p as [ri dd fn fmt df].
  unfold psm._h_interp.view, psm._h_interp.attrs.
  cbn [psm._h_interp.radius_influence psm._h_interp.datadir_obsError
         psm._h_interp.filename_obsError psm._h_interp.dataformat_obsError
         psm._h_interp.datafile_obsError].
  intros Hv. open_attrs.
  apply instantiate_run.
  unfold psm._h_interp.__init__, psm._h_interp.resolved, namespace.
  cbn [psm._h_interp.radius_influence psm._h_interp.datadir_obsError
         psm._h_interp.filename_obsError psm._h_interp.dataformat_obsError
         psm._h_interp.datafile_obsError foldl fst snd].
  destruct df as [df|]; run.
Qed.

(** ** [wrapper], [core] and [prior] *)

Lemma wrapper_exec C h p :
  wrapper.view C p →
  instantiate (VClass "wrapper") wrapper.__init__ [] C h
  = Ok (VRef (length h)) (h ++ [OInst "wrapper" (wrapper.resolved p)]).
Proof.
  destruct p as [ms ir]. unfold wrapper.view, wrapper.attrs.
  cbn [wrapper.multi_seed wrapper.iter_range].
  intros Hv. open_attrs.
  apply instantiate_run.
  unfold wrapper.__init__, wrapper.resolved, namespace.
  cbn [wrapper.multi_seed wrapper.iter_range foldl fst snd].
  run.
Qed.

Lemma bind_kw_curr_iter_absent C h :
  bind_kw [("curr_iter", VNone)] [] C h = Ok [VNone] h.
Proof. reflexivity. Qed.

Lemma bind_kw_curr_iter v C h :
  bind_kw [("curr_iter", VNone)] [("curr_iter", v)] C h = Ok [v] h.
Proof. reflexivity. Qed.

Section core_resolver.
Context (C : classes) (h : heap) (p : core.params) (w : wrapper.params).
Hypothesis Hcore : core.view C p.
Hypothesis Hwrapper : wrapper.view C w.

Lemma core_exec_default kw x :
  kw = [] ∨ kw = [("curr_iter", VNone)] →
  wrapper.iter_range w !! 0 = Some x →
  instantiate (VClass "core") core.__init__ kw C h
  = Ok (VRef (length h)) (h ++ [OInst "core" (core.resolved p x)]).
Proof.
  intros Hkw Hx. destruct p, w as [ms ir].
  unfold core.view, core.attrs, wrapper.view, wrapper.attrs in *.
  cbn [core.nexp core.lmr_path core.online_reconstruction core.clean_start
         core.use_precalc_ye core.recon_period core.nens core.seed
         core.loc_rad core.datadir_output core.archive_dir
         wrapper.multi_seed wrapper.iter_range] in *.
  open_attrs.
  apply instantiate_run.
  unfold core.__init__, core.resolved, namespace.
  cbn [core.nexp core.lmr_path core.online_reconstruction core.clean_start
         core.use_precalc_ye core.recon_period core.nens core.seed
         core.loc_rad core.datadir_output core.archive_dir
         foldl fst snd].
  destruct Hkw as [-> | ->].
  - erewrite bind_ok by apply bind_kw_curr_iter_absent.
    cbv beta zeta. change (default VNone ([VNone] !! 0)) with VNone.
    cbn [is_none]. do 12 step. erewrite bind_ok by (apply index_tuple, Hx). apply setattr_self.
  - erewrite bind_ok by apply bind_kw_curr_iter.
    cbv beta zeta. change (default VNone ([VNone] !! 0)) with VNone.
    cbn [is_none]. do 12 step. erewrite bind_ok by (apply index_tuple, Hx). apply setattr_self.
Qed.

Lemma core_exec_given v :
  is_none v = false →
  instantiate (VClass "core") core.__init__ [("curr_iter", v)] C h
  = Ok (VRef (length h)) (h ++ [OInst "core" (core.resolved p v)]).
Proof.
  intros Hv. destruct p.
  unfold core.view, core.attrs in *.
  cbn [core.nexp core.lmr_path core.online_reconstruction core.clean_start
         core.use_precalc_ye core.recon_period core.nens core.seed
         core.loc_rad core.datadir_output core.archive_dir] in *.
  open_attrs.
  apply instantiate_run.
  unfold core.__init__, core.resolved, namespace.
  cbn [core.nexp core.lmr_path core.online_reconstruction core.clean_start
         core.use_precalc_ye core.recon_period core.nens core.seed
         core.loc_rad core.datadir_output core.archive_dir
         foldl fst snd].
  erewrite bind_ok by apply bind_kw_curr_iter.
  cbv beta zeta. change (default VNone ([v] !! 0)) with v. rewrite Hv.
  do 11 step. apply setattr_self.
Qed.

End core_resolver.

Lemma prior_exec C h co p :
  core.view C co → prior.view C h p →
  instantiate (VClass "prior") prior.__init__ [] C h
  = Ok (VRef (length h))
       (h ++ OInst "prior"
               (prior.resolved (core.lmr_path co) (core.seed co) (length h) p)
             :: [OList (prior.state_variables_items p)]).
Proof.
  destruct co, p as [dp src df fmt rv sv svi dt sk].
  unfold core.view, core.attrs, prior.view, prior.attrs.
  cbn [core.nexp core.lmr_path core.online_reconstruction core.clean_start
         core.use_precalc_ye core.recon_period core.nens core.seed
         core.loc_rad core.datadir_output core.archive_dir
         prior.datadir_prior prior.prior_source prior.datafile_prior
         prior.dataformat_prior prior.psm_required_variables
         prior.state_variables prior.state_variables_items prior.detrend
         prior.state_kind].
  intros Hco [Hv Hsv]. open_attrs.
  apply instantiate_run.
  unfold prior.__init__, prior.resolved, namespace.
  cbn [prior.datadir_prior prior.prior_source prior.datafile_prior
         prior.dataformat_prior prior.psm_required_variables
         prior.state_variables prior.state_variables_items prior.detrend
         prior.state_kind foldl fst snd].
  replace (length h + 1) with (length h + S (length (@nil obj)))
    by (cbn [length]; lia).
  destruct dp as [dp|]; run.
Qed.

(** ** Objects anywhere in the store *)

Lemma getattr_at s c d n x C (h : heap) :
  h !! s = Some (OInst c d) → d !! n = Some x →
  getattr (VRef s) n C h = Ok x h.
Proof. intros E1 E2. unfold getattr. by rewrite E1, E2. Qed.

Lemma store_at l o o' C (h : heap) :
  h !! l = Some o → store (VRef l) o' C h = Ok tt (<[l := o']> h).
Proof.
  intros E. unfold store. apply lookup_lt_Some in E.
  by rewrite decide_True.
Qed.

Lemma setitem_at m items k kk v C (h : heap) :
  h !! m = Some (ODict items) → to_key k = Some kk →
  setitem (VRef m) k v C h = Ok tt (<[m := ODict (dict_set kk v items)]> h).
Proof.
  intros E Hk. unfold setitem.
  erewrite bind_ok by (apply deref_at, E). cbv beta iota.
  rewrite Hk. erewrite bind_ok by reflexivity.
  by eapply store_at.
Qed.

Lemma append_at l items x C (h : heap) :
  h !! l = Some (OList items) →
  append (VRef l) x C h = Ok tt (<[l := OList (items ++ [x])]> h).
Proof.
  intros E. unfold append.
  erewrite bind_ok by (apply deref_at, E). cbv beta iota.
  by eapply store_at.
Qed.

(** ** The deep copy of a classification table *)

Lemma deepcopy_strs ls : ∀ acc d m C (h : heap),
  fold_memo (strs ls)
    (λ a m, r ← deepcopy_rec (S d) a m;
            append (VRef (length h)) r.1;;
            mret r.2) m C (h ++ [OList acc])
  = Ok m (h ++ [OList (acc ++ strs ls)]).
Proof.
  unfold strs.
  induction ls as [|s ls IH]; intros acc d m C h.
  - cbn [fmap list_fmap fold_memo]. by rewrite app_nil_r.
  - rewrite fmap_cons. cbn [fold_memo].
    erewrite bind_ok; last first.
    { erewrite bind_ok by reflexivity. cbv beta. cbn [fst snd].
      erewrite bind_ok by (apply append_at, frame_lookup).
      rewrite frame_insert. reflexivity. }
    cbv beta. rewrite IH. by rewrite <- app_assoc.
Qed.

Lemma deepcopy_list l ls d m C (h : heap) :
  m !! l = None → h !! l = Some (OList (strs ls)) →
  deepcopy_rec (S (S d)) (VRef l) m C h
  = Ok (VRef (length h), <[l := length h]> m) (h ++ [OList (strs ls)]).
Proof.
  intros Hm Hl. cbn [deepcopy_rec]. rewrite Hm.
  erewrite bind_ok by (apply deref_at, Hl). cbv beta iota.
  erewrite bind_ok by reflexivity. cbv beta iota.
  erewrite bind_ok by apply (deepcopy_strs ls []). reflexivity.
Qed.

Lemma dict_set_fresh k v d : k ∉ d.*1 → dict_set k v d = d ++ [(k, v)].
Proof.
  induction d as [|[k' v'] d IH]; intros Hk; [done|].
  cbn [dict_set]. rewrite fmap_cons, not_elem_of_cons in Hk.
  destruct Hk as [Hne Hk]. cbn [fst] in Hne.
  rewrite decide_False by done. by rewrite IH.
Qed.

Lemma copied_rows_snoc b pre r :
  copied_rows b (pre ++ [r])
  = copied_rows b pre ++ [Row (row_key r) (b + S (length pre)) (row_labels r)].
Proof.
  unfold copied_rows. rewrite imap_app. cbn [imap]. by rewrite Nat.add_0_r.
Qed.

Lemma copied_rows_keys b rows :
  (row_item <$> copied_rows b rows).*1 = (KStr ∘ row_key) <$> rows.
Proof.
  induction rows as [|r rows IH] using rev_ind; [done|].
  rewrite copied_rows_snoc, !fmap_app, IH. done.
Qed.

Lemma copied_rows_display b rows :
  display_of (copied_rows b rows) = display_of rows.
Proof.
  induction rows as [|r rows IH] using rev_ind; [done|].
  unfold display_of in *. rewrite copied_rows_snoc, !fmap_app, IH. done.
Qed.

Lemma length_copied_rows b rows : length (copied_rows b rows) = length rows.
Proof. apply length_imap. Qed.

Section deepcopy_table.
Context (C : classes) (h : heap) (t : loc) (d : nat).

Lemma deepcopy_rows suf : ∀ pre m,
  (∀ l, is_Some (m !! l) → l = t ∨ l ∈ row_loc <$> pre) →
  NoDup (row_loc <$> (pre ++ suf)) →
  NoDup (row_key <$> (pre ++ suf)) →
  Forall (λ r, h !! row_loc r = Some (OList (strs (row_labels r)))
               ∧ row_loc r ≠ t) suf →
  ∃ m',
    fold_memo (row_item <$> suf) (copy_item d (VRef (length h))) m C
      (h ++ ODict (row_item <$> copied_rows (length h) pre) :: row_lists pre)
    = Ok m'
        (h ++ ODict (row_item <$> copied_rows (length h) (pre ++ suf))
           :: row_lists (pre ++ suf)).
Proof.
  induction suf as [|r suf IH]; intros pre m Hm Hlocs Hkeys Hsuf.
  - exists m. by rewrite app_nil_r.
  - apply Forall_cons in Hsuf as [[Hr Hrt] Hsuf].
    assert (Hfresh : m !! row_loc r = None).
    { destruct (m !! row_loc r) eqn:E; [|done].
      destruct (Hm (row_loc r)) as [?|Hin]; [by eexists|done|].
      rewrite fmap_app, fmap_cons in Hlocs.
      apply NoDup_app in Hlocs as (_ & Hno & _).
      exfalso. apply (Hno _ Hin). apply list_elem_of_here. }
    assert (Hkey : KStr (row_key r)
                     ∉ (row_item <$> copied_rows (length h) pre).*1).
    { rewrite copied_rows_keys. intros Hin.
      apply list_elem_of_fmap in Hin as (r' & Heq & Hin).
      cbn in Heq. injection Heq as Heq.
      rewrite fmap_app, fmap_cons in Hkeys.
      apply NoDup_app in Hkeys as (_ & Hno & _).
      apply (Hno (row_key r)).
      - apply list_elem_of_fmap. exists r'. by rewrite Heq.
      - apply list_elem_of_here. }
    rewrite fmap_cons. cbn [fold_memo].
    destruct (IH (pre ++ [r]) (<[row_loc r := length h + S (length pre)]> m))
      as [m' IH'].
    + intros l [x Hx]. rewrite fmap_app. rewrite elem_of_app.
      destruct (decide (l = row_loc r)) as [->|Hne].
      * right. right. cbn. apply list_elem_of_here.
      * rewrite lookup_insert_ne in Hx by done.
        destruct (Hm l) as [?|?]; [by eexists|by left|right; by left].
    + by rewrite <- app_assoc.
    + by rewrite <- app_assoc.
    + done.
    + exists m'. rewrite <- app_assoc in IH'. cbn [app] in IH'.
      rewrite <- IH'. clear IH IH'.
      erewrite bind_ok; last first.
      { unfold copy_item. cbn [row_item fst snd].
        erewrite bind_ok; last first.
        { apply deepcopy_list; [done|]. by apply frame_old. }
        cbv beta. cbn [fst snd].
        erewrite bind_ok; last first.
        { eapply setitem_at; [|reflexivity].
          rewrite <- app_assoc. cbn [app]. apply frame_lookup. }
        reflexivity. }
      cbv beta. f_equal.
      * f_equal. rewrite length_app. cbn [length]. unfold row_lists.
        rewrite length_fmap. done.
      * rewrite <- app_assoc. cbn [app]. rewrite frame_insert.
        rewrite dict_set_fresh by done.
        unfold row_lists.
        rewrite copied_rows_snoc, !fmap_app, length_app. cbn [length].
        rewrite length_fmap. done.
Qed.

Lemma deepcopy_table rows :
  table_at h t rows →
  ∃ m',
    deepcopy_rec (S (S (S d))) (VRef t) ∅ C h
    = Ok (VRef (length h), m')
         (h ++ ODict (row_item <$> copied_rows (length h) rows)
            :: row_lists rows).
Proof.
  intros ((size & items & Ht & Horder) & Hrows & Hkeys & Hlocs).
  destruct (deepcopy_rows rows [] (<[t := length h]> ∅)) as [m' Hm'].
  - intros l [x Hx]. destruct (decide (l = t)) as [->|Hne]; [by left|].
    by rewrite lookup_insert_ne, lookup_empty in Hx.
  - done.
  - done.
  - eapply Forall_impl; [exact Hrows|]. intros r Hr. cbv beta in Hr.
    split; [done|]. intros Heq. rewrite Heq in Hr. congruence.
  - exists m'. cbn [deepcopy_rec]. rewrite lookup_empty.
    erewrite bind_ok by (apply deref_at, Ht). cbv beta iota.
    erewrite bind_ok by reflexivity. cbv beta iota.
    rewrite Horder.
    cbn [app] in Hm'. erewrite bind_ok by exact Hm'. reflexivity.
Qed.

End deepcopy_table.

Lemma table_at_frame (h0 : heap) X t rows :
  table_at h0 t rows → table_at (h0 ++ X) t rows.
Proof.
  intros ((size & items & Ht & Horder) & Hrows & Hkeys & Hlocs).
  repeat split; try done.
  - exists size, items. split; [by apply frame_old|done].
  - eapply Forall_impl; [exact Hrows|]. intros r Hr. by apply frame_old.
Qed.

Lemma deepcopy_frame C (h0 : heap) i T t rows :
  table_at h0 t rows →
  deepcopy (VRef t) C (h0 ++ i :: T)
  = Ok (VRef (length h0 + S (length T)))
       (h0 ++ i :: (T ++ ODict (row_item <$>
                                  copied_rows (length h0 + S (length T)) rows)
                         :: ((λ r, OList (strs (row_labels r))) <$> rows))).
Proof.
  intros Ht. unfold deepcopy. change recursion_limit with (S (S (S 997))).
  destruct (deepcopy_table C (h0 ++ i :: T) t 997 rows) as [m' Hm'].
  { by apply table_at_frame. }
  erewrite bind_ok by exact Hm'. cbv beta. cbn [fst].
  rewrite length_app, <- app_assoc. done.
Qed.

(** ** The loop that builds the reverse index *)

Section index_loop.
Context (C : classes) (s : loc) (c : string) (d : gmap string value).
Context (m : loc).
Hypothesis Hmapping : d !! "proxy_type_mapping" = Some (VRef m).
Hypothesis Hsm : s ≠ m.

Lemma index_labels tn k labels : ∀ acc (h : heap),
  h !! s = Some (OInst c d) →
  h !! m = Some (ODict acc) →
  for_each (strs labels) (λ measure,
    mm ← getattr (VRef s) "proxy_type_mapping";
    setitem mm (VTuple [VStr tn; measure]) (VStr k)) C h
  = Ok tt (<[m := ODict (foldl (λ d label,
                                  dict_set (KPair tn label) (VStr k) d)
                               acc labels)]> h).
Proof.
  unfold strs.
  induction labels as [|lab labels IH]; intros acc h Hs Hm.
  - cbn [fmap list_fmap for_each foldl]. by rewrite list_insert_id.
  - rewrite fmap_cons. cbn [for_each foldl].
    erewrite bind_ok; last first.
    { erewrite bind_ok by (eapply getattr_at; eassumption).
      eapply setitem_at; [exact Hm | reflexivity]. }
    cbv beta. rewrite (IH (dict_set (KPair tn lab) (VStr k) acc)).
    + by rewrite list_insert_insert_eq.
    + by rewrite list_lookup_insert_ne.
    + apply list_lookup_insert_eq. by eapply lookup_lt_Some.
Qed.

Lemma index_rows rows : ∀ acc (h : heap),
  h !! s = Some (OInst c d) →
  h !! m = Some (ODict acc) →
  Forall (λ r, h !! row_loc r = Some (OList (strs (row_labels r)))
               ∧ row_loc r ≠ m) rows →
  for_each (row_item <$> rows) (λ item,
    let ptype := of_key item.1 in
    let measurements := item.2 in
    type_name ← split_head "_" ptype;
    ms ← iterate measurements;
    for_each ms (λ measure,
      mm ← getattr (VRef s) "proxy_type_mapping";
      setitem mm (VTuple [type_name; measure]) ptype)) C h
  = Ok tt (<[m := ODict (foldl index_row acc (display_of rows))]> h).
Proof.
  induction rows as [|r rows IH]; intros acc h Hs Hm Hrows.
  - cbn [fmap list_fmap for_each foldl display_of].
    by rewrite list_insert_id.
  - apply Forall_cons in Hrows as [[Hr Hrm] Hrows].
    unfold display_of. rewrite !fmap_cons. cbn [for_each foldl].
    erewrite bind_ok; last first.
    { cbv zeta. cbn [row_item fst snd of_key].
      erewrite bind_ok by reflexivity. cbv beta.
      erewrite bind_ok; last first.
      { unfold iterate. erewrite bind_ok by (apply deref_at, Hr).
        reflexivity. }
      cbv beta. by apply index_labels. }
    cbv beta. fold (display_of rows).
    rewrite (IH (index_row acc (row_key r, row_labels r))).
    + by rewrite list_insert_insert_eq.
    + by rewrite list_lookup_insert_ne.
    + apply list_lookup_insert_eq. by eapply lookup_lt_Some.
    + eapply Forall_impl; [exact Hrows|]. intros r' [Hr' Hne].
      split; [|done]. by rewrite list_lookup_insert_ne.
Qed.

End index_loop.

Lemma frame_keep (h0 : heap) i i' T X l o :
  l ≠ length h0 →
  (h0 ++ i :: T) !! l = Some o → (h0 ++ i' :: (T ++ X)) !! l = Some o.
Proof.
  intros Hne Hl.
  destruct (decide (l < length h0)) as [Hlt|Hge].
  - rewrite lookup_app_l in Hl |- * by done. done.
  - rewrite lookup_app_r in Hl |- * by lia.
    destruct (l - length h0) as [|k] eqn:E; [lia|].
    cbn [lookup list_lookup] in Hl |- *. by apply lookup_app_l_Some.
Qed.

Lemma frame_snoc_insert (h0 : heap) i T o o' :
  <[length h0 + S (length T) := o']> (h0 ++ i :: (T ++ [o]))
  = h0 ++ i :: (T ++ [o']).
Proof.
  rewrite frame_tail_insert. do 2 f_equal.
  rewrite insert_app_r_alt by lia. by rewrite Nat.sub_diag.
Qed.

Lemma build_run C (h0 : heap) c d T tl rows :
  d !! "proxy_assim2" = Some (VRef tl) →
  (h0 ++ OInst c d :: T) !! tl = Some (ODict (row_item <$> rows)) →
  Forall (λ r, (h0 ++ OInst c d :: T) !! row_loc r
               = Some (OList (strs (row_labels r)))) rows →
  build_proxy_type_mapping (VRef (length h0)) C (h0 ++ OInst c d :: T)
  = Ok tt
      (h0 ++ OInst c (<["proxy_type_mapping" :=
                          VRef (length h0 + S (length T))]> d)
          :: (T ++ [ODict (reverse_index (walk (display_of rows)))])).
Proof.
  intros Hd Htl Hrows. unfold build_proxy_type_mapping.
  assert (Horder : dict_order 8 (row_item <$> rows)
                   = row_item <$> order_by (λ r, hash_key (KStr (row_key r)))
                                           8 rows)
    by (by apply order_by_fmap).
  assert (Hwalk : walk (display_of rows)
                  = display_of (order_by (λ r, hash_key (KStr (row_key r)))
                                         8 rows))
    by (by apply order_by_fmap).
  pose proof (proj1 (Forall_forall _ _) Hrows) as Hall.
  rewrite bind_assoc.
  erewrite bind_ok by (unfold new_dict; cbn [foldl]; apply alloc_frame).
  cbv beta. erewrite bind_ok by apply setattr_self. cbv beta.
  erewrite bind_ok; last first.
  { apply getattr_inst. rewrite lookup_insert_ne by done. exact Hd. }
  cbv beta.
  erewrite bind_ok; last first.
  { unfold iteritems. erewrite bind_ok; last first.
    { apply deref_at. eapply frame_keep; [|exact Htl].
      intros ->. by rewrite frame_lookup in Htl. }
    reflexivity. }
  cbv beta. rewrite Horder, Hwalk.
  erewrite index_rows with (m := length h0 + S (length T)) (acc := []).
  - by rewrite frame_snoc_insert.
  - apply lookup_insert_eq.
  - lia.
  - apply frame_lookup.
  - rewrite frame_tail. apply list_lookup_middle. done.
  - apply Forall_forall. intros r Hin.
    apply elem_of_order_by, Hall in Hin. rename Hin into Hr.
    split.
    + eapply frame_keep; [|exact Hr]. intros E.
      by rewrite E, frame_lookup in Hr.
    + apply lookup_lt_Some in Hr. rewrite length_app in Hr.
      cbn [length] in Hr. lia.
Qed.

(** ** The proxy groups *)

Lemma copied_rows_lookup (X : heap) D Y rows :
  Forall (λ r, (X ++ D :: (((λ r, OList (strs (row_labels r))) <$> rows) ++ Y))
                 !! row_loc r
               = Some (OList (strs (row_labels r))))
         (copied_rows (length X) rows).
Proof.
  apply Forall_lookup. intros i r Hi.
  unfold copied_rows in Hi. rewrite list_lookup_imap in Hi.
  destruct (rows !! i) as [r0|] eqn:E; [|done].
  cbn in Hi. injection Hi as <-. cbn [row_loc row_labels].
  rewrite lookup_app_r by lia.
  replace (length X + S i - length X) with (S i) by lia.
  cbn [lookup list_lookup]. apply lookup_app_l_Some.
  by rewrite list_lookup_fmap, E.
Qed.

Lemma copied_rows_frame (h0 : heap) i A D Y rows b :
  b = length h0 + S (length A) →
  Forall (λ r, (h0 ++ i :: (A ++ D
                  :: (((λ r, OList (strs (row_labels r))) <$> rows) ++ Y)))
                 !! row_loc r
               = Some (OList (strs (row_labels r))))
         (copied_rows b rows).
Proof.
  intros ->.
  replace (length h0 + S (length A)) with (length (h0 ++ i :: A))
    by (rewrite length_app; done).
  pose proof (copied_rows_lookup (h0 ++ i :: A) D Y rows) as H.
  by rewrite <- app_assoc in H.
Qed.

Lemma new_dict1 k1 v1 C (h0 : heap) i T :
  new_dict [(k1, v1)] C (h0 ++ i :: T)
  = Ok (VRef (length h0 + S (length T))) (h0 ++ i :: (T ++ [ODict [(k1, v1)]])).
Proof. unfold new_dict. cbn [fold_left dict_set fst snd]. apply alloc_frame. Qed.

Lemma new_dict2 k1 v1 k2 v2 C (h0 : heap) i T :
  k1 ≠ k2 →
  new_dict [(k1, v1); (k2, v2)] C (h0 ++ i :: T)
  = Ok (VRef (length h0 + S (length T)))
       (h0 ++ i :: (T ++ [ODict [(k1, v1); (k2, v2)]])).
Proof.
  intros Hne. unfold new_dict. cbn [fold_left dict_set fst snd].
  rewrite decide_False by done. apply alloc_frame.
Qed.

Ltac prim2 :=
  first
  [ apply new_dict1
  | apply new_dict2; discriminate
  | apply deepcopy_frame; eassumption
  | prim ].

Ltac step2 :=
  rewrite ?bind_assoc; erewrite bind_ok; [ | prim2];
  cbv beta; cbn [app length].

Lemma datadir_block C (h0 : heap) c d T dd root :
  d !! "datadir_proxy" = None →
  class_attr C c "datadir_proxy" = Some (opt_str dd) →
  class_attr C "core" "lmr_path" = Some (VStr root) →
  (x ← getattr (VRef (length h0)) "datadir_proxy";
   if is_none x
   then root ← getattr (VClass "core") "lmr_path";
        p ← join root [VStr "data"; VStr "proxies"];
        setattr (VRef (length h0)) "datadir_proxy" p
   else copy_attr (VRef (length h0)) "datadir_proxy") C
    (h0 ++ OInst c d :: T)
  = Ok tt (h0 ++ OInst c
             (<["datadir_proxy" :=
                  VStr match dd with
                       | Some x => x
                       | None => Posixpath.join root ["data"; "proxies"]
                       end]> d) :: T).
Proof.
  intros Hd Hc Hroot.
  erewrite bind_ok by (by apply getattr_cls). cbv beta.
  destruct dd as [dd|]; cbn [opt_str is_none] in *.
  - by apply copy_attr_cls.
  - erewrite bind_ok by (by apply getattr_class).
    erewrite bind_ok by apply join2. apply setattr_self.
Qed.

Lemma pages_exec C h co p :
  core.view C co → proxies._pages.view C h p →
  instantiate (VClass "proxies._pages") proxies._pages.__init__ [] C h
  = Ok (VRef (length h))
       (h ++ OInst "proxies._pages"
               (proxies._pages.resolved (core.lmr_path co) (length h) p)
          :: proxies._pages.allocated (length h) p).
Proof.
  destruct co, p as [dd df mf fmt rg rgi res kind po poi pa rows bl bli].
  unfold core.view, core.attrs, proxies._pages.view, proxies._pages.attrs.
  cbn [core.nexp core.lmr_path core.online_reconstruction core.clean_start
         core.use_precalc_ye core.recon_period core.nens core.seed
         core.loc_rad core.datadir_output core.archive_dir
         proxies._pages.datadir_proxy proxies._pages.datafile_proxy
         proxies._pages.metafile_proxy proxies._pages.dataformat_proxy
         proxies._pages.regions proxies._pages.regions_items
         proxies._pages.proxy_resolution proxies._pages.proxy_timeseries_kind
         proxies._pages.proxy_order proxies._pages.proxy_order_items
         proxies._pages.proxy_assim2 proxies._pages.rows
         proxies._pages.proxy_blacklist proxies._pages.proxy_blacklist_items].
  intros Hco (Hv & Hrg & Hpo & Hpa & Hbl). open_attrs.
  apply instantiate_run.
  unfold proxies._pages.__init__, proxies._pages.resolved,
    proxies._pages.allocated, proxies._pages.dir, namespace.
  cbn [proxies._pages.datadir_proxy proxies._pages.datafile_proxy
         proxies._pages.metafile_proxy proxies._pages.dataformat_proxy
         proxies._pages.regions proxies._pages.regions_items
         proxies._pages.proxy_resolution proxies._pages.proxy_timeseries_kind
         proxies._pages.proxy_order proxies._pages.proxy_order_items
         proxies._pages.proxy_assim2 proxies._pages.rows
         proxies._pages.proxy_blacklist proxies._pages.proxy_blacklist_items
         foldl fst snd].
  cbv zeta.
  step2.
  erewrite bind_ok by (apply datadir_block; [reflexivity | eassumption ..]).
  cbv beta.
  do 8 step2.
  do 3 step2.
  do 2 step2.
  do 3 step2.
  do 3 step2.
  do 3 step2.
  step2.
  erewrite bind_ok; last first.
  { apply build_run with (tl := length h + 3)
      (rows := copied_rows (length h + 3) rows).
    - reflexivity.
    - rewrite frame_tail. reflexivity.
    - apply (copied_rows_frame h _ [OList rgi; OList poi] _ [OList bli]).
      done. }
  cbv beta; cbn [app length].
  step2. step2. step2.
  erewrite setattr_self.
  rewrite copied_rows_display, !length_app, !length_fmap, <- !app_assoc.
  cbn [app length].
  repeat (f_equal; try lia).
Qed.

Lemma ncdc_exec C h co p :
  core.view C co → proxies._ncdc.view C h p →
  instantiate (VClass "proxies._ncdc") proxies._ncdc.__init__ [] C h
  = Ok (VRef (length h))
       (h ++ OInst "proxies._ncdc"
               (proxies._ncdc.resolved (core.lmr_path co) (length h) p)
          :: proxies._ncdc.allocated (length h) p).
Proof.
  destruct co,
    p as [ver dd df mf fmt rg rgi res kind fl fli po poi pa rows bl bli].
  unfold core.view, core.attrs, proxies._ncdc.view, proxies._ncdc.attrs.
  cbn [core.nexp core.lmr_path core.online_reconstruction core.clean_start
         core.use_precalc_ye core.recon_period core.nens core.seed
         core.loc_rad core.datadir_output core.archive_dir
         proxies._ncdc.dbversion
         proxies._ncdc.datadir_proxy proxies._ncdc.datafile_proxy
         proxies._ncdc.metafile_proxy proxies._ncdc.dataformat_proxy
         proxies._ncdc.regions proxies._ncdc.regions_items
         proxies._ncdc.proxy_resolution proxies._ncdc.proxy_timeseries_kind
         proxies._ncdc.database_filter proxies._ncdc.database_filter_items
         proxies._ncdc.proxy_order proxies._ncdc.proxy_order_items
         proxies._ncdc.proxy_assim2 proxies._ncdc.rows
         proxies._ncdc.proxy_blacklist proxies._ncdc.proxy_blacklist_items].
  intros Hco (Hv & Hrg & Hfl & Hpo & Hpa & Hbl). open_attrs.
  apply instantiate_run.
  unfold proxies._ncdc.__init__, proxies._ncdc.resolved,
    proxies._ncdc.allocated, proxies._ncdc.dir, namespace.
  cbn [proxies._ncdc.dbversion
         proxies._ncdc.datadir_proxy proxies._ncdc.datafile_proxy
         proxies._ncdc.metafile_proxy proxies._ncdc.dataformat_proxy
         proxies._ncdc.regions proxies._ncdc.regions_items
         proxies._ncdc.proxy_resolution proxies._ncdc.proxy_timeseries_kind
         proxies._ncdc.database_filter proxies._ncdc.database_filter_items
         proxies._ncdc.proxy_order proxies._ncdc.proxy_order_items
         proxies._ncdc.proxy_assim2 proxies._ncdc.rows
         proxies._ncdc.proxy_blacklist proxies._ncdc.proxy_blacklist_items
         foldl fst snd].
  cbv zeta.
  step2.
  erewrite bind_ok by (apply datadir_block; [reflexivity | eassumption ..]).
  cbv beta.
  do 26 step2.
  rewrite <- !app_assoc. cbn [app].
  erewrite bind_ok; last first.
  { apply build_run with (tl := length h + 3)
      (rows := copied_rows (length h + 3) rows).
    - reflexivity.
    - rewrite frame_tail. reflexivity.
    - apply (copied_rows_frame h _ [OList rgi; OList poi] _
               [OList fli; OList bli]).
      done. }
  cbv beta; cbn [app length].
  step2. step2.
  erewrite setattr_self.
  rewrite copied_rows_display, !length_app, !length_fmap, <- !app_assoc.
  cbn [app length].
  repeat (f_equal; try lia).
Qed.

(** ** The groups that hold sub-groups *)

Lemma pages_view_frame C (h : heap) X p :
  proxies._pages.view C h p → proxies._pages.view C (h ++ X) p.
Proof.
  intros (Hv & Hrg & Hpo & Hpa & Hbl).
  split; [done|]. split; [by apply frame_old|].
  split; [by apply frame_old|]. split; [by apply table_at_frame|].
  by apply frame_old.
Qed.

Lemma ncdc_view_frame C (h : heap) X p :
  proxies._ncdc.view C h p → proxies._ncdc.view C (h ++ X) p.
Proof.
  intros (Hv & Hrg & Hfl & Hpo & Hpa & Hbl).
  split; [done|]. split; [by apply frame_old|].
  split; [by apply frame_old|]. split; [by apply frame_old|].
  split; [by apply table_at_frame|]. by apply frame_old.
Qed.

Lemma calib_context_frame C (h : heap) X root use_from dbversion :
  calib_context C h root use_from dbversion →
  calib_context C (h ++ X) root use_from dbversion.
Proof.
  intros (Hroot & (u & Hu & Hul) & Hncdc & Hver).
  repeat split; try done. exists u. split; [done|]. by apply frame_old.
Qed.

Lemma length_pages_allocated b p :
  length (proxies._pages.allocated b p)
  = 6 + length (proxies._pages.rows p).
Proof.
  unfold proxies._pages.allocated. cbv zeta.
  rewrite !length_app, length_fmap. cbn [length]. lia.
Qed.

Tactic Notation "step_by" tactic(tac) :=
  rewrite ?bind_assoc; erewrite bind_ok; [ | tac];
  cbv beta; rewrite <- ?app_assoc; cbn [app length].

Lemma proxies_exec C h co pp np p :
  core.view C co → proxies._pages.view C h pp → proxies._ncdc.view C h np →
  proxies.view C h p →
  instantiate (VClass "proxies") proxies.__init__ [] C h
  = Ok (VRef (length h))
       (h ++ OInst "proxies"
               (proxies.resolved (core.seed co) (length h) pp p)
          :: proxies.allocated (core.lmr_path co) (length h) pp np).
Proof.
  intros Hco Hpp Hnp [Hv Hu].
  destruct co, p as [uf ufi frac].
  pose proof Hco as Hco'.
  unfold core.view, core.attrs in Hco. unfold proxies.attrs in Hv.
  cbn [core.nexp core.lmr_path core.online_reconstruction core.clean_start
         core.use_precalc_ye core.recon_period core.nens core.seed
         core.loc_rad core.datadir_output core.archive_dir
         proxies.use_from proxies.use_from_items proxies.proxy_frac] in *.
  open_attrs.
  apply instantiate_run.
  unfold proxies.__init__, proxies.resolved, proxies.allocated, namespace.
  cbn [proxies.use_from proxies.use_from_items proxies.proxy_frac
         foldl fst snd].
  cbv zeta.
  do 5 step2.
  step_by (eapply pages_exec; [exact Hco'|]; apply pages_view_frame, Hpp).
  step2. step2.
  step_by (eapply ncdc_exec; [exact Hco'|]; apply ncdc_view_frame, Hnp).
  erewrite setattr_self.
  rewrite !length_app. cbn [length]. rewrite length_pages_allocated.
  cbn [core.lmr_path].
  repeat (f_equal; try lia).
Qed.

Lemma psm_exec C h root use_from dbversion lp tp bp hp p :
  calib_context C h root use_from dbversion →
  psm._linear.view C lp → psm._linear_TorP.view C tp →
  psm._bilinear.view C bp → psm._h_interp.view C hp →
  psm.view C p →
  instantiate (VClass "psm") psm.__init__ [] C h
  = Ok (VRef (length h))
       (h ++ OInst "psm" (psm.resolved (length h) p)
          :: psm.allocated root use_from dbversion lp tp bp hp).
Proof.
  intros Hctx Hlp Htp Hbp Hhp Hv.
  destruct p as [up]. unfold psm.view, psm.attrs in Hv.
  cbn [psm.use_psm] in Hv. open_attrs.
  apply instantiate_run.
  unfold psm.__init__, psm.resolved, psm.allocated, namespace.
  cbn [psm.use_psm foldl fst snd].
  do 2 step2.
  step_by (eapply linear_exec; [|exact Hlp]; apply calib_context_frame, Hctx).
  do 2 step2.
  step_by (eapply linear_TorP_exec; [|exact Htp]; apply calib_context_frame, Hctx).
  do 2 step2.
  step_by (eapply bilinear_exec; [|exact Hbp]; apply calib_context_frame, Hctx).
  do 2 step2.
  step_by (eapply h_interp_exec; exact Hhp).
  erewrite setattr_self.
  rewrite !length_app. cbn [length].
  repeat (f_equal; try lia).
Qed.

(** * The module as shipped holds its parameters *)

Ltac conjuncts := repeat match goal with |- _ ∧ _ => split end.

Ltac solve_forall :=
  repeat (apply Forall_cons; split; [vm_compute; reflexivity|]);
  apply Forall_nil_2.

Ltac solve_table :=
  split;
  [ match goal with
    | |- context [?h !! ?t] =>
        let o := eval vm_compute in (h !! t) in
        match o with
        | Some (OTable ?size ?items) =>
            exists size, items; split; vm_compute; reflexivity
        end
    end |];
  split;
  [ match goal with
    | |- Forall _ ?l =>
        let l' := eval vm_compute in l in
        replace l with l' by (vm_compute; reflexivity); solve_forall
    end |];
  split; compute_done.

Ltac solve_typed :=
  unfold typed;
  cbn [wrapper_p core_p pages_p ncdc_p proxies_p linear_p linear_TorP_p
         bilinear_p h_interp_p psm_p prior_p];
  unfold wrapper.view, core.view, proxies._pages.view, proxies._ncdc.view,
    proxies.view, psm._linear.view, psm._linear_TorP.view,
    psm._bilinear.view, psm._h_interp.view, psm.view, prior.view, has_attrs;
  split; [solve_forall|];
  split; [solve_forall|];
  split;
  [ split; [solve_forall|]; split; [vm_compute; reflexivity|];
    split; [vm_compute; reflexivity|]; split; [solve_table|];
    vm_compute; reflexivity |];
  split;
  [ split; [solve_forall|]; split; [vm_compute; reflexivity|];
    split; [vm_compute; reflexivity|]; split; [vm_compute; reflexivity|];
    split; [solve_table|]; vm_compute; reflexivity |];
  split; [split; [solve_forall | vm_compute; reflexivity]|];
  split; [solve_forall|];
  split; [solve_forall|];
  split; [solve_forall|];
  split; [solve_forall|];
  split; [solve_forall|];
  split; [solve_forall | vm_compute; reflexivity].

Lemma shipped_typed : typed shipped_classes shipped_heap shipped_params.
Proof. unfold shipped_params. solve_typed. Qed.

Lemma explicit_pages_typed :
  typed explicit_pages_classes shipped_heap explicit_pages_params.
Proof.
  unfold explicit_pages_params, with_pages, shipped_params. solve_typed.
Qed.

Lemma typed_context C h P :
  typed C h P →
  calib_context C h (core.lmr_path (core_p P))
    (proxies.use_from_items (proxies_p P))
    (proxies._ncdc.dbversion (ncdc_p P)).
Proof.
  intros (_ & Hco & _ & Hnc & [Hpx Hu] & _).
  destruct Hnc as [Hnc _].
  unfold core.view, core.attrs, proxies._ncdc.attrs, proxies.attrs in *.
  open_attrs. repeat split; try done. by eexists.
Qed.

(** * The claims *)

(** ** Derived names of the calibration files *)

Lemma psm_file_spec use_from dbversion tag :
  psm_file use_from dbversion tag
  = calib_filename use_from (selected_version use_from dbversion) [tag].
Proof.
  unfold psm_file, calib_filename, selected_version. cbv zeta.
  destruct (String.eqb (Str.join "-" use_from) "NCDC");
    rewrite !append_assoc; reflexivity.
Qed.

Lemma psm_file2_spec use_from dbversion tag_t tag_p :
  psm_file2 use_from dbversion tag_t tag_p
  = calib_filename use_from (selected_version use_from dbversion)
      [tag_t; tag_p].
Proof.
  unfold psm_file2, calib_filename, selected_version, Str.join. cbv zeta.
  cbn [String.concat].
  destruct (String.eqb (String.concat "-" use_from) "NCDC");
    rewrite !append_assoc; reflexivity.
Qed.

(** C3: with [pre_calib_datafile] unset, the proxy sources ['NCDC'], the
    database version ['v0.1.0'] and the calibration tag ['GISTEMP'], the
    single-variable calibration group resolves [pre_calib_datafile] to the
    root path joined with ['PSM'] and the file name
    ['PSMs_NCDC_v0.1.0_GISTEMP.pckl']. *)
Theorem linear_pre_calib_datafile_ncdc C h root p :
  calib_context C h root ["NCDC"] "v0.1.0" →
  psm._linear.view C p →
  psm._linear.pre_calib_datafile p = None →
  psm._linear.datatag_calib p = "GISTEMP" →
  ∃ h',
    instantiate (VClass "psm._linear") psm._linear.__init__ [] C h
    = Ok (VRef (length h)) h' ∧
    getattr (VRef (length h)) "pre_calib_datafile" C h'
    = Ok (VStr (Posixpath.join root ["PSM"; "PSMs_NCDC_v0.1.0_GISTEMP.pckl"]))
         h'.
Proof.
  intros Hctx Hv Hpc Htag. eexists. split.
  - by apply linear_exec.
  - apply (getattr_inst h _ _ []).
    unfold psm._linear.resolved, namespace. cbn [foldl fst snd].
    rewrite Hpc, Htag. reflexivity.
Qed.

Lemma linear_pre_calib_datafile_ncdc_witness :
  ∃ h',
    instantiate (VClass "psm._linear") psm._linear.__init__ []
      shipped_classes shipped_heap
    = Ok (VRef (length shipped_heap)) h' ∧
    getattr (VRef (length shipped_heap)) "pre_calib_datafile"
      shipped_classes h'
    = Ok (VStr "/home/disk/kalman3/rtardif/LMR/PSM/PSMs_NCDC_v0.1.0_GISTEMP.pckl")
         h'.
Proof.
  apply (linear_pre_calib_datafile_ncdc shipped_classes shipped_heap
           "/home/disk/kalman3/rtardif/LMR" psm._linear.shipped).
  - apply (typed_context _ _ shipped_params), shipped_typed.
  - apply shipped_typed.
  - reflexivity.
  - reflexivity.
Defined.

(** C7: each of the four calibration variants, when its own
    pre-calibration file is unset, resolves it to the root path joined with
    ['PSM'] and a file name in one and the same join order: ['PSMs'], the
    proxy source names joined by ['-'], the version of the selected source
    if there is one, the calibration tag (for the bivariate variant the two
    tags joined by ['_']), and the extension ['.pckl'].  Each variant
    depends on its own field only: the temperature file of the
    dual-variable group is derived whether or not the precipitation file is
    explicit, and the other way round. *)
Theorem calibration_filenames C h root use_from dbversion :
  calib_context C h root use_from dbversion →
  let name tags :=
    VStr (Posixpath.join root
            ["PSM"; calib_filename use_from
                      (selected_version use_from dbversion) tags]) in
  (∀ p, psm._linear.view C p →
        psm._linear.pre_calib_datafile p = None →
        ∃ h',
          instantiate (VClass "psm._linear") psm._linear.__init__ [] C h
          = Ok (VRef (length h)) h' ∧
          getattr (VRef (length h)) "pre_calib_datafile" C h'
          = Ok (name [psm._linear.datatag_calib p]) h') ∧
  (∀ p, psm._linear_TorP.view C p →
        psm._linear_TorP.pre_calib_datafile_T p = None →
        ∃ h',
          instantiate (VClass "psm._linear_TorP") psm._linear_TorP.__init__
            [] C h
          = Ok (VRef (length h)) h' ∧
          getattr (VRef (length h)) "pre_calib_datafile_T" C h'
          = Ok (name [psm._linear_TorP.datatag_calib_T p]) h') ∧
  (∀ p, psm._linear_TorP.view C p →
        psm._linear_TorP.pre_calib_datafile_P p = None →
        ∃ h',
          instantiate (VClass "psm._linear_TorP") psm._linear_TorP.__init__
            [] C h
          = Ok (VRef (length h)) h' ∧
          getattr (VRef (length h)) "pre_calib_datafile_P" C h'
          = Ok (name [psm._linear_TorP.datatag_calib_P p]) h') ∧
  (∀ p, psm._bilinear.view C p →
        psm._bilinear.pre_calib_datafile p = None →
        ∃ h',
          instantiate (VClass "psm._bilinear") psm._bilinear.__init__ [] C h
          = Ok (VRef (length h)) h' ∧
          getattr (VRef (length h)) "pre_calib_datafile" C h'
          = Ok (name [psm._bilinear.datatag_calib_T p;
                      psm._bilinear.datatag_calib_P p]) h').
Proof.
  intros Hctx name. subst name. cbv beta.
  split; [|split; [|split]].
  - intros p Hv Hnone. eexists. split; [by apply linear_exec|].
    apply (getattr_inst h _ _ []).
    unfold psm._linear.resolved, namespace. cbn [foldl fst snd].
    rewrite Hnone, psm_file_spec. reflexivity.
  - intros p Hv Hnone. eexists. split; [by apply linear_TorP_exec|].
    apply (getattr_inst h _ _ []).
    unfold psm._linear_TorP.resolved, namespace. cbn [foldl fst snd].
    rewrite Hnone, !psm_file_spec. reflexivity.
  - intros p Hv Hnone. eexists. split; [by apply linear_TorP_exec|].
    apply (getattr_inst h _ _ []).
    unfold psm._linear_TorP.resolved, namespace. cbn [foldl fst snd].
    rewrite Hnone, !psm_file_spec. reflexivity.
  - intros p Hv Hnone. eexists. split; [by apply bilinear_exec|].
    apply (getattr_inst h _ _ []).
    unfold psm._bilinear.resolved, namespace. cbn [foldl fst snd].
    rewrite Hnone, psm_file2_spec. reflexivity.
Qed.

Lemma calibration_filenames_witness :
  (∃ h',
     instantiate (VClass "psm._linear") psm._linear.__init__ []
       shipped_classes shipped_heap = Ok (VRef 51) h' ∧
     getattr (VRef 51) "pre_calib_datafile" shipped_classes h'
     = Ok (VStr "/home/disk/kalman3/rtardif/LMR/PSM/PSMs_NCDC_v0.1.0_GISTEMP.pckl") h') ∧
  (∃ h',
     instantiate (VClass "psm._linear_TorP") psm._linear_TorP.__init__ []
       shipped_classes shipped_heap = Ok (VRef 51) h' ∧
     getattr (VRef 51) "pre_calib_datafile_T" shipped_classes h'
     = Ok (VStr "/home/disk/kalman3/rtardif/LMR/PSM/PSMs_NCDC_v0.1.0_GISTEMP.pckl") h') ∧
  (∃ h',
     instantiate (VClass "psm._linear_TorP") psm._linear_TorP.__init__ []
       shipped_classes shipped_heap = Ok (VRef 51) h' ∧
     getattr (VRef 51) "pre_calib_datafile_P" shipped_classes h'
     = Ok (VStr "/home/disk/kalman3/rtardif/LMR/PSM/PSMs_NCDC_v0.1.0_GPCC.pckl") h') ∧
  (∃ h',
     instantiate (VClass "psm._bilinear") psm._bilinear.__init__ []
       shipped_classes shipped_heap = Ok (VRef 51) h' ∧
     getattr (VRef 51) "pre_calib_datafile" shipped_classes h'
     = Ok (VStr "/home/disk/kalman3/rtardif/LMR/PSM/PSMs_NCDC_v0.1.0_GISTEMP_DaiPDSI.pckl") h').
Proof.
  destruct (calibration_filenames shipped_classes shipped_heap
              "/home/disk/kalman3/rtardif/LMR" ["NCDC"] "v0.1.0")
    as (Hl & HT & HP & Hb).
  { apply (typed_context _ _ shipped_params), shipped_typed. }
  split; [|split; [|split]].
  - apply (Hl psm._linear.shipped); [apply shipped_typed|reflexivity].
  - apply (HT psm._linear_TorP.shipped); [apply shipped_typed|reflexivity].
  - apply (HP psm._linear_TorP.shipped); [apply shipped_typed|reflexivity].
  - apply (Hb psm._bilinear.shipped); [apply shipped_typed|reflexivity].
Defined.

(** C9: resolved without a [curr_iter] argument, or with [curr_iter] null,
    the core group takes [curr_iter] from the first element of the
    [iter_range] of [wrapper]; resolved with a [curr_iter] that is not
    null, it takes that argument. *)
Theorem core_curr_iter C h p w x v :
  core.view C p → wrapper.view C w →
  wrapper.iter_range w !! 0 = Some x →
  is_none v = false →
  (∀ kw, kw = [] ∨ kw = [("curr_iter", VNone)] →
     ∃ h',
       instantiate (VClass "core") core.__init__ kw C h
       = Ok (VRef (length h)) h' ∧
       getattr (VRef (length h)) "curr_iter" C h' = Ok x h') ∧
  (∃ h',
     instantiate (VClass "core") core.__init__ [("curr_iter", v)] C h
     = Ok (VRef (length h)) h' ∧
     getattr (VRef (length h)) "curr_iter" C h' = Ok v h').
Proof.
  intros Hp Hw Hx Hv. split.
  - intros kw Hkw. eexists. split; [by eapply core_exec_default|].
    apply (getattr_inst h _ _ []). reflexivity.
  - eexists. split; [by eapply core_exec_given|].
    apply (getattr_inst h _ _ []). reflexivity.
Qed.

Lemma core_curr_iter_witness :
  (∀ kw, kw = [] ∨ kw = [("curr_iter", VNone)] →
     ∃ h',
       instantiate (VClass "core") core.__init__ kw
         shipped_classes shipped_heap = Ok (VRef 51) h' ∧
       getattr (VRef 51) "curr_iter" shipped_classes h' = Ok (VInt 0) h') ∧
  (∃ h',
     instantiate (VClass "core") core.__init__ [("curr_iter", VInt 7)]
       shipped_classes shipped_heap = Ok (VRef 51) h' ∧
     getattr (VRef 51) "curr_iter" shipped_classes h' = Ok (VInt 7) h').
Proof.
  apply (core_curr_iter shipped_classes shipped_heap core.shipped
           wrapper.shipped (VInt 0) (VInt 7)).
  - apply shipped_typed.
  - apply shipped_typed.
  - reflexivity.
  - reflexivity.
Defined.

(** ** The inherited field of the dual-variable group *)

Lemma inherited_attr C n k v :
  psm._linear_TorP.inherits C n →
  C !! "psm._linear" = Some k → cdict k !! n = Some v →
  class_attr C "psm._linear_TorP" n = Some v.
Proof.
  intros (kT & HkT & Hmro & Hn) Hk Hv.
  unfold class_attr. rewrite HkT. cbn [mbind option_bind]. rewrite Hmro.
  cbn [mro_lookup]. rewrite HkT. cbn [mbind option_bind]. rewrite Hn.
  rewrite Hk. cbn [mbind option_bind]. by rewrite Hv.
Qed.

(** C10: the resolver of the dual-variable calibration group never assigns
    the [pre_calib_datafile] that the group inherits from the
    single-variable group, so that on the resolved instance the field still
    reads as the null of the class, while [pre_calib_datafile_T] and
    [pre_calib_datafile_P] are resolved to derived paths. *)
Theorem linear_TorP_pre_calib_datafile_unset
  C h root use_from dbversion p k :
  calib_context C h root use_from dbversion →
  psm._linear_TorP.view C p →
  psm._linear_TorP.pre_calib_datafile_T p = None →
  psm._linear_TorP.pre_calib_datafile_P p = None →
  psm._linear_TorP.inherits C "pre_calib_datafile" →
  C !! "psm._linear" = Some k →
  cdict k !! "pre_calib_datafile" = Some VNone →
  ∃ h' d,
    instantiate (VClass "psm._linear_TorP") psm._linear_TorP.__init__ [] C h
    = Ok (VRef (length h)) h' ∧
    inst_dict h' (VRef (length h)) = Some d ∧
    d !! "pre_calib_datafile" = None ∧
    getattr (VRef (length h)) "pre_calib_datafile" C h' = Ok VNone h' ∧
    d !! "pre_calib_datafile_T"
    = Some (VStr (Posixpath.join root
                    ["PSM"; calib_filename use_from
                              (selected_version use_from dbversion)
                              [psm._linear_TorP.datatag_calib_T p]])) ∧
    d !! "pre_calib_datafile_P"
    = Some (VStr (Posixpath.join root
                    ["PSM"; calib_filename use_from
                              (selected_version use_from dbversion)
                              [psm._linear_TorP.datatag_calib_P p]])).
Proof.
  intros Hctx Hv HT HP Hinh Hk Hnone. do 2 eexists.
  split; [by apply linear_TorP_exec|].
  split; [unfold inst_dict; rewrite (frame_lookup h _ []); reflexivity|].
  split; [reflexivity|].
  split.
  - apply (getattr_cls h _ _ []); [reflexivity|]. by eapply inherited_attr.
  - unfold psm._linear_TorP.resolved, namespace. cbn [foldl fst snd].
    rewrite HT, HP, !psm_file_spec. split; reflexivity.
Qed.

Lemma linear_TorP_pre_calib_datafile_unset_witness :
  ∃ h' d,
    instantiate (VClass "psm._linear_TorP") psm._linear_TorP.__init__ []
      shipped_classes shipped_heap = Ok (VRef 51) h' ∧
    inst_dict h' (VRef 51) = Some d ∧
    d !! "pre_calib_datafile" = None ∧
    getattr (VRef 51) "pre_calib_datafile" shipped_classes h' = Ok VNone h' ∧
    d !! "pre_calib_datafile_T"
    = Some (VStr "/home/disk/kalman3/rtardif/LMR/PSM/PSMs_NCDC_v0.1.0_GISTEMP.pckl") ∧
    d !! "pre_calib_datafile_P"
    = Some (VStr "/home/disk/kalman3/rtardif/LMR/PSM/PSMs_NCDC_v0.1.0_GPCC.pckl").
Proof.
  apply (linear_TorP_pre_calib_datafile_unset shipped_classes shipped_heap
           "/home/disk/kalman3/rtardif/LMR" ["NCDC"] "v0.1.0"
           psm._linear_TorP.shipped
           (default (Class [] ∅) (shipped_classes !! "psm._linear"))).
  - apply (typed_context _ _ shipped_params), shipped_typed.
  - apply shipped_typed.
  - reflexivity.
  - reflexivity.
  - eexists. split; [vm_compute; reflexivity|]. split; reflexivity.
  - vm_compute; reflexivity.
  - vm_compute; reflexivity.
Defined.

(** ** Derived paths of the proxy groups *)

Lemma resolves_intro C (h : heap) cls init field d T x :
  instantiate (VClass cls) init [] C h
  = Ok (VRef (length h)) (h ++ OInst cls d :: T) →
  d !! field = Some x →
  resolves_to C h cls init field x.
Proof. intros E Hd. eexists. split; [exact E|]. by apply getattr_inst. Qed.


Ltac solve_pages_view :=
  unfold proxies._pages.view, has_attrs;
  split; [solve_forall|]; split; [vm_compute; reflexivity|];
  split; [vm_compute; reflexivity|]; split; [solve_table|];
  vm_compute; reflexivity.

Ltac solve_ncdc_view :=
  unfold proxies._ncdc.view, has_attrs;
  split; [solve_forall|]; split; [vm_compute; reflexivity|];
  split; [vm_compute; reflexivity|]; split; [vm_compute; reflexivity|];
  split; [solve_table|]; vm_compute; reflexivity.


(** ** Explicit paths *)

Lemma length_append (a b : string) :
  String.length (a +:+ b) = String.length a + String.length b.
Proof.
  induction a as [|x a IH]; [done|].
  rewrite append_cons. cbn [String.length]. by rewrite IH.
Qed.

Lemma append_same (a b : string) : a +:+ b = b → a = EmptyString.
Proof.
  intros E. apply (f_equal String.length) in E.
  rewrite length_append in E. destruct a; [done|].
  cbn [String.length] in E. lia.
Qed.

(** C6, as the code has it: an explicit value of a base directory
    ([datadir_proxy], [datadir_calib], [datadir_prior]), of a
    pre-calibration cache path ([pre_calib_datafile],
    [pre_calib_datafile_T], [pre_calib_datafile_P]) or of
    [datafile_obsError] is carried by the resolved instance as it is.  The
    data file and the metadata file of a proxy group are file names: the
    resolved value is always the resolved base directory joined with the
    name, which is the name itself exactly when the name is an absolute
    path or the base directory is the empty string. *)
Theorem explicit_paths C h P v :
  typed C h P →
  (proxies._pages.datadir_proxy (pages_p P) = Some v →
   resolves_to C h "proxies._pages" proxies._pages.__init__
     "datadir_proxy" (VStr v)) ∧
  (proxies._ncdc.datadir_proxy (ncdc_p P) = Some v →
   resolves_to C h "proxies._ncdc" proxies._ncdc.__init__
     "datadir_proxy" (VStr v)) ∧
  (psm._linear.datadir_calib (linear_p P) = Some v →
   resolves_to C h "psm._linear" psm._linear.__init__
     "datadir_calib" (VStr v)) ∧
  (psm._linear_TorP.datadir_calib (linear_TorP_p P) = Some v →
   resolves_to C h "psm._linear_TorP" psm._linear_TorP.__init__
     "datadir_calib" (VStr v)) ∧
  (psm._bilinear.datadir_calib (bilinear_p P) = Some v →
   resolves_to C h "psm._bilinear" psm._bilinear.__init__
     "datadir_calib" (VStr v)) ∧
  (prior.datadir_prior (prior_p P) = Some v →
   resolves_to C h "prior" prior.__init__ "datadir_prior" (VStr v)) ∧
  (psm._linear.pre_calib_datafile (linear_p P) = Some v →
   resolves_to C h "psm._linear" psm._linear.__init__
     "pre_calib_datafile" (VStr v)) ∧
  (psm._linear_TorP.pre_calib_datafile_T (linear_TorP_p P) = Some v →
   resolves_to C h "psm._linear_TorP" psm._linear_TorP.__init__
     "pre_calib_datafile_T" (VStr v)) ∧
  (psm._linear_TorP.pre_calib_datafile_P (linear_TorP_p P) = Some v →
   resolves_to C h "psm._linear_TorP" psm._linear_TorP.__init__
     "pre_calib_datafile_P" (VStr v)) ∧
  (psm._bilinear.pre_calib_datafile (bilinear_p P) = Some v →
   resolves_to C h "psm._bilinear" psm._bilinear.__init__
     "pre_calib_datafile" (VStr v)) ∧
  (psm._h_interp.datafile_obsError (h_interp_p P) = Some v →
   resolves_to C h "psm._h_interp" psm._h_interp.__init__
     "datafile_obsError" (VStr v)) ∧
  (∃ d,
     resolves_to C h "proxies._pages" proxies._pages.__init__
       "datadir_proxy" (VStr d) ∧
     resolves_to C h "proxies._pages" proxies._pages.__init__
       "datafile_proxy"
       (VStr (Posixpath.join d [proxies._pages.datafile_proxy (pages_p P)])) ∧
     resolves_to C h "proxies._pages" proxies._pages.__init__
       "metafile_proxy"
       (VStr (Posixpath.join d [proxies._pages.metafile_proxy (pages_p P)]))) ∧
  (∃ d,
     resolves_to C h "proxies._ncdc" proxies._ncdc.__init__
       "datadir_proxy" (VStr d) ∧
     resolves_to C h "proxies._ncdc" proxies._ncdc.__init__
       "datafile_proxy"
       (VStr (Posixpath.join d [proxies._ncdc.datafile_proxy (ncdc_p P)])) ∧
     resolves_to C h "proxies._ncdc" proxies._ncdc.__init__
       "metafile_proxy"
       (VStr (Posixpath.join d [proxies._ncdc.metafile_proxy (ncdc_p P)]))) ∧
  (∀ d f, Posixpath.join d [f] = f
          ↔ Str.startswith "/" f = true ∨ d = EmptyString).
Proof.
  intros HP. pose proof (typed_context C h P HP) as Hctx.
  destruct HP as (Hw & Hco & Hpp & Hnp & Hpx & Hlp & Htp & Hbp & Hhp & Hps
                    & Hpr).
  pose proof (pages_exec C h _ _ Hco Hpp) as Epp.
  pose proof (ncdc_exec C h _ _ Hco Hnp) as Enp.
  pose proof (linear_exec C h _ _ _ Hctx _ Hlp) as Elp.
  pose proof (linear_TorP_exec C h _ _ _ Hctx _ Htp) as Etp.
  pose proof (bilinear_exec C h _ _ _ Hctx _ Hbp) as Ebp.
  pose proof (h_interp_exec C h _ Hhp) as Ehp.
  pose proof (prior_exec C h _ _ Hco Hpr) as Epr.
  repeat match goal with |- _ ∧ _ => split end.
  - intros E. eapply resolves_intro; [exact Epp|].
    unfold proxies._pages.resolved, proxies._pages.dir, namespace.
    cbn [foldl fst snd]. rewrite E. reflexivity.
  - intros E. eapply resolves_intro; [exact Enp|].
    unfold proxies._ncdc.resolved, proxies._ncdc.dir, namespace.
    cbn [foldl fst snd]. rewrite E. reflexivity.
  - intros E. eapply resolves_intro; [exact Elp|].
    unfold psm._linear.resolved, namespace.
    cbn [foldl fst snd]. rewrite E. reflexivity.
  - intros E. eapply resolves_intro; [exact Etp|].
    unfold psm._linear_TorP.resolved, namespace.
    cbn [foldl fst snd]. rewrite E. reflexivity.
  - intros E. eapply resolves_intro; [exact Ebp|].
    unfold psm._bilinear.resolved, namespace.
    cbn [foldl fst snd]. rewrite E. reflexivity.
  - intros E. eapply resolves_intro; [exact Epr|].
    unfold prior.resolved, namespace.
    cbn [foldl fst snd]. rewrite E. reflexivity.
  - intros E. eapply resolves_intro; [exact Elp|].
    unfold psm._linear.resolved, namespace.
    cbn [foldl fst snd]. rewrite E. reflexivity.
  - intros E. eapply resolves_intro; [exact Etp|].
    unfold psm._linear_TorP.resolved, namespace.
    cbn [foldl fst snd]. rewrite E. reflexivity.
  - intros E. eapply resolves_intro; [exact Etp|].
    unfold psm._linear_TorP.resolved, namespace.
    cbn [foldl fst snd]. rewrite E. reflexivity.
  - intros E. eapply resolves_intro; [exact Ebp|].
    unfold psm._bilinear.resolved, namespace.
    cbn [foldl fst snd]. rewrite E. reflexivity.
  - intros E. eapply resolves_intro; [exact Ehp|].
    unfold psm._h_interp.resolved, namespace.
    cbn [foldl fst snd]. rewrite E. reflexivity.
  - eexists. repeat split; (eapply resolves_intro; [exact Epp|]);
      unfold proxies._pages.resolved, namespace; cbn [foldl fst snd];
      reflexivity.
  - eexists. repeat split; (eapply resolves_intro; [exact Enp|]);
      unfold proxies._ncdc.resolved, namespace; cbn [foldl fst snd];
      reflexivity.
  - intros d f. unfold Posixpath.join. cbn [fold_left].
    unfold Posixpath.join_step.
    destruct (Str.startswith "/" f) eqn:Hf; [by split; [left|]|].
    destruct (String.eqb d EmptyString || Str.endswith "/" d) eqn:E.
    + split; [intros H; right; by apply append_same in H|].
      by intros [?| ->].
    + split.
      * intros H. rewrite <- append_assoc in H. apply append_same in H.
        by destruct d.
      * intros [?| ->]; [done|]. by cbn in E.
Qed.

Lemma explicit_paths_witness :
  resolves_to explicit_pages_classes shipped_heap
    "proxies._pages" proxies._pages.__init__ "datadir_proxy" (VStr "/tmp/db").
Proof.
  apply (explicit_paths explicit_pages_classes shipped_heap
           explicit_pages_params "/tmp/db" explicit_pages_typed).
  reflexivity.
Defined.

(** The data file of a proxy group is not carried as it is: the explicit
    name ['my_proxies.pckl'] resolves to a path under the base
    directory. *)
Lemma explicit_datafile_is_joined :
  class_attr explicit_pages_classes "proxies._pages" "datafile_proxy"
  = Some (VStr "my_proxies.pckl") ∧
  outcome ((i ← instantiate (VClass "proxies._pages")
                  proxies._pages.__init__ [];
            getattr i "datafile_proxy") explicit_pages_classes shipped_heap)
  = inl (VStr "/tmp/db/my_proxies.pckl") ∧
  outcome ((i ← instantiate (VClass "proxies._pages")
                  proxies._pages.__init__ [];
            getattr i "datafile_proxy") explicit_pages_classes shipped_heap)
  ≠ inl (VStr "my_proxies.pckl").
Proof.
  split; [vm_compute; reflexivity|].
  split; [vm_compute; reflexivity|].
  vm_compute. discriminate.
Qed.

(** ** Keyword overrides *)

Lemma bind_kw_unexpected kw C h : kw ≠ [] → bind_kw [] kw C h = Raise TypeError.
Proof. destruct kw as [|[n v] kw]; [done|]. intros _. reflexivity. Qed.

Lemma instantiate_rejects c init kw C h :
  (∀ self C h, init self kw C h = Raise TypeError) →
  instantiate (VClass c) init kw C h = Raise TypeError.
Proof.
  intros Hinit. unfold instantiate.
  erewrite bind_ok by reflexivity. cbv beta.
  apply bind_raise, Hinit.
Qed.

Ltac reject_keywords :=
  intros; apply instantiate_rejects; intros;
  apply bind_raise; by apply bind_kw_unexpected.

Lemma bind_kw_unknown params kw n v C h :
  (n, v) ∈ kw → n ∉ params.*1 → bind_kw params kw C h = Raise TypeError.
Proof.
  intros Hin Hn. unfold bind_kw.
  destruct (forallb _ kw) eqn:E; [|done].
  rewrite forallb_forall in E. apply list_elem_of_In, E in Hin.
  cbn [fst] in Hin. by apply bool_decide_eq_true in Hin.
Qed.

(** C1, as the code has it: the resolvers of [proxies] and [psm] take any
    keywords, but pass them on to the resolvers of their sub-groups, which
    take none.  With no keyword the resolution succeeds; with any keyword,
    whether or not it names a declared field, the resolution raises
    [TypeError]: no value is overridden and no key is dropped.  The
    resolvers of the other groups take no keyword at all, but for
    [curr_iter] of [core]. *)
Theorem keyword_overrides C h P kw :
  typed C h P →
  (∃ h', instantiate (VClass "proxies") proxies.__init__ [] C h
         = Ok (VRef (length h)) h') ∧
  (∃ h', instantiate (VClass "psm") psm.__init__ [] C h
         = Ok (VRef (length h)) h') ∧
  (kw ≠ [] →
   instantiate (VClass "proxies") proxies.__init__ kw C h = Raise TypeError ∧
   instantiate (VClass "psm") psm.__init__ kw C h = Raise TypeError ∧
   (∀ c init,
      init ∈ [wrapper.__init__; proxies._pages.__init__;
              proxies._ncdc.__init__; psm._linear.__init__;
              psm._linear_TorP.__init__; psm._bilinear.__init__;
              psm._h_interp.__init__; prior.__init__] →
      instantiate (VClass c) init kw C h = Raise TypeError)) ∧
  ((∃ n v, (n, v) ∈ kw ∧ n ≠ "curr_iter") →
   instantiate (VClass "core") core.__init__ kw C h = Raise TypeError).
Proof.
  intros HP. pose proof (typed_context C h P HP) as Hctx.
  destruct HP as (Hw & Hco & Hpp & Hnp & Hpx & Hlp & Htp & Hbp & Hhp & Hps
                    & Hpr).
  split; [eexists; by eapply proxies_exec|].
  split; [eexists; by eapply psm_exec|].
  split; [|intros (n & v & Hin & Hn); apply instantiate_rejects; intros;
           apply bind_raise; eapply bind_kw_unknown; [exact Hin|];
           by intros ->%list_elem_of_singleton].
  intros Hkw. split; [|split].
  - destruct Hpx as [Hv _]. destruct (core_p P), (proxies_p P).
    unfold core.view, core.attrs, proxies.attrs in *.
    cbn [core.nexp core.lmr_path core.online_reconstruction core.clean_start
           core.use_precalc_ye core.recon_period core.nens core.seed
           core.loc_rad core.datadir_output core.archive_dir
           proxies.use_from proxies.use_from_items proxies.proxy_frac] in *.
    open_attrs.
    unfold instantiate at 1. erewrite bind_ok by reflexivity. cbv beta.
    apply bind_raise. unfold proxies.__init__.
    do 5 step2. rewrite bind_assoc. apply bind_raise.
    apply instantiate_rejects. intros self C' h'.
    apply bind_raise. by apply bind_kw_unexpected.
  - destruct (psm_p P). unfold psm.view, psm.attrs in Hps.
    cbn [psm.use_psm] in Hps. open_attrs.
    unfold instantiate at 1. erewrite bind_ok by reflexivity. cbv beta.
    apply bind_raise. unfold psm.__init__.
    do 2 step2. rewrite bind_assoc. apply bind_raise.
    apply instantiate_rejects. intros self C' h'.
    apply bind_raise. by apply bind_kw_unexpected.
  - intros c init Hinit.
    repeat (apply elem_of_cons in Hinit as [->|Hinit]; [reject_keywords|]).
    by apply elem_of_nil in Hinit.
Qed.

Lemma keyword_overrides_witness :
  (∃ h', instantiate (VClass "proxies") proxies.__init__ []
           shipped_classes shipped_heap = Ok (VRef 51) h') ∧
  (∃ h', instantiate (VClass "psm") psm.__init__ []
           shipped_classes shipped_heap = Ok (VRef 51) h') ∧
  (instantiate (VClass "proxies") proxies.__init__
     [("proxy_frac", VFloat (1 # 2))] shipped_classes shipped_heap
   = Raise TypeError ∧
   instantiate (VClass "psm") psm.__init__
     [("proxy_frac", VFloat (1 # 2))] shipped_classes shipped_heap
   = Raise TypeError) ∧
  instantiate (VClass "core") core.__init__
    [("proxy_frac", VFloat (1 # 2))] shipped_classes shipped_heap
  = Raise TypeError.
Proof.
  destruct (keyword_overrides shipped_classes shipped_heap shipped_params
              [("proxy_frac", VFloat (1 # 2))] shipped_typed)
    as (H1 & H2 & H3 & H4).
  split; [exact H1|]. split; [exact H2|]. split.
  - destruct H3 as (H3 & H3' & _); [discriminate|]. by split.
  - apply H4. exists "proxy_frac", (VFloat (1 # 2)).
    split; [apply list_elem_of_here | discriminate].
Defined.

(** The claim fails on the resolver of [proxies]: an override of the
    declared field [proxy_frac] is not carried by a resolved instance, and a
    key that names no field is not dropped; both calls raise
    [TypeError]. *)
Lemma keyword_override_raises :
  outcome (instantiate (VClass "proxies") proxies.__init__
             [("proxy_frac", VFloat (1 # 2))] shipped_classes shipped_heap)
  = inr TypeError ∧
  outcome (instantiate (VClass "proxies") proxies.__init__
             [("no_such_field", VInt 1)] shipped_classes shipped_heap)
  = inr TypeError ∧
  outcome (instantiate (VClass "proxies") proxies.__init__ []
             shipped_classes shipped_heap)
  = inl (VRef 51).
Proof. conjuncts; vm_compute; reflexivity. Qed.

(** ** Copies and aliases *)

(** Whatever the defaults, the resolved [_pages] instance holds in
    [proxy_resolution] the very value that the class holds, and in [regions]
    a list of its own, allocated by the resolution. *)
Lemma pages_fields_shared_and_copied C h co pp :
  core.view C co → proxies._pages.view C h pp →
  ∃ h',
    instantiate (VClass "proxies._pages") proxies._pages.__init__ [] C h
    = Ok (VRef (length h)) h' ∧
    class_attr C "proxies._pages" "proxy_resolution"
    = Some (proxies._pages.proxy_resolution pp) ∧
    getattr (VRef (length h)) "proxy_resolution" C h'
    = Ok (proxies._pages.proxy_resolution pp) h' ∧
    getattr (VRef (length h)) "regions" C h' = Ok (VRef (length h + 1)) h' ∧
    h !! (length h + 1) = None.
Proof.
  intros Hco Hpp. eexists. split; [by eapply pages_exec|].
  split.
  { destruct Hpp as [Hv _]. unfold proxies._pages.attrs in Hv.
    open_attrs. assumption. }
  split; [apply getattr_inst; reflexivity|].
  split; [apply getattr_inst; reflexivity|].
  apply lookup_ge_None. lia.
Qed.

(** C2 fails on the code: [proxy_resolution] of the proxy groups,
    [psm_required_variables] of [prior], [use_from] of [proxies] and
    [use_psm] of [psm] are assigned without a copy, so that a change made
    through one instance changes what the class and every other instance
    hold.  The fields that the resolvers copy ([state_variables],
    [proxy_blacklist], [proxy_assim2]) are not affected. *)
Theorem uncopied_fields_are_aliases :
  outcome (append_through "proxies._pages" proxies._pages.__init__
             "proxy_resolution" (VFloat 2) shipped_classes shipped_heap)
  = inl ([VFloat 1; VFloat 2], [VFloat 1; VFloat 2]) ∧
  outcome (append_through "proxies._ncdc" proxies._ncdc.__init__
             "proxy_resolution" (VFloat 2) shipped_classes shipped_heap)
  = inl ([VFloat 1; VFloat 2], [VFloat 1; VFloat 2]) ∧
  outcome (append_through "prior" prior.__init__
             "psm_required_variables" (VStr "x") shipped_classes shipped_heap)
  = inl (strs ["tas_sfc_Amon"; "pr_sfc_Amon"; "x"],
         strs ["tas_sfc_Amon"; "pr_sfc_Amon"; "x"]) ∧
  outcome (append_through "proxies" proxies.__init__
             "use_from" (VStr "pages") shipped_classes shipped_heap)
  = inl (strs ["NCDC"; "pages"], strs ["NCDC"; "pages"]) ∧
  outcome (append_through "prior" prior.__init__
             "state_variables" (VStr "x") shipped_classes shipped_heap)
  = inl (strs ["tas_sfc_Amon"; "pr_sfc_Amon"],
         strs ["tas_sfc_Amon"; "pr_sfc_Amon"]) ∧
  outcome (setitem_through "psm" psm.__init__
             "use_psm" (VStr "x") (VStr "linear") shipped_classes shipped_heap)
  = inl (VStr "linear", VStr "linear") ∧
  outcome (append_through "proxies._pages" proxies._pages.__init__
             "proxy_blacklist" (VStr "x") shipped_classes shipped_heap)
  = inl ([], []) ∧
  outcome (setitem_through "proxies._pages" proxies._pages.__init__
             "proxy_assim2" (VStr "x") (VStr "y") shipped_classes shipped_heap)
  = inr KeyError.
Proof. conjuncts; vm_compute; reflexivity. Qed.

(** ** The reverse index *)

Lemma dict_get_set k k' v d :
  dict_get k (dict_set k' v d)
  = if decide (k' = k) then Some v else dict_get k d.
Proof.
  induction d as [|[k0 v0] d IH]; cbn [dict_set dict_get].
  - destruct (decide (k' = k)); done.
  - destruct (decide (k0 = k')) as [->|Hne]; cbn [dict_get].
    + destruct (decide (k' = k)); done.
    + destruct (decide (k0 = k)) as [->|Hne'].
      * by rewrite decide_False by done.
      * exact IH.
Qed.

Lemma index_labels_lookup tn key prefix label labels : ∀ d,
  dict_get (KPair prefix label)
    (foldl (λ d l, dict_set (KPair tn l) (VStr key) d) d labels)
  = if bool_decide (tn = prefix ∧ label ∈ labels) then Some (VStr key)
    else dict_get (KPair prefix label) d.
Proof.
  induction labels as [|l labels IH]; intros d; cbn [foldl].
  - rewrite bool_decide_eq_false_2; [done|]. intros [_ H].
    by apply elem_of_nil in H.
  - rewrite IH, dict_get_set.
    destruct (decide (tn = prefix)) as [->|Hne].
    + destruct (decide (label ∈ labels)) as [Hin|Hnin].
      * rewrite !bool_decide_eq_true_2; [done| |]; split; try done.
        by apply elem_of_cons; right.
      * rewrite (bool_decide_eq_false_2 (_ ∧ label ∈ labels)) by tauto.
        destruct (decide (l = label)) as [->|Hl].
        -- rewrite decide_True by done.
           rewrite bool_decide_eq_true_2; [done|]. split; [done|].
           apply list_elem_of_here.
        -- rewrite decide_False by congruence.
           rewrite bool_decide_eq_false_2; [done|]. intros [_ H].
           apply elem_of_cons in H as [->|H]; done.
    + rewrite !bool_decide_eq_false_2 by tauto.
      rewrite decide_False by congruence. done.
Qed.

Lemma reverse_index_from display prefix label : ∀ d,
  dict_get (KPair prefix label) (foldl index_row d display)
  = match owner display prefix label with
    | Some k => Some (VStr k)
    | None => dict_get (KPair prefix label) d
    end.
Proof.
  unfold owner.
  induction display as [|kl display IH] using rev_ind; intros d; [done|].
  rewrite foldl_snoc, reverse_snoc. cbn [find].
  unfold index_row at 1. rewrite index_labels_lookup.
  unfold owns at 1.
  destruct (bool_decide _); [done|]. apply IH.
Qed.

Lemma reverse_index_lookup display prefix label :
  dict_get (KPair prefix label) (reverse_index display)
  = VStr <$> owner display prefix label.
Proof.
  unfold reverse_index. rewrite reverse_index_from.
  by destruct (owner display prefix label).
Qed.

Lemma find_app {A} (f : A → bool) (l1 l2 : list A) :
  find f (l1 ++ l2)
  = match find f l1 with
    | Some x => Some x
    | None => find f l2
    end.
Proof.
  induction l1 as [|x l1 IH]; [done|]. cbn [app find].
  by destruct (f x).
Qed.

Lemma find_none {A} (f : A → bool) (l : list A) :
  Forall (λ x, f x = false) l → find f l = None.
Proof.
  induction 1 as [|x l Hx _ IH]; [done|]. cbn [find]. by rewrite Hx.
Qed.

(** The last declared row that owns a pair is its owner. *)
Lemma owner_last display pre kl post prefix label :
  display = pre ++ kl :: post →
  owns prefix label kl = true →
  Forall (λ kl', owns prefix label kl' = false) post →
  owner display prefix label = Some kl.1.
Proof.
  intros -> Hkl Hpost. unfold owner.
  rewrite reverse_app, reverse_cons, <- app_assoc, find_app.
  rewrite find_none by (by apply Forall_reverse).
  cbn [app find]. by rewrite Hkl.
Qed.

Lemma frame_at (h0 : heap) i T l k :
  l = length h0 + S k → (h0 ++ i :: T) !! l = T !! k.
Proof. intros ->. apply frame_tail. Qed.

Lemma reverse_index_inverts display : inverts display (reverse_index display).
Proof.
  split.
  - intros. apply reverse_index_lookup.
  - intros pre kl post label Hd Hl Hpost.
    rewrite reverse_index_lookup.
    erewrite owner_last; [done|exact Hd| |exact Hpost].
    unfold owns. by rewrite bool_decide_eq_true_2.
Qed.

(** *** The order of the walk

    The loop walks the deep copy of the table in the order of the slots of
    its hash table.  Where no two rows own the same pair, the reverse index
    is the same in whatever order the rows are walked; this is so for the
    two shipped tables and for the table of the example. *)

Lemma find_owner display prefix label kl :
  find (owns prefix label) (reverse display) = Some kl →
  kl ∈ display ∧ owns prefix label kl = true.
Proof.
  intros [Hin Ho]%find_some. split; [|done].
  apply list_elem_of_In in Hin. by rewrite elem_of_reverse in Hin.
Qed.

Lemma find_no_owner display prefix label kl :
  find (owns prefix label) (reverse display) = None →
  kl ∈ display → owns prefix label kl = false.
Proof.
  intros Hnone Hin. eapply List.find_none; [exact Hnone|].
  apply list_elem_of_In. by rewrite elem_of_reverse.
Qed.

Lemma owner_order_irrelevant display display' :
  display ≡ₚ display' → collision_free display →
  ∀ prefix label,
    owner display prefix label = owner display' prefix label.
Proof.
  intros Hperm Hfree prefix label. unfold owner.
  destruct (find (owns prefix label) (reverse display)) as [kl|] eqn:E;
    destruct (find (owns prefix label) (reverse display')) as [kl'|] eqn:E';
    cbn [fmap option_fmap option_map].
  - apply find_owner in E as [Hin Ho], E' as [Hin' Ho'].
    f_equal. eapply Hfree; [exact Hin| |exact Ho|exact Ho'].
    by rewrite Hperm.
  - apply find_owner in E as [Hin Ho].
    rewrite Hperm in Hin.
    pose proof (find_no_owner _ _ _ _ E' Hin). congruence.
  - apply find_owner in E' as [Hin' Ho'].
    rewrite <- Hperm in Hin'.
    pose proof (find_no_owner _ _ _ _ E Hin'). congruence.
  - done.
Qed.

Lemma collision_freeb_sound display :
  collision_freeb display = true → collision_free display.
Proof.
  unfold collision_freeb, collision_free.
  intros Hb prefix label kl kl' Hkl Hkl' Ho Ho'.
  rewrite forallb_forall in Hb.
  specialize (Hb kl (proj1 (list_elem_of_In _ _) Hkl)).
  rewrite forallb_forall in Hb.
  unfold owns in Ho, Ho'.
  apply bool_decide_eq_true in Ho as [<- Hl], Ho' as [Hp Hl'].
  specialize (Hb label (proj1 (list_elem_of_In _ _) Hl)).
  rewrite forallb_forall in Hb.
  specialize (Hb kl' (proj1 (list_elem_of_In _ _) Hkl')).
  unfold owns in Hb. rewrite bool_decide_eq_true_2 in Hb by done.
  cbn [implb] in Hb. by apply String.eqb_eq in Hb.
Qed.

Lemma shipped_tables_collision_free :
  collision_free proxies._pages.proxy_assim2_display ∧
  collision_free proxies._ncdc.proxy_assim2_display ∧
  collision_free example_display.
Proof.
  repeat split; apply collision_freeb_sound; vm_compute; reflexivity.
Qed.

Lemma owner_inverts display items :
  (∀ prefix label,
     dict_get (KPair prefix label) items
     = VStr <$> owner display prefix label) →
  inverts display items.
Proof.
  intros Hall. split; [exact Hall|].
  intros pre kl post label Hd Hl Hpost.
  rewrite Hall.
  erewrite owner_last; [done|exact Hd| |exact Hpost].
  unfold owns. by rewrite bool_decide_eq_true_2.
Qed.

Lemma reverse_index_inverts_declared display declared :
  declared ≡ₚ display → collision_free declared →
  inverts declared (reverse_index display).
Proof.
  intros Hperm Hfree. apply owner_inverts. intros prefix label.
  rewrite reverse_index_lookup.
  by rewrite (owner_order_irrelevant declared display Hperm Hfree).
Qed.

Lemma walk_permutation display : walk display ≡ₚ display.
Proof. apply order_by_permutation. Qed.

Lemma walk_inverts display :
  inverts (walk display) (reverse_index (walk display)) ∧
  ∀ declared,
    declared ≡ₚ display → collision_free declared →
    inverts declared (reverse_index (walk display)).
Proof.
  split; [apply reverse_index_inverts|].
  intros declared Hperm Hfree.
  apply reverse_index_inverts_declared; [|done].
  by rewrite walk_permutation.
Qed.

(** C4: the reverse index that the resolution of a proxy group builds
    maps the pair of a type name and a label to the coarse key that owns it
    in the order in which the loop walks the instance's copy of the
    classification table: of two keys with the same pair, the one that the
    copy yields later stays.  That order is the order of the slots of the
    copy's hash table and not the order in which the table was declared.
    When no two coarse keys of the table have the same pair the order does
    not matter: in whatever order [declared] the rows of the table were
    written, the pair of the part of a coarse key before its first ['_']
    and of a label of its sequence maps to that coarse key. *)
Theorem reverse_index_built C h co pp np :
  core.view C co →
  proxies._pages.view C h pp → proxies._ncdc.view C h np →
  (∃ h' m items,
     instantiate (VClass "proxies._pages") proxies._pages.__init__ [] C h
     = Ok (VRef (length h)) h' ∧
     getattr (VRef (length h)) "proxy_type_mapping" C h'
     = Ok (VRef m) h' ∧
     h' !! m = Some (ODict items) ∧
     inverts (walk (display_of (proxies._pages.rows pp))) items ∧
     ∀ declared,
       declared ≡ₚ display_of (proxies._pages.rows pp) →
       collision_free declared → inverts declared items) ∧
  (∃ h' m items,
     instantiate (VClass "proxies._ncdc") proxies._ncdc.__init__ [] C h
     = Ok (VRef (length h)) h' ∧
     getattr (VRef (length h)) "proxy_type_mapping" C h'
     = Ok (VRef m) h' ∧
     h' !! m = Some (ODict items) ∧
     inverts (walk (display_of (proxies._ncdc.rows np))) items ∧
     ∀ declared,
       declared ≡ₚ display_of (proxies._ncdc.rows np) →
       collision_free declared → inverts declared items).
Proof.
  intros Hco Hpp Hnp. split.
  - do 3 eexists. split; [by eapply pages_exec|].
    split; [apply getattr_inst; reflexivity|].
    split; [|apply walk_inverts].
    rewrite (frame_at _ _ _ _ (3 + (length (proxies._pages.rows pp) + 1)))
      by lia.
    unfold proxies._pages.allocated. cbv zeta.
    rewrite lookup_app_r by (cbn [length]; lia).
    rewrite lookup_app_r by (cbn [length]; rewrite length_fmap; lia).
    rewrite length_fmap. cbn [length].
    replace (_ - _) with 1 by lia. reflexivity.
  - do 3 eexists. split; [by eapply ncdc_exec|].
    split; [apply getattr_inst; reflexivity|].
    split; [|apply walk_inverts].
    rewrite (frame_at _ _ _ _ (3 + (length (proxies._ncdc.rows np) + 2)))
      by lia.
    unfold proxies._ncdc.allocated. cbv zeta.
    rewrite lookup_app_r by (cbn [length]; lia).
    rewrite lookup_app_r by (cbn [length]; rewrite length_fmap; lia).
    rewrite length_fmap. cbn [length].
    replace (_ - _) with 2 by lia. reflexivity.
Qed.

Lemma reverse_index_built_witness :
  ∃ h' m items,
    instantiate (VClass "proxies._pages") proxies._pages.__init__ []
      example_classes example_heap = Ok (VRef 54) h' ∧
    getattr (VRef 54) "proxy_type_mapping" example_classes h'
    = Ok (VRef m) h' ∧
    h' !! m = Some (ODict items) ∧
    dict_get (KPair "A" "p") items = Some (VStr "A_x") ∧
    dict_get (KPair "A" "q") items = Some (VStr "A_x") ∧
    dict_get (KPair "B" "q") items = Some (VStr "B_y").
Proof.
  destruct (reverse_index_built example_classes example_heap core.shipped
              example_pages proxies._ncdc.shipped)
    as [(h' & m & items & Hrun & Hget & Hm & _ & Hany) _].
  - unfold core.view, has_attrs. solve_forall.
  - unfold example_pages. solve_pages_view.
  - solve_ncdc_view.
  - exists h', m, items.
    split; [exact Hrun|]. split; [exact Hget|]. split; [exact Hm|].
    destruct (Hany example_display) as [Hall _].
    + vm_compute. apply perm_swap.
    + apply collision_freeb_sound. vm_compute. reflexivity.
    + rewrite !Hall. repeat split; reflexivity.
Defined.

(** C4 as the specification words it fails on the code: the table
    [{'A_x': ['q'], 'A_y': ['q']}] declares ['A_y'] after ['A_x'], its
    dictionary and the deep copy yield ['A_y'] before ['A_x'], and the
    pair [('A', 'q')] is left with ['A_x']. *)
Lemma declaration_order_not_kept :
  owner collision_display "A" "q" = Some "A_y" ∧
  outcome (mapping_of "proxies._pages" proxies._pages.__init__
             (VTuple [VStr "A"; VStr "q"])
             (with_pages_table collision_display).1
             (with_pages_table collision_display).2)
  = inl (VStr "A_x").
Proof. split; vm_compute; reflexivity. Qed.

(** ** The root configuration *)

(** Allocation leaves the parameters of the module in place. *)
Lemma typed_frame C (h : heap) X P : typed C h P → typed C (h ++ X) P.
Proof.
  intros (Hw & Hco & Hpp & Hnp & [Hpx Hu] & Hlp & Htp & Hbp & Hhp & Hps
            & [Hpr Hsv]).
  split; [done|]. split; [done|].
  split; [by apply pages_view_frame|]. split; [by apply ncdc_view_frame|].
  split; [split; [done|by apply frame_old]|].
  split; [done|]. split; [done|]. split; [done|]. split; [done|].
  split; [done|]. split; [done|by apply frame_old].
Qed.

Lemma length_ncdc_allocated b p :
  length (proxies._ncdc.allocated b p)
  = 7 + length (proxies._ncdc.rows p).
Proof.
  unfold proxies._ncdc.allocated. cbv zeta.
  rewrite !length_app, length_fmap. cbn [length]. lia.
Qed.

Lemma length_proxies_allocated root b pp np :
  length (proxies.allocated root b pp np)
  = 15 + length (proxies._pages.rows pp) + length (proxies._ncdc.rows np).
Proof.
  unfold proxies.allocated. cbv zeta.
  rewrite length_app. cbn [length].
  rewrite length_pages_allocated, length_ncdc_allocated. lia.
Qed.

Lemma length_psm_allocated root use_from dbversion lp tp bp hp :
  length (psm.allocated root use_from dbversion lp tp bp hp) = 4.
Proof. reflexivity. Qed.

Lemma proxies_view_frame C (h : heap) X p :
  proxies.view C h p → proxies.view C (h ++ X) p.
Proof. intros [Hv Hu]. split; [done|by apply frame_old]. Qed.

Lemma prior_view_frame C (h : heap) X p :
  prior.view C h p → prior.view C (h ++ X) p.
Proof. intros [Hv Hu]. split; [done|by apply frame_old]. Qed.

(** The lengths of the stores that a run has passed through. *)
Ltac lengths := rewrite ?length_app; cbn [length].

Lemma config_exec C h P x :
  typed C h P →
  wrapper.iter_range (wrapper_p P) !! 0 = Some x →
  instantiate (VClass "Config") Config.__init__ [] C h
  = Ok (VRef (length h))
       (h ++ OInst "Config" (Config.resolved (length h) P)
          :: Config.allocated (length h) x P).
Proof.
  intros HP Hx. pose proof (typed_context C h P HP) as Hctx.
  destruct HP as (Hw & Hco & Hpp & Hnp & Hpx & Hlp & Htp & Hbp & Hhp & Hps
                    & Hpr).
  apply instantiate_run.
  unfold Config.__init__, Config.resolved, Config.allocated, namespace.
  cbn [foldl fst snd]. cbv zeta.
  step2.
  step_by (eapply wrapper_exec; exact Hw). lengths.
  step2.
  step_by (eapply core_exec_default; [exact Hco|exact Hw|by left|exact Hx]).
  lengths.
  step2.
  step_by (eapply proxies_exec;
           [exact Hco|apply pages_view_frame, Hpp|apply ncdc_view_frame, Hnp
           |apply proxies_view_frame, Hpx]).
  lengths.
  step2.
  step_by (eapply psm_exec;
           [apply calib_context_frame, Hctx|exact Hlp|exact Htp|exact Hbp
           |exact Hhp|exact Hps]).
  lengths.
  step2.
  step_by (eapply prior_exec; [exact Hco|apply prior_view_frame, Hpr]).
  lengths.
  erewrite setattr_self.
  rewrite ?length_app. cbn [length].
  rewrite ?length_proxies_allocated, ?length_psm_allocated.
  rewrite <- ?app_assoc. cbn [app].
  repeat (f_equal; try lia).
Qed.

(** ** Objects at known places of the store *)

Lemma placed_frame (h X : heap) : placed (h ++ X) (length h) X.
Proof.
  intros i o Hi. rewrite lookup_app_r by lia.
  by replace (length h + i - length h) with i by lia.
Qed.

Lemma placed_old (h Y : heap) b X : placed h b X → placed (h ++ Y) b X.
Proof. intros H i o Hi. apply frame_old, H, Hi. Qed.

Lemma placed_app (h : heap) b X Y :
  placed h b (X ++ Y) → placed h b X ∧ placed h (b + length X) Y.
Proof.
  intros H. split; intros i o Hi.
  - apply H. by apply lookup_app_l_Some.
  - rewrite <- Nat.add_assoc. apply H. rewrite lookup_app_r by lia.
    by replace (length X + i - length X) with i by lia.
Qed.

Lemma placed_cons (h : heap) b o X :
  placed h b (o :: X) → h !! b = Some o ∧ placed h (b + 1) X.
Proof.
  intros H. split.
  - rewrite <- (Nat.add_0_r b). by apply H.
  - intros i o' Hi. rewrite <- Nat.add_assoc. by apply H.
Qed.

Lemma placed_at (h : heap) b b' X : b = b' → placed h b X → placed h b' X.
Proof. by intros ->. Qed.

Lemma placed_lookup (h : heap) b X i o l :
  placed h b X → X !! i = Some o → l = b + i → h !! l = Some o.
Proof. intros H Hi ->. by apply H. Qed.

(** ** Equality in value of resolved instances *)

Lemma deep_eq_all h xs : Forall2 (deep_eq h) xs xs.
Proof.
  induction xs as [|x xs IH]; [constructor|].
  constructor; [apply deep_eq_same|exact IH].
Qed.

Lemma deep_eq_list_same h l1 l2 xs :
  h !! l1 = Some (OList xs) → h !! l2 = Some (OList xs) →
  deep_eq h (VRef l1) (VRef l2).
Proof. intros H1 H2. eapply deep_eq_list; [done..|apply deep_eq_all]. Qed.

Lemma deep_eq_dict_same h l1 l2 xs :
  h !! l1 = Some (ODict xs) → h !! l2 = Some (ODict xs) →
  deep_eq h (VRef l1) (VRef l2).
Proof.
  intros H1 H2. eapply deep_eq_dict; [done..|]. clear H1 H2.
  induction xs as [|x xs IH]; [constructor|].
  constructor; [split; [done|apply deep_eq_same]|exact IH].
Qed.

Lemma deep_eq_inst_same h l1 l2 c d :
  h !! l1 = Some (OInst c d) → h !! l2 = Some (OInst c d) →
  deep_eq h (VRef l1) (VRef l2).
Proof.
  intros H1 H2. eapply deep_eq_inst; [done..|].
  intros n. destruct (d !! n); constructor. apply deep_eq_same.
Qed.

Lemma namespace_related (R : value → value → Prop) l1 l2 :
  Forall2 (λ a b : string * value, a.1 = b.1 ∧ R a.2 b.2) l1 l2 →
  ∀ n, option_Forall2 R (namespace l1 !! n) (namespace l2 !! n).
Proof.
  unfold namespace.
  assert (Hgen : ∀ d1 d2 : gmap string value,
            (∀ n, option_Forall2 R (d1 !! n) (d2 !! n)) →
            Forall2 (λ a b : string * value, a.1 = b.1 ∧ R a.2 b.2) l1 l2 →
            ∀ n, option_Forall2 R
                   (foldl (λ d nv, <[nv.1 := nv.2]> d) d1 l1 !! n)
                   (foldl (λ d nv, <[nv.1 := nv.2]> d) d2 l2 !! n)).
  { intros d1 d2 Hd HF. revert d1 d2 Hd.
    induction HF as [|[n1 v1] [n2 v2] l1 l2 [Hn Hv] _ IH]; intros d1 d2 Hd;
      [done|].
    cbn [foldl]. apply IH. cbn [fst snd] in *. subst n2. intros n.
    destruct (decide (n = n1)) as [->|Hne].
    - rewrite !lookup_insert_eq. by constructor.
    - rewrite !lookup_insert_ne by done. apply Hd. }
  apply Hgen. intros n. rewrite !lookup_empty. constructor.
Qed.

Lemma copied_rows_deep_eq h b1 b2 rows :
  placed h (b1 + 1) (row_lists rows) → placed h (b2 + 1) (row_lists rows) →
  Forall2 (λ a b : key * value, a.1 = b.1 ∧ deep_eq h a.2 b.2)
    (row_item <$> copied_rows b1 rows) (row_item <$> copied_rows b2 rows).
Proof.
  intros H1 H2. apply Forall2_fmap.
  apply Forall2_same_length_lookup_2.
  { by rewrite !length_copied_rows. }
  intros i x y Hx Hy. unfold copied_rows in Hx, Hy.
  rewrite list_lookup_imap in Hx, Hy.
  destruct (rows !! i) as [r|] eqn:E; [|done].
  cbn in Hx, Hy. injection Hx as <-. injection Hy as <-.
  cbn [row_item fst snd row_key row_loc]. split; [done|].
  apply (deep_eq_list_same _ _ _ (strs (row_labels r))).
  - eapply (placed_lookup _ _ _ i); [exact H1| |lia].
    unfold row_lists. by rewrite list_lookup_fmap, E.
  - eapply (placed_lookup _ _ _ i); [exact H2| |lia].
    unfold row_lists. by rewrite list_lookup_fmap, E.
Qed.

(** The object at the place [k] of the segment that [H] places. *)
Ltac place H k := eapply (placed_lookup _ _ _ k); [exact H|reflexivity|lia].

Lemma pages_placed h root b p :
  placed h b (OInst "proxies._pages" (proxies._pages.resolved root b p)
                :: proxies._pages.allocated b p) →
  let n := length (proxies._pages.rows p) in
  h !! b = Some (OInst "proxies._pages" (proxies._pages.resolved root b p)) ∧
  h !! (b + 1) = Some (OList (proxies._pages.regions_items p)) ∧
  h !! (b + 2) = Some (OList (proxies._pages.proxy_order_items p)) ∧
  h !! (b + 3)
  = Some (ODict (row_item <$> copied_rows (b + 3) (proxies._pages.rows p))) ∧
  placed h (b + 3 + 1) (row_lists (proxies._pages.rows p)) ∧
  h !! (b + 4 + n) = Some (OList (proxies._pages.proxy_blacklist_items p)) ∧
  h !! (b + 5 + n)
  = Some (ODict (reverse_index (walk (display_of (proxies._pages.rows p))))) ∧
  h !! (b + 6 + n)
  = Some (ODict [(KStr "PAGES 2k Region", VRef (b + 1));
                 (KStr "Resolution (yr)", proxies._pages.proxy_resolution p)]).
Proof.
  intros H n. apply placed_cons in H as [H0 H].
  unfold proxies._pages.allocated in H. cbv zeta in H.
  apply placed_app in H as [Ha H]. cbn [length] in H.
  apply placed_app in H as [Hl H]. rewrite length_fmap in H. fold n in H.
  split; [exact H0|].
  split; [place Ha 0|]. split; [place Ha 1|]. split; [place Ha 2|].
  split; [eapply placed_at; [|exact Hl]; lia|].
  split; [place H 0|]. split; [place H 1|]. place H 2.
Qed.

Lemma pages_deep_eq h root b1 b2 p :
  placed h b1 (OInst "proxies._pages" (proxies._pages.resolved root b1 p)
                 :: proxies._pages.allocated b1 p) →
  placed h b2 (OInst "proxies._pages" (proxies._pages.resolved root b2 p)
                 :: proxies._pages.allocated b2 p) →
  deep_eq h (VRef b1) (VRef b2).
Proof.
  intros H1 H2.
  apply pages_placed in H1 as (Hi1 & Hr1 & Ho1 & Ht1 & Hl1 & Hb1 & Hm1 & Hf1).
  apply pages_placed in H2 as (Hi2 & Hr2 & Ho2 & Ht2 & Hl2 & Hb2 & Hm2 & Hf2).
  assert (Hregions : deep_eq h (VRef (b1 + 1)) (VRef (b2 + 1))).
  { by eapply deep_eq_list_same. }
  eapply deep_eq_inst; [exact Hi1|exact Hi2|].
  unfold proxies._pages.resolved. cbv zeta. apply namespace_related.
  repeat (apply List.Forall2_cons; [split; [reflexivity|cbn [snd]]|]);
    try apply List.Forall2_nil; try apply deep_eq_same.
  - exact Hregions.
  - by eapply deep_eq_list_same.
  - eapply deep_eq_dict; [exact Ht1|exact Ht2|].
    by apply copied_rows_deep_eq.
  - by eapply deep_eq_list_same.
  - by eapply deep_eq_dict_same.
  - eapply deep_eq_dict; [exact Hf1|exact Hf2|].
    repeat (apply List.Forall2_cons; [split; [reflexivity|cbn [snd]]|]);
      try apply List.Forall2_nil; try apply deep_eq_same.
    exact Hregions.
Qed.

(** The fields of two instance dictionaries, name by name; the fields that
    hold the same value are discharged. *)
Ltac related :=
  repeat (apply List.Forall2_cons; [split; [reflexivity|cbn [snd]]|]);
  try apply List.Forall2_nil; try apply deep_eq_same.

Lemma ncdc_placed h root b p :
  placed h b (OInst "proxies._ncdc" (proxies._ncdc.resolved root b p)
                :: proxies._ncdc.allocated b p) →
  let n := length (proxies._ncdc.rows p) in
  h !! b = Some (OInst "proxies._ncdc" (proxies._ncdc.resolved root b p)) ∧
  h !! (b + 1) = Some (OList (proxies._ncdc.regions_items p)) ∧
  h !! (b + 2) = Some (OList (proxies._ncdc.proxy_order_items p)) ∧
  h !! (b + 3)
  = Some (ODict (row_item <$> copied_rows (b + 3) (proxies._ncdc.rows p))) ∧
  placed h (b + 3 + 1) (row_lists (proxies._ncdc.rows p)) ∧
  h !! (b + 4 + n) = Some (OList (proxies._ncdc.database_filter_items p)) ∧
  h !! (b + 5 + n) = Some (OList (proxies._ncdc.proxy_blacklist_items p)) ∧
  h !! (b + 6 + n)
  = Some (ODict (reverse_index (walk (display_of (proxies._ncdc.rows p))))) ∧
  h !! (b + 7 + n)
  = Some (ODict [(KStr "Resolution (yr)", proxies._ncdc.proxy_resolution p)]).
Proof.
  intros H n. apply placed_cons in H as [H0 H].
  unfold proxies._ncdc.allocated in H. cbv zeta in H.
  apply placed_app in H as [Ha H]. cbn [length] in H.
  apply placed_app in H as [Hl H]. rewrite length_fmap in H. fold n in H.
  split; [exact H0|].
  split; [place Ha 0|]. split; [place Ha 1|]. split; [place Ha 2|].
  split; [eapply placed_at; [|exact Hl]; lia|].
  split; [place H 0|]. split; [place H 1|]. split; [place H 2|]. place H 3.
Qed.

Lemma ncdc_deep_eq h root b1 b2 p :
  placed h b1 (OInst "proxies._ncdc" (proxies._ncdc.resolved root b1 p)
                 :: proxies._ncdc.allocated b1 p) →
  placed h b2 (OInst "proxies._ncdc" (proxies._ncdc.resolved root b2 p)
                 :: proxies._ncdc.allocated b2 p) →
  deep_eq h (VRef b1) (VRef b2).
Proof.
  intros H1 H2.
  apply ncdc_placed in H1
    as (Hi1 & Hr1 & Ho1 & Ht1 & Hl1 & Hd1 & Hb1 & Hm1 & Hf1).
  apply ncdc_placed in H2
    as (Hi2 & Hr2 & Ho2 & Ht2 & Hl2 & Hd2 & Hb2 & Hm2 & Hf2).
  eapply deep_eq_inst; [exact Hi1|exact Hi2|].
  unfold proxies._ncdc.resolved. cbv zeta. apply namespace_related.
  related.
  - by eapply deep_eq_list_same.
  - by eapply deep_eq_list_same.
  - eapply deep_eq_dict; [exact Ht1|exact Ht2|].
    by apply copied_rows_deep_eq.
  - by eapply deep_eq_list_same.
  - by eapply deep_eq_list_same.
  - by eapply deep_eq_dict_same.
  - by eapply deep_eq_dict_same.
Qed.

Lemma proxies_placed h root seed b pp np p :
  placed h b (OInst "proxies" (proxies.resolved seed b pp p)
                :: proxies.allocated root b pp np) →
  let b' := b + 8 + length (proxies._pages.rows pp) in
  h !! b = Some (OInst "proxies" (proxies.resolved seed b pp p)) ∧
  placed h (b + 1)
    (OInst "proxies._pages" (proxies._pages.resolved root (b + 1) pp)
       :: proxies._pages.allocated (b + 1) pp) ∧
  placed h b'
    (OInst "proxies._ncdc" (proxies._ncdc.resolved root b' np)
       :: proxies._ncdc.allocated b' np).
Proof.
  intros H b'. apply placed_cons in H as [H0 H].
  unfold proxies.allocated in H. cbv zeta in H.
  apply placed_app in H as [Hp Hn]. cbn [length] in Hn.
  rewrite length_pages_allocated in Hn.
  split; [exact H0|]. split; [exact Hp|].
  eapply placed_at; [|exact Hn]. subst b'. lia.
Qed.

Lemma proxies_deep_eq h root seed b1 b2 pp np p :
  placed h b1 (OInst "proxies" (proxies.resolved seed b1 pp p)
                 :: proxies.allocated root b1 pp np) →
  placed h b2 (OInst "proxies" (proxies.resolved seed b2 pp p)
                 :: proxies.allocated root b2 pp np) →
  deep_eq h (VRef b1) (VRef b2).
Proof.
  intros H1 H2.
  apply proxies_placed in H1 as (Hi1 & Hp1 & Hn1).
  apply proxies_placed in H2 as (Hi2 & Hp2 & Hn2).
  eapply deep_eq_inst; [exact Hi1|exact Hi2|].
  unfold proxies.resolved. apply namespace_related.
  related.
  - by eapply pages_deep_eq.
  - by eapply ncdc_deep_eq.
Qed.

Lemma psm_deep_eq h root use_from dbversion lp tp bp hp b1 b2 p :
  placed h b1 (OInst "psm" (psm.resolved b1 p)
                 :: psm.allocated root use_from dbversion lp tp bp hp) →
  placed h b2 (OInst "psm" (psm.resolved b2 p)
                 :: psm.allocated root use_from dbversion lp tp bp hp) →
  deep_eq h (VRef b1) (VRef b2).
Proof.
  intros H1 H2.
  eapply deep_eq_inst; [place H1 0|place H2 0|].
  unfold psm.resolved. apply namespace_related.
  related.
  - eapply deep_eq_inst_same; [place H1 1|place H2 1].
  - eapply deep_eq_inst_same; [place H1 2|place H2 2].
  - eapply deep_eq_inst_same; [place H1 3|place H2 3].
  - eapply deep_eq_inst_same; [place H1 4|place H2 4].
Qed.

Lemma prior_deep_eq h root seed b1 b2 p :
  placed h b1 [OInst "prior" (prior.resolved root seed b1 p);
               OList (prior.state_variables_items p)] →
  placed h b2 [OInst "prior" (prior.resolved root seed b2 p);
               OList (prior.state_variables_items p)] →
  deep_eq h (VRef b1) (VRef b2).
Proof.
  intros H1 H2.
  eapply deep_eq_inst; [place H1 0|place H2 0|].
  unfold prior.resolved. apply namespace_related.
  related.
  eapply deep_eq_list_same; [place H1 1|place H2 1].
Qed.

Lemma config_placed h b x P :
  placed h b (OInst "Config" (Config.resolved b P) :: Config.allocated b x P) →
  let n := length (proxies._pages.rows (pages_p P))
           + length (proxies._ncdc.rows (ncdc_p P)) in
  let root := core.lmr_path (core_p P) in
  let seed := core.seed (core_p P) in
  h !! b = Some (OInst "Config" (Config.resolved b P)) ∧
  h !! (b + 1) = Some (OInst "wrapper" (wrapper.resolved (wrapper_p P))) ∧
  h !! (b + 2) = Some (OInst "core" (core.resolved (core_p P) x)) ∧
  placed h (b + 3)
    (OInst "proxies" (proxies.resolved seed (b + 3) (pages_p P) (proxies_p P))
       :: proxies.allocated root (b + 3) (pages_p P) (ncdc_p P)) ∧
  placed h (b + 19 + n)
    (OInst "psm" (psm.resolved (b + 19 + n) (psm_p P))
       :: psm.allocated root (proxies.use_from_items (proxies_p P))
            (proxies._ncdc.dbversion (ncdc_p P))
            (linear_p P) (linear_TorP_p P) (bilinear_p P) (h_interp_p P)) ∧
  placed h (b + 24 + n)
    [OInst "prior" (prior.resolved root seed (b + 24 + n) (prior_p P));
     OList (prior.state_variables_items (prior_p P))].
Proof.
  intros H n root seed. apply placed_cons in H as [H0 H].
  unfold Config.allocated in H. cbv zeta in H. fold n root seed in H.
  apply placed_app in H as [Ha H]. cbn [length] in H.
  apply placed_app in H as [Hp H]. cbn [length] in H.
  rewrite length_proxies_allocated in H.
  apply placed_app in H as [Hs H]. cbn [length] in H.
  rewrite length_psm_allocated in H.
  split; [exact H0|]. split; [place Ha 0|]. split; [place Ha 1|].
  split; [eapply placed_at; [|exact Hp]; lia|].
  split; [eapply placed_at; [|exact Hs]; lia|].
  eapply placed_at; [|exact H]. lia.
Qed.

(** C8 fails on the code: the two aggregates are not independent.  The
    groups of both hold the lists that their resolvers assign without a
    copy, so that appending to [use_from] of the proxies group of one
    aggregate, or to [psm_required_variables] of its prior group, changes
    what the class and the other aggregate hold.  A list that the resolver
    copies ([state_variables]) is not affected. *)
Theorem config_aggregates_share_lists :
  outcome (append_through_config "proxies" "use_from" (VStr "pages")
             shipped_classes shipped_heap)
  = inl (strs ["NCDC"; "pages"], strs ["NCDC"; "pages"]) ∧
  outcome (append_through_config "prior" "psm_required_variables" (VStr "x")
             shipped_classes shipped_heap)
  = inl (strs ["tas_sfc_Amon"; "pr_sfc_Amon"; "x"],
         strs ["tas_sfc_Amon"; "pr_sfc_Amon"; "x"]) ∧
  outcome (append_through_config "prior" "state_variables" (VStr "x")
             shipped_classes shipped_heap)
  = inl (strs ["tas_sfc_Amon"; "pr_sfc_Amon"],
         strs ["tas_sfc_Amon"; "pr_sfc_Amon"]).
Proof. conjuncts; vm_compute; reflexivity. Qed.

(** X15: two compositions of the root configuration from the same classes,
    one after the other, succeed and give two aggregates that are distinct
    objects holding distinct group instances; the second composition leaves
    the objects of the first as they are; and the two aggregates are equal
    in value, group for group and field for field.  Equality in value does
    not exclude that both hold the same list. *)
Theorem config_twice C h P x :
  typed C h P →
  wrapper.iter_range (wrapper_p P) !! 0 = Some x →
  ∃ c1 c2 h1 h2,
    instantiate (VClass "Config") Config.__init__ [] C h = Ok (VRef c1) h1 ∧
    instantiate (VClass "Config") Config.__init__ [] C h1 = Ok (VRef c2) h2 ∧
    c1 ≠ c2 ∧
    (∃ X, h2 = h1 ++ X) ∧
    deep_eq h2 (VRef c1) (VRef c2) ∧
    Forall (λ g, ∃ l1 l2,
              getattr (VRef c1) g C h2 = Ok (VRef l1) h2 ∧
              getattr (VRef c2) g C h2 = Ok (VRef l2) h2 ∧
              l1 ≠ l2 ∧
              deep_eq h2 (VRef l1) (VRef l2)) groups.
Proof.
  intros HP Hx.
  pose proof (config_exec C h P x HP Hx) as E1.
  set (X1 := OInst "Config" (Config.resolved (length h) P)
               :: Config.allocated (length h) x P) in E1.
  pose proof (config_exec C (h ++ X1) P x (typed_frame _ _ _ _ HP) Hx) as E2.
  set (X2 := OInst "Config" (Config.resolved (length (h ++ X1)) P)
               :: Config.allocated (length (h ++ X1)) x P) in E2.
  exists (length h), (length (h ++ X1)), (h ++ X1), ((h ++ X1) ++ X2).
  assert (Hlen : length h < length (h ++ X1)).
  { rewrite length_app. subst X1. cbn [length]. lia. }
  assert (P1 : placed ((h ++ X1) ++ X2) (length h) X1)
    by apply placed_old, placed_frame.
  assert (P2 : placed ((h ++ X1) ++ X2) (length (h ++ X1)) X2)
    by apply placed_frame.
  apply config_placed in P1 as (Hc1 & Hw1 & Ho1 & Hp1 & Hs1 & Hr1).
  apply config_placed in P2 as (Hc2 & Hw2 & Ho2 & Hp2 & Hs2 & Hr2).
  assert (Hwrapper : deep_eq ((h ++ X1) ++ X2) (VRef (length h + 1))
                       (VRef (length (h ++ X1) + 1)))
    by (by eapply deep_eq_inst_same).
  assert (Hcore : deep_eq ((h ++ X1) ++ X2) (VRef (length h + 2))
                    (VRef (length (h ++ X1) + 2)))
    by (by eapply deep_eq_inst_same).
  pose proof (proxies_deep_eq _ _ _ _ _ _ _ _ Hp1 Hp2) as Hproxies.
  pose proof (psm_deep_eq _ _ _ _ _ _ _ _ _ _ _ Hs1 Hs2) as Hpsm.
  pose proof (prior_deep_eq _ _ _ _ _ _ Hr1 Hr2) as Hprior.
  split; [exact E1|]. split; [exact E2|]. split; [lia|].
  split; [by exists X2|].
  split.
  - eapply deep_eq_inst; [exact Hc1|exact Hc2|].
    unfold Config.resolved. cbv zeta. apply namespace_related.
    related; assumption.
  - unfold groups.
    repeat (apply Forall_cons; split;
            [do 2 eexists;
             split; [eapply getattr_at; [exact Hc1|reflexivity]|];
             split; [eapply getattr_at; [exact Hc2|reflexivity]|];
             split; [lia|assumption]|]).
    apply Forall_nil_2.
Qed.

Lemma config_twice_witness :
  ∃ c1 c2 h1 h2,
    instantiate (VClass "Config") Config.__init__ []
      shipped_classes shipped_heap = Ok (VRef c1) h1 ∧
    instantiate (VClass "Config") Config.__init__ [] shipped_classes h1
    = Ok (VRef c2) h2 ∧
    c1 ≠ c2 ∧
    (∃ X, h2 = h1 ++ X) ∧
    deep_eq h2 (VRef c1) (VRef c2) ∧
    Forall (λ g, ∃ l1 l2,
              getattr (VRef c1) g shipped_classes h2 = Ok (VRef l1) h2 ∧
              getattr (VRef c2) g shipped_classes h2 = Ok (VRef l2) h2 ∧
              l1 ≠ l2 ∧
              deep_eq h2 (VRef l1) (VRef l2)) groups.
Proof.
  apply (config_twice shipped_classes shipped_heap shipped_params (VInt 0)
           shipped_typed).
  reflexivity.
Defined.

(** * Further properties of the resolvers *)

(** ** Derived paths of [_h_interp], [prior] and the calibration groups *)

(** X1: with [datafile_obsError] unset, the interpolator group resolves it
    to its [datadir_obsError] joined with its [filename_obsError], and carries
    the directory and the file name as the class declares them. *)
Theorem h_interp_datafile C h p :
  psm._h_interp.view C p →
  psm._h_interp.datafile_obsError p = None →
  resolves_to C h "psm._h_interp" psm._h_interp.__init__ "datafile_obsError"
    (VStr (Posixpath.join (psm._h_interp.datadir_obsError p)
             [psm._h_interp.filename_obsError p])) ∧
  resolves_to C h "psm._h_interp" psm._h_interp.__init__ "datadir_obsError"
    (VStr (psm._h_interp.datadir_obsError p)) ∧
  resolves_to C h "psm._h_interp" psm._h_interp.__init__ "filename_obsError"
    (VStr (psm._h_interp.filename_obsError p)).
Proof.
  intros Hv Hnone. pose proof (h_interp_exec C h p Hv) as E.
  repeat split; (eapply resolves_intro; [exact E|]);
    unfold psm._h_interp.resolved, namespace; cbn [foldl fst snd];
    rewrite ?Hnone; reflexivity.
Qed.

Lemma h_interp_datafile_witness :
  resolves_to shipped_classes shipped_heap "psm._h_interp"
    psm._h_interp.__init__ "datafile_obsError" (VStr "./R.txt") ∧
  resolves_to shipped_classes shipped_heap "psm._h_interp"
    psm._h_interp.__init__ "datadir_obsError" (VStr "./") ∧
  resolves_to shipped_classes shipped_heap "psm._h_interp"
    psm._h_interp.__init__ "filename_obsError" (VStr "R.txt").
Proof.
  apply (h_interp_datafile shipped_classes shipped_heap psm._h_interp.shipped).
  - apply shipped_typed.
  - reflexivity.
Defined.

(** X2: with [datadir_prior] unset, the prior group resolves it to the root
    path joined with ['data'], ['model'] and its [prior_source]; its [seed]
    is the seed that the class [core] declares. *)
Theorem prior_datadir C h co p :
  core.view C co → prior.view C h p →
  prior.datadir_prior p = None →
  resolves_to C h "prior" prior.__init__ "datadir_prior"
    (VStr (Posixpath.join (core.lmr_path co)
             ["data"; "model"; prior.prior_source p])) ∧
  resolves_to C h "prior" prior.__init__ "seed" (core.seed co).
Proof.
  intros Hco Hv Hnone. pose proof (prior_exec C h co p Hco Hv) as E.
  split; (eapply resolves_intro; [exact E|]);
    unfold prior.resolved, namespace; cbn [foldl fst snd];
    rewrite ?Hnone; reflexivity.
Qed.

Lemma prior_datadir_witness :
  resolves_to shipped_classes shipped_heap "prior" prior.__init__
    "datadir_prior"
    (VStr "/home/disk/kalman3/rtardif/LMR/data/model/ccsm4_last_millenium") ∧
  resolves_to shipped_classes shipped_heap "prior" prior.__init__
    "seed" (VInt 0).
Proof.
  apply (prior_datadir shipped_classes shipped_heap core.shipped
           prior.shipped).
  - apply shipped_typed.
  - apply shipped_typed.
  - reflexivity.
Defined.


(** ** The root path and the separator *)






(** ** When the version enters the name of a calibration file *)

Lemma no_dash_in_ncdc (a t : string) : a +:+ String "-" t ≠ "NCDC".
Proof.
  destruct a as [|c1 [|c2 [|c3 [|c4 [|c5 a]]]]]; cbn; intros E;
    simplify_eq.
Qed.

Lemma join_is_ncdc (l : list string) : Str.join "-" l = "NCDC" ↔ l = ["NCDC"].
Proof.
  split; [|by intros ->].
  unfold Str.join. destruct l as [|a [|b r]]; cbn [String.concat].
  - discriminate.
  - by intros ->.
  - intros E. by apply no_dash_in_ncdc in E.
Qed.

(** X5: the version of the NCDC database enters the name of the calibration
    file of the single-variable group exactly when the list of proxy sources
    is exactly ['NCDC']; with any other list, also one that holds ['NCDC'] among
    other sources, the name has the joined sources and the tag only. *)
Theorem version_in_filename C h root use_from dbversion p :
  calib_context C h root use_from dbversion →
  psm._linear.view C p →
  psm._linear.pre_calib_datafile p = None →
  let tag := psm._linear.datatag_calib p in
  resolves_to C h "psm._linear" psm._linear.__init__ "pre_calib_datafile"
    (VStr (Posixpath.join root
             ["PSM";
              if decide (use_from = ["NCDC"])
              then "PSMs_NCDC_" +:+ dbversion +:+ "_" +:+ tag +:+ ".pckl"
              else "PSMs_" +:+ Str.join "-" use_from +:+ "_" +:+ tag
                     +:+ ".pckl"])).
Proof.
  intros Hctx Hv Hnone tag.
  eapply resolves_intro; [by apply linear_exec|].
  unfold psm._linear.resolved, namespace. cbn [foldl fst snd].
  rewrite Hnone. cbn [default]. unfold psm_file. cbv zeta.
  destruct (decide (use_from = ["NCDC"])) as [->|Hne].
  - cbn [Str.join String.concat String.eqb Ascii.eqb Bool.eqb].
    by rewrite !append_assoc.
  - destruct (String.eqb (Str.join "-" use_from) "NCDC") eqn:E.
    + by apply String.eqb_eq, join_is_ncdc in E.
    + by rewrite !append_assoc.
Qed.

Lemma version_in_filename_witness :
  resolves_to shipped_classes shipped_heap "psm._linear" psm._linear.__init__
    "pre_calib_datafile"
    (VStr "/home/disk/kalman3/rtardif/LMR/PSM/PSMs_NCDC_v0.1.0_GISTEMP.pckl").
Proof.
  apply (version_in_filename shipped_classes shipped_heap
           "/home/disk/kalman3/rtardif/LMR" ["NCDC"] "v0.1.0"
           psm._linear.shipped).
  - apply (typed_context _ _ shipped_params), shipped_typed.
  - apply shipped_typed.
  - reflexivity.
Defined.

(** ** The fields that a resolver copies *)

Lemma copies_list_intro C (h : heap) c d T field r items :
  d !! field = Some (VRef r) →
  (h ++ OInst c d :: T) !! r = Some (OList items) →
  (length h ≤ r)%nat →
  copies_list C h (h ++ OInst c d :: T) (VRef (length h)) field items.
Proof.
  intros Hd HT Hr. exists r. split; [by apply getattr_inst|].
  split; [done|]. by apply lookup_ge_None.
Qed.

(** X6: the list fields that the resolvers pass through [list()] are
    copies: the resolved instance holds a list with the items of the
    class-level list, in their order, and the list is a new object, so that
    neither the class nor any instance resolved before holds it.  This is so
    for [regions], [proxy_order] and [proxy_blacklist] of both proxy groups,
    for [database_filter] of [_ncdc] and for [state_variables] of [prior]. *)
Theorem list_fields_are_copies C h P :
  typed C h P →
  let pp := pages_p P in
  let np := ncdc_p P in
  let rp := prior_p P in
  (∃ h',
     instantiate (VClass "proxies._pages") proxies._pages.__init__ [] C h
     = Ok (VRef (length h)) h' ∧
     copies_list C h h' (VRef (length h)) "regions"
       (proxies._pages.regions_items pp) ∧
     copies_list C h h' (VRef (length h)) "proxy_order"
       (proxies._pages.proxy_order_items pp) ∧
     copies_list C h h' (VRef (length h)) "proxy_blacklist"
       (proxies._pages.proxy_blacklist_items pp)) ∧
  (∃ h',
     instantiate (VClass "proxies._ncdc") proxies._ncdc.__init__ [] C h
     = Ok (VRef (length h)) h' ∧
     copies_list C h h' (VRef (length h)) "regions"
       (proxies._ncdc.regions_items np) ∧
     copies_list C h h' (VRef (length h)) "proxy_order"
       (proxies._ncdc.proxy_order_items np) ∧
     copies_list C h h' (VRef (length h)) "database_filter"
       (proxies._ncdc.database_filter_items np) ∧
     copies_list C h h' (VRef (length h)) "proxy_blacklist"
       (proxies._ncdc.proxy_blacklist_items np)) ∧
  (∃ h',
     instantiate (VClass "prior") prior.__init__ [] C h
     = Ok (VRef (length h)) h' ∧
     copies_list C h h' (VRef (length h)) "state_variables"
       (prior.state_variables_items rp)).
Proof.
  intros (Hw & Hco & Hpp & Hnp & Hpx & Hlp & Htp & Hbp & Hhp & Hps & Hpr).
  cbv zeta. split; [|split].
  - eexists. split; [by eapply pages_exec|].
    pose proof (placed_frame h
      (OInst "proxies._pages"
         (proxies._pages.resolved (core.lmr_path (core_p P)) (length h)
            (pages_p P))
       :: proxies._pages.allocated (length h) (pages_p P))) as Hpl.
    apply pages_placed in Hpl as (_ & Hr & Ho & _ & _ & Hb & _).
    split; [|split];
      (eapply copies_list_intro; [reflexivity|eassumption|lia]).
  - eexists. split; [by eapply ncdc_exec|].
    pose proof (placed_frame h
      (OInst "proxies._ncdc"
         (proxies._ncdc.resolved (core.lmr_path (core_p P)) (length h)
            (ncdc_p P))
       :: proxies._ncdc.allocated (length h) (ncdc_p P))) as Hpl.
    apply ncdc_placed in Hpl as (_ & Hr & Ho & _ & _ & Hd & Hb & _).
    split; [|split; [|split]];
      (eapply copies_list_intro; [reflexivity|eassumption|lia]).
  - eexists. split; [by eapply prior_exec|].
    eapply copies_list_intro; [reflexivity| |lia].
    by rewrite frame_tail.
Qed.

Lemma list_fields_are_copies_witness :
  (∃ h',
     instantiate (VClass "proxies._pages") proxies._pages.__init__ []
       shipped_classes shipped_heap = Ok (VRef (length shipped_heap)) h' ∧
     copies_list shipped_classes shipped_heap h' (VRef (length shipped_heap))
       "regions" (proxies._pages.regions_items proxies._pages.shipped) ∧
     copies_list shipped_classes shipped_heap h' (VRef (length shipped_heap))
       "proxy_order"
       (proxies._pages.proxy_order_items proxies._pages.shipped) ∧
     copies_list shipped_classes shipped_heap h' (VRef (length shipped_heap))
       "proxy_blacklist" []) ∧
  (∃ h',
     instantiate (VClass "proxies._ncdc") proxies._ncdc.__init__ []
       shipped_classes shipped_heap = Ok (VRef (length shipped_heap)) h' ∧
     copies_list shipped_classes shipped_heap h' (VRef (length shipped_heap))
       "regions" (proxies._ncdc.regions_items proxies._ncdc.shipped) ∧
     copies_list shipped_classes shipped_heap h' (VRef (length shipped_heap))
       "proxy_order"
       (proxies._ncdc.proxy_order_items proxies._ncdc.shipped) ∧
     copies_list shipped_classes shipped_heap h' (VRef (length shipped_heap))
       "database_filter" [] ∧
     copies_list shipped_classes shipped_heap h' (VRef (length shipped_heap))
       "proxy_blacklist"
       (proxies._ncdc.proxy_blacklist_items proxies._ncdc.shipped)) ∧
  (∃ h',
     instantiate (VClass "prior") prior.__init__ []
       shipped_classes shipped_heap = Ok (VRef (length shipped_heap)) h' ∧
     copies_list shipped_classes shipped_heap h' (VRef (length shipped_heap))
       "state_variables" (strs ["tas_sfc_Amon"; "pr_sfc_Amon"])).
Proof.
  apply (list_fields_are_copies shipped_classes shipped_heap shipped_params).
  apply shipped_typed.
Defined.

(** ** The deep copy of the classification table *)

Lemma copied_rows_locs b rows :
  row_loc <$> copied_rows b rows = (λ i, b + S i) <$> seq 0 (length rows).
Proof.
  induction rows as [|r rows IH] using rev_ind; [done|].
  rewrite copied_rows_snoc, length_app, seq_app, !fmap_app, IH. done.
Qed.

Lemma copied_rows_NoDup b rows : NoDup (row_loc <$> copied_rows b rows).
Proof.
  rewrite copied_rows_locs. apply NoDup_fmap_2; [|apply NoDup_seq].
  intros i j. lia.
Qed.

Lemma copied_rows_row_keys b rows :
  row_key <$> copied_rows b rows = row_key <$> rows.
Proof.
  pose proof (copied_rows_display b rows) as E. unfold display_of in E.
  apply (f_equal (fmap fst)) in E. rewrite <- !list_fmap_compose in E.
  exact E.
Qed.

Lemma copied_rows_fresh (h : heap) b rows :
  (length h ≤ b)%nat →
  Forall (λ r, h !! row_loc r = None) (copied_rows b rows).
Proof.
  intros Hb. apply Forall_lookup. intros i r Hi.
  unfold copied_rows in Hi. rewrite list_lookup_imap in Hi.
  destruct (rows !! i); [|done]. cbn in Hi. injection Hi as <-.
  cbn [row_loc]. apply lookup_ge_None. lia.
Qed.

(** The copy of a table as the dictionary yields it. *)
Lemma copied_table (h0 h : heap) b rows :
  h !! b = Some (ODict (row_item <$> copied_rows b rows)) →
  placed h (b + 1) (row_lists rows) →
  NoDup (row_key <$> rows) →
  (length h0 ≤ b)%nat →
  ∃ rows',
    table_at h b rows' ∧
    display_of rows' ≡ₚ display_of rows ∧
    Forall (λ r, h0 !! row_loc r = None) rows'.
Proof.
  intros Ht Hl Hkeys Hb.
  exists (order_by (λ r, hash_key (KStr (row_key r))) 8 (copied_rows b rows)).
  split; [split; [|split; [|split]]|split].
  - exists 8, (row_item <$> copied_rows b rows).
    split; [exact Ht|]. by apply order_by_fmap.
  - rewrite order_by_permutation.
    apply Forall_lookup. intros i r Hi.
    unfold copied_rows in Hi. rewrite list_lookup_imap in Hi.
    destruct (rows !! i) as [r0|] eqn:E; [|done].
    cbn in Hi. injection Hi as <-. cbn [row_loc row_labels].
    eapply (placed_lookup _ _ _ i); [exact Hl| |lia].
    unfold row_lists. by rewrite list_lookup_fmap, E.
  - by rewrite order_by_permutation, copied_rows_row_keys.
  - rewrite order_by_permutation. apply copied_rows_NoDup.
  - rewrite <- (copied_rows_display b rows). unfold display_of.
    by rewrite order_by_permutation.
  - rewrite order_by_permutation. by apply copied_rows_fresh.
Qed.

(** X7: the classification table that a resolved proxy group holds is a
    deep copy of the table of the class: a new dictionary with the coarse
    keys of the class-level table, each bound to a new list with the labels
    of the class-level list; the copy need not yield the keys in the order
    in which the table of the class yields them.  No object of the copy is
    held by the class or by an instance resolved before. *)
Theorem table_is_deep_copy C h co pp np :
  core.view C co →
  proxies._pages.view C h pp → proxies._ncdc.view C h np →
  (∃ h',
     instantiate (VClass "proxies._pages") proxies._pages.__init__ [] C h
     = Ok (VRef (length h)) h' ∧
     copies_table C h h' (VRef (length h)) "proxy_assim2"
       (proxies._pages.rows pp)) ∧
  (∃ h',
     instantiate (VClass "proxies._ncdc") proxies._ncdc.__init__ [] C h
     = Ok (VRef (length h)) h' ∧
     copies_table C h h' (VRef (length h)) "proxy_assim2"
       (proxies._ncdc.rows np)).
Proof.
  intros Hco Hpp Hnp. split.
  - eexists. split; [by eapply pages_exec|].
    pose proof (placed_frame h
      (OInst "proxies._pages"
         (proxies._pages.resolved (core.lmr_path co) (length h) pp)
       :: proxies._pages.allocated (length h) pp)) as Hpl.
    apply pages_placed in Hpl as (_ & _ & _ & Ht & Hl & _).
    destruct Hpp as (_ & _ & _ & (_ & _ & Hkeys & _) & _).
    destruct (copied_table h _ _ _ Ht Hl Hkeys) as (rows' & Hat & Hd & Hnew);
      [lia|].
    exists (length h + 3), rows'.
    split; [apply getattr_inst; reflexivity|].
    split; [exact Hat|]. split; [exact Hd|].
    split; [apply lookup_ge_None; lia|exact Hnew].
  - eexists. split; [by eapply ncdc_exec|].
    pose proof (placed_frame h
      (OInst "proxies._ncdc"
         (proxies._ncdc.resolved (core.lmr_path co) (length h) np)
       :: proxies._ncdc.allocated (length h) np)) as Hpl.
    apply ncdc_placed in Hpl as (_ & _ & _ & Ht & Hl & _).
    destruct Hnp as (_ & _ & _ & _ & (_ & _ & Hkeys & _) & _).
    destruct (copied_table h _ _ _ Ht Hl Hkeys) as (rows' & Hat & Hd & Hnew);
      [lia|].
    exists (length h + 3), rows'.
    split; [apply getattr_inst; reflexivity|].
    split; [exact Hat|]. split; [exact Hd|].
    split; [apply lookup_ge_None; lia|exact Hnew].
Qed.

Lemma table_is_deep_copy_witness :
  (∃ h',
     instantiate (VClass "proxies._pages") proxies._pages.__init__ []
       shipped_classes shipped_heap = Ok (VRef (length shipped_heap)) h' ∧
     copies_table shipped_classes shipped_heap h' (VRef (length shipped_heap))
       "proxy_assim2" (proxies._pages.rows proxies._pages.shipped)) ∧
  (∃ h',
     instantiate (VClass "proxies._ncdc") proxies._ncdc.__init__ []
       shipped_classes shipped_heap = Ok (VRef (length shipped_heap)) h' ∧
     copies_table shipped_classes shipped_heap h' (VRef (length shipped_heap))
       "proxy_assim2" (proxies._ncdc.rows proxies._ncdc.shipped)).
Proof.
  apply (table_is_deep_copy shipped_classes shipped_heap core.shipped
           proxies._pages.shipped proxies._ncdc.shipped);
    apply shipped_typed.
Defined.

(** ** An empty range of iterations *)

Lemma index_tuple_out items i C h :
  items !! i = None → index (VTuple items) i C h = Raise IndexError.
Proof.
  intros E. unfold index. erewrite bind_ok by reflexivity.
  cbv beta. by rewrite E.
Qed.

Lemma core_raises C h p w kw :
  core.view C p → wrapper.view C w →
  wrapper.iter_range w = [] →
  kw = [] ∨ kw = [("curr_iter", VNone)] →
  instantiate (VClass "core") core.__init__ kw C h = Raise IndexError.
Proof.
  intros Hp Hw Hir Hkw. destruct p, w as [ms ir].
  unfold core.view, core.attrs, wrapper.view, wrapper.attrs in *.
  cbn [core.nexp core.lmr_path core.online_reconstruction core.clean_start
         core.use_precalc_ye core.recon_period core.nens core.seed
         core.loc_rad core.datadir_output core.archive_dir
         wrapper.multi_seed wrapper.iter_range] in *.
  subst ir. open_attrs.
  unfold instantiate. erewrite bind_ok by reflexivity. cbv beta.
  apply bind_raise. unfold core.__init__.
  destruct Hkw as [-> | ->].
  - erewrite bind_ok by apply bind_kw_curr_iter_absent.
    cbv beta zeta. change (default VNone ([VNone] !! 0)) with VNone.
    cbn [is_none]. do 12 step. apply bind_raise. by apply index_tuple_out.
  - erewrite bind_ok by apply bind_kw_curr_iter.
    cbv beta zeta. change (default VNone ([VNone] !! 0)) with VNone.
    cbn [is_none]. do 12 step. apply bind_raise. by apply index_tuple_out.
Qed.

(** X8: when the [iter_range] of [wrapper] is the empty tuple, resolving
    the core group without a [curr_iter], or with a null one, raises
    [IndexError], and so does the composition of the root configuration;
    resolving the core group with a [curr_iter] that is not null succeeds
    and takes that argument. *)
Theorem empty_iter_range C h p w v :
  core.view C p → wrapper.view C w →
  wrapper.iter_range w = [] →
  is_none v = false →
  instantiate (VClass "core") core.__init__ [] C h = Raise IndexError ∧
  instantiate (VClass "core") core.__init__ [("curr_iter", VNone)] C h
  = Raise IndexError ∧
  instantiate (VClass "Config") Config.__init__ [] C h = Raise IndexError ∧
  ∃ h',
    instantiate (VClass "core") core.__init__ [("curr_iter", v)] C h
    = Ok (VRef (length h)) h' ∧
    getattr (VRef (length h)) "curr_iter" C h' = Ok v h'.
Proof.
  intros Hp Hw Hir Hv.
  split; [by eapply core_raises; [..|left]|].
  split; [by eapply core_raises; [..|right]|].
  split.
  - unfold instantiate at 1. erewrite bind_ok by reflexivity. cbv beta.
    apply bind_raise. unfold Config.__init__.
    step2.
    step_by (eapply wrapper_exec; exact Hw). lengths.
    step2.
    rewrite ?bind_assoc. apply bind_raise.
    by eapply core_raises; [..|left].
  - eexists. split; [by eapply core_exec_given|].
    apply (getattr_inst h _ _ []). reflexivity.
Qed.

Lemma empty_iter_range_witness :
  instantiate (VClass "core") core.__init__ []
    no_iterations_classes shipped_heap = Raise IndexError ∧
  instantiate (VClass "core") core.__init__ [("curr_iter", VNone)]
    no_iterations_classes shipped_heap = Raise IndexError ∧
  instantiate (VClass "Config") Config.__init__ []
    no_iterations_classes shipped_heap = Raise IndexError ∧
  ∃ h',
    instantiate (VClass "core") core.__init__ [("curr_iter", VInt 3)]
      no_iterations_classes shipped_heap
    = Ok (VRef (length shipped_heap)) h' ∧
    getattr (VRef (length shipped_heap)) "curr_iter" no_iterations_classes h'
    = Ok (VInt 3) h'.
Proof.
  apply (empty_iter_range no_iterations_classes shipped_heap core.shipped
           (wrapper.Params VNone []) (VInt 3)).
  - unfold core.view, has_attrs. solve_forall.
  - unfold wrapper.view, has_attrs. solve_forall.
  - reflexivity.
  - reflexivity.
Defined.

(** ** The filters of a proxy group *)

Lemma getitem_at l items k kk v C (h : heap) :
  h !! l = Some (ODict items) → to_key k = Some kk →
  dict_get kk items = Some v →
  getitem (VRef l) k C h = Ok v h.
Proof.
  intros E Hk Hv. unfold getitem.
  erewrite bind_ok by (apply deref_at, E). cbv beta iota.
  rewrite Hk. erewrite bind_ok by reflexivity. cbv beta.
  by rewrite Hv.
Qed.

Lemma getitem_missing l items k kk C (h : heap) :
  h !! l = Some (ODict items) → to_key k = Some kk →
  dict_get kk items = None →
  getitem (VRef l) k C h = Raise KeyError.
Proof.
  intros E Hk Hv. unfold getitem.
  erewrite bind_ok by (apply deref_at, E). cbv beta iota.
  rewrite Hk. erewrite bind_ok by reflexivity. cbv beta.
  by rewrite Hv.
Qed.

(** X9: the [simple_filters] of a resolved proxy group hold the very
    objects that the instance holds in its fields: for [_pages] the entry
    ['PAGES 2k Region'] is the [regions] of the instance and the entry
    ['Resolution (yr)'] is its [proxy_resolution]; for [_ncdc] there is the
    entry ['Resolution (yr)'] only, and looking up ['PAGES 2k Region']
    raises [KeyError]. *)
Theorem simple_filters_share C h co pp np :
  core.view C co →
  proxies._pages.view C h pp → proxies._ncdc.view C h np →
  (∃ h' f r y,
     instantiate (VClass "proxies._pages") proxies._pages.__init__ [] C h
     = Ok (VRef (length h)) h' ∧
     getattr (VRef (length h)) "simple_filters" C h' = Ok f h' ∧
     getitem f (VStr "PAGES 2k Region") C h' = Ok (VRef r) h' ∧
     getattr (VRef (length h)) "regions" C h' = Ok (VRef r) h' ∧
     getitem f (VStr "Resolution (yr)") C h' = Ok y h' ∧
     getattr (VRef (length h)) "proxy_resolution" C h' = Ok y h') ∧
  (∃ h' f y,
     instantiate (VClass "proxies._ncdc") proxies._ncdc.__init__ [] C h
     = Ok (VRef (length h)) h' ∧
     getattr (VRef (length h)) "simple_filters" C h' = Ok f h' ∧
     getitem f (VStr "Resolution (yr)") C h' = Ok y h' ∧
     getattr (VRef (length h)) "proxy_resolution" C h' = Ok y h' ∧
     getitem f (VStr "PAGES 2k Region") C h' = Raise KeyError).
Proof.
  intros Hco Hpp Hnp. split.
  - do 4 eexists. split; [by eapply pages_exec|].
    pose proof (placed_frame h
      (OInst "proxies._pages"
         (proxies._pages.resolved (core.lmr_path co) (length h) pp)
       :: proxies._pages.allocated (length h) pp)) as Hpl.
    apply pages_placed in Hpl as (_ & _ & _ & _ & _ & _ & _ & Hf).
    split; [apply getattr_inst; reflexivity|].
    split; [eapply getitem_at; [exact Hf|reflexivity|reflexivity]|].
    split; [apply getattr_inst; reflexivity|].
    split; [eapply getitem_at; [exact Hf|reflexivity|reflexivity]|].
    apply getattr_inst; reflexivity.
  - do 3 eexists. split; [by eapply ncdc_exec|].
    pose proof (placed_frame h
      (OInst "proxies._ncdc"
         (proxies._ncdc.resolved (core.lmr_path co) (length h) np)
       :: proxies._ncdc.allocated (length h) np)) as Hpl.
    apply ncdc_placed in Hpl as (_ & _ & _ & _ & _ & _ & _ & _ & Hf).
    split; [apply getattr_inst; reflexivity|].
    split; [eapply getitem_at; [exact Hf|reflexivity|reflexivity]|].
    split; [apply getattr_inst; reflexivity|].
    eapply getitem_missing; [exact Hf|reflexivity|reflexivity].
Qed.

Lemma simple_filters_share_witness :
  (∃ h' f r y,
     instantiate (VClass "proxies._pages") proxies._pages.__init__ []
       shipped_classes shipped_heap = Ok (VRef (length shipped_heap)) h' ∧
     getattr (VRef (length shipped_heap)) "simple_filters" shipped_classes h'
     = Ok f h' ∧
     getitem f (VStr "PAGES 2k Region") shipped_classes h' = Ok (VRef r) h' ∧
     getattr (VRef (length shipped_heap)) "regions" shipped_classes h'
     = Ok (VRef r) h' ∧
     getitem f (VStr "Resolution (yr)") shipped_classes h' = Ok y h' ∧
     getattr (VRef (length shipped_heap)) "proxy_resolution"
       shipped_classes h' = Ok y h') ∧
  (∃ h' f y,
     instantiate (VClass "proxies._ncdc") proxies._ncdc.__init__ []
       shipped_classes shipped_heap = Ok (VRef (length shipped_heap)) h' ∧
     getattr (VRef (length shipped_heap)) "simple_filters" shipped_classes h'
     = Ok f h' ∧
     getitem f (VStr "Resolution (yr)") shipped_classes h' = Ok y h' ∧
     getattr (VRef (length shipped_heap)) "proxy_resolution"
       shipped_classes h' = Ok y h' ∧
     getitem f (VStr "PAGES 2k Region") shipped_classes h' = Raise KeyError).
Proof.
  apply (simple_filters_share shipped_classes shipped_heap core.shipped
           proxies._pages.shipped proxies._ncdc.shipped);
    apply shipped_typed.
Defined.

(** ** Entries of the reverse index *)

Lemma split_head_no_sep c s : c ∉ list_ascii_of_string (Str.split_head c s).
Proof.
  induction s as [|a s IH]; cbn [Str.split_head list_ascii_of_string].
  - apply not_elem_of_nil.
  - destruct (Ascii.eqb a c) eqn:E; cbn [list_ascii_of_string].
    + apply not_elem_of_nil.
    + apply not_elem_of_cons. split; [|exact IH].
      intros ->. by rewrite Ascii.eqb_refl in E.
Qed.

Lemma index_row_str s kl : ∀ d,
  dict_get (KStr s) (index_row d kl) = dict_get (KStr s) d.
Proof.
  unfold index_row. induction kl.2 as [|l labels IH]; intros d; [done|].
  cbn [foldl]. rewrite IH, dict_get_set. by rewrite decide_False.
Qed.

Lemma reverse_index_str s display :
  dict_get (KStr s) (reverse_index display) = None.
Proof.
  unfold reverse_index.
  assert (Hgen : ∀ d, dict_get (KStr s) (foldl index_row d display)
                      = dict_get (KStr s) d).
  { induction display as [|kl display IH]; intros d; [done|].
    cbn [foldl]. by rewrite IH, index_row_str. }
  by rewrite Hgen.
Qed.

Lemma reverse_index_sound display :
  entries_sound display (reverse_index display).
Proof.
  intros [s|t m] v Hv.
  - by rewrite reverse_index_str in Hv.
  - rewrite reverse_index_lookup in Hv. unfold owner in Hv.
    destruct (find (owns t m) (reverse display)) as [[k labels]|] eqn:E;
      [|done].
    cbn in Hv. injection Hv as <-.
    apply find_owner in E as [Hin Ho].
    unfold owns in Ho. apply bool_decide_eq_true in Ho as [Ht Hm].
    cbn [fst snd] in *.
    exists t, m, k, labels. repeat split; try done.
    rewrite <- Ht. apply split_head_no_sep.
Qed.

Lemma entries_sound_permutation display display' items :
  display ≡ₚ display' →
  entries_sound display items → entries_sound display' items.
Proof.
  intros Hperm Hs k v Hk.
  destruct (Hs k v Hk) as (t & l & pt & ls & ? & ? & Hin & ?).
  exists t, l, pt, ls. by rewrite <- Hperm.
Qed.

(** X10: every entry of the reverse index that a proxy group resolves comes
    from its classification table: the key is a pair of a type name and a
    label, the value is a coarse key of the table, the type name is the part
    of that coarse key before its first ['_'] and holds no ['_'] itself, and
    the label is in the sequence that the table binds to the coarse key. *)
Theorem mapping_entries_sound C h co pp np :
  core.view C co →
  proxies._pages.view C h pp → proxies._ncdc.view C h np →
  (∃ h' m items,
     instantiate (VClass "proxies._pages") proxies._pages.__init__ [] C h
     = Ok (VRef (length h)) h' ∧
     getattr (VRef (length h)) "proxy_type_mapping" C h'
     = Ok (VRef m) h' ∧
     h' !! m = Some (ODict items) ∧
     entries_sound (display_of (proxies._pages.rows pp)) items) ∧
  (∃ h' m items,
     instantiate (VClass "proxies._ncdc") proxies._ncdc.__init__ [] C h
     = Ok (VRef (length h)) h' ∧
     getattr (VRef (length h)) "proxy_type_mapping" C h'
     = Ok (VRef m) h' ∧
     h' !! m = Some (ODict items) ∧
     entries_sound (display_of (proxies._ncdc.rows np)) items).
Proof.
  intros Hco Hpp Hnp. split.
  - do 3 eexists. split; [by eapply pages_exec|].
    pose proof (placed_frame h
      (OInst "proxies._pages"
         (proxies._pages.resolved (core.lmr_path co) (length h) pp)
       :: proxies._pages.allocated (length h) pp)) as Hpl.
    apply pages_placed in Hpl as (_ & _ & _ & _ & _ & _ & Hm & _).
    split; [apply getattr_inst; reflexivity|].
    split; [exact Hm|].
    eapply entries_sound_permutation;
      [apply walk_permutation|apply reverse_index_sound].
  - do 3 eexists. split; [by eapply ncdc_exec|].
    pose proof (placed_frame h
      (OInst "proxies._ncdc"
         (proxies._ncdc.resolved (core.lmr_path co) (length h) np)
       :: proxies._ncdc.allocated (length h) np)) as Hpl.
    apply ncdc_placed in Hpl as (_ & _ & _ & _ & _ & _ & _ & Hm & _).
    split; [apply getattr_inst; reflexivity|].
    split; [exact Hm|].
    eapply entries_sound_permutation;
      [apply walk_permutation|apply reverse_index_sound].
Qed.

Lemma mapping_entries_sound_witness :
  (∃ h' m items,
     instantiate (VClass "proxies._pages") proxies._pages.__init__ []
       shipped_classes shipped_heap = Ok (VRef (length shipped_heap)) h' ∧
     getattr (VRef (length shipped_heap)) "proxy_type_mapping"
       shipped_classes h' = Ok (VRef m) h' ∧
     h' !! m = Some (ODict items) ∧
     entries_sound
       (display_of (proxies._pages.rows proxies._pages.shipped)) items) ∧
  (∃ h' m items,
     instantiate (VClass "proxies._ncdc") proxies._ncdc.__init__ []
       shipped_classes shipped_heap = Ok (VRef (length shipped_heap)) h' ∧
     getattr (VRef (length shipped_heap)) "proxy_type_mapping"
       shipped_classes h' = Ok (VRef m) h' ∧
     h' !! m = Some (ODict items) ∧
     entries_sound
       (display_of (proxies._ncdc.rows proxies._ncdc.shipped)) items).
Proof.
  apply (mapping_entries_sound shipped_classes shipped_heap core.shipped
           proxies._pages.shipped proxies._ncdc.shipped);
    apply shipped_typed.
Defined.

(** ** What a resolution leaves alone *)

Lemma preserves_intro C (h : heap) cls init X :
  instantiate (VClass cls) init [] C h = Ok (VRef (length h)) (h ++ X) →
  preserves_store C h cls init.
Proof.
  intros E. exists (h ++ X). split; [exact E|].
  split; [by apply lookup_ge_None|].
  intros l o Hl. by apply frame_old.
Qed.

(** X11: no resolver of the module changes an object that is in the store
    when it is called: with no argument, each of them succeeds, returns a
    new object, and leaves the class-level lists and tables and every
    instance resolved before as they were. *)
Theorem resolvers_preserve_store C h P x :
  typed C h P →
  wrapper.iter_range (wrapper_p P) !! 0 = Some x →
  Forall (λ r, preserves_store C h r.1 r.2) resolvers.
Proof.
  intros HP Hx. pose proof (typed_context C h P HP) as Hctx.
  pose proof (config_exec C h P x HP Hx) as Ecfg.
  destruct HP as (Hw & Hco & Hpp & Hnp & Hpx & Hlp & Htp & Hbp & Hhp & Hps
                    & Hpr).
  unfold resolvers.
  repeat (apply Forall_cons; split; [cbn [fst snd]|]); [..|apply Forall_nil_2];
    eapply preserves_intro.
  - by eapply wrapper_exec.
  - eapply core_exec_default; [exact Hco|exact Hw|by left|exact Hx].
  - by eapply pages_exec.
  - by eapply ncdc_exec.
  - by eapply proxies_exec.
  - by eapply linear_exec.
  - by eapply linear_TorP_exec.
  - by eapply bilinear_exec.
  - by eapply h_interp_exec.
  - by eapply psm_exec.
  - by eapply prior_exec.
  - exact Ecfg.
Qed.

Lemma resolvers_preserve_store_witness :
  Forall (λ r, preserves_store shipped_classes shipped_heap r.1 r.2)
    resolvers.
Proof.
  apply (resolvers_preserve_store shipped_classes shipped_heap shipped_params
           (VInt 0) shipped_typed).
  reflexivity.
Defined.

(** ** The aggregate and its groups *)

Lemma length_config_allocated b x P :
  length (Config.allocated b x P)
  = 25 + length (proxies._pages.rows (pages_p P))
    + length (proxies._ncdc.rows (ncdc_p P)).
Proof.
  unfold Config.allocated. cbv zeta.
  rewrite !length_app. cbn [length].
  rewrite length_proxies_allocated, length_psm_allocated. lia.
Qed.

(** X12: the root configuration is the aggregate of its five groups
    resolved with no argument: the instance that the aggregate holds in the
    field of a group is equal in value, field for field, to the instance that
    the resolver of the group gives when it is called on its own. *)
Theorem config_holds_resolved_groups C h P x :
  typed C h P →
  wrapper.iter_range (wrapper_p P) !! 0 = Some x →
  ∃ c h1,
    instantiate (VClass "Config") Config.__init__ [] C h = Ok (VRef c) h1 ∧
    Forall (λ g, ∃ l i h2,
              getattr (VRef c) g.1 C h1 = Ok (VRef l) h1 ∧
              instantiate (VClass g.1) g.2 [] C h1 = Ok (VRef i) h2 ∧
              l ≠ i ∧
              deep_eq h2 (VRef l) (VRef i)) group_resolvers.
Proof.
  intros HP Hx.
  pose proof (config_exec C h P x HP Hx) as E1.
  set (X1 := OInst "Config" (Config.resolved (length h) P)
               :: Config.allocated (length h) x P) in E1.
  pose proof (typed_frame C h X1 P HP) as HP1.
  pose proof (typed_context _ _ _ HP1) as Hctx.
  destruct HP1 as (Hw & Hco & Hpp & Hnp & Hpx & Hlp & Htp & Hbp & Hhp & Hps
                     & Hpr).
  exists (length h), (h ++ X1). split; [exact E1|].
  assert (Hlen : length (h ++ X1)
                 = length h + 26
                   + length (proxies._pages.rows (pages_p P))
                   + length (proxies._ncdc.rows (ncdc_p P))).
  { rewrite length_app. subst X1. cbn [length].
    rewrite length_config_allocated. lia. }
  pose proof (placed_frame h X1) as P1.
  assert (Hc : (h ++ X1) !! length h
               = Some (OInst "Config" (Config.resolved (length h) P))).
  { apply (placed_cons _ _ _ _ P1). }
  assert (Hold : ∀ Y, placed ((h ++ X1) ++ Y) (length h) X1).
  { intros Y. by apply placed_old. }
  unfold group_resolvers.
  repeat (apply Forall_cons; split; [cbn [fst snd]|]); [..|apply Forall_nil_2].
  - do 3 eexists.
    split; [eapply getattr_at; [exact Hc|reflexivity]|].
    split; [by eapply wrapper_exec|]. split; [lia|].
    match goal with |- deep_eq (_ ++ ?Y) _ _ =>
      destruct (config_placed _ _ _ _ (Hold Y)) as (_ & Hw1 & _)
    end.
    eapply deep_eq_inst_same; [exact Hw1|].
    apply list_lookup_middle. done.
  - do 3 eexists.
    split; [eapply getattr_at; [exact Hc|reflexivity]|].
    split; [eapply core_exec_default; [exact Hco|exact Hw|by left|exact Hx]|].
    split; [lia|].
    match goal with |- deep_eq (_ ++ ?Y) _ _ =>
      destruct (config_placed _ _ _ _ (Hold Y)) as (_ & _ & Ho1 & _)
    end.
    eapply deep_eq_inst_same; [exact Ho1|].
    apply list_lookup_middle. done.
  - do 3 eexists.
    split; [eapply getattr_at; [exact Hc|reflexivity]|].
    split; [by eapply proxies_exec|]. split; [lia|].
    match goal with |- deep_eq (_ ++ ?Y) _ _ =>
      destruct (config_placed _ _ _ _ (Hold Y)) as (_ & _ & _ & Hp1 & _)
    end.
    eapply proxies_deep_eq; [exact Hp1|apply placed_frame].
  - do 3 eexists.
    split; [eapply getattr_at; [exact Hc|reflexivity]|].
    split; [by eapply psm_exec|]. split; [lia|].
    match goal with |- deep_eq (_ ++ ?Y) _ _ =>
      destruct (config_placed _ _ _ _ (Hold Y)) as (_ & _ & _ & _ & Hs1 & _)
    end.
    eapply psm_deep_eq; [exact Hs1|apply placed_frame].
  - do 3 eexists.
    split; [eapply getattr_at; [exact Hc|reflexivity]|].
    split; [by eapply prior_exec|]. split; [lia|].
    match goal with |- deep_eq (_ ++ ?Y) _ _ =>
      destruct (config_placed _ _ _ _ (Hold Y)) as (_ & _ & _ & _ & _ & Hr1)
    end.
    eapply prior_deep_eq; [exact Hr1|apply placed_frame].
Qed.

Lemma config_holds_resolved_groups_witness :
  ∃ c h1,
    instantiate (VClass "Config") Config.__init__ []
      shipped_classes shipped_heap = Ok (VRef c) h1 ∧
    Forall (λ g, ∃ l i h2,
              getattr (VRef c) g.1 shipped_classes h1 = Ok (VRef l) h1 ∧
              instantiate (VClass g.1) g.2 [] shipped_classes h1
              = Ok (VRef i) h2 ∧
              l ≠ i ∧
              deep_eq h2 (VRef l) (VRef i)) group_resolvers.
Proof.
  apply (config_holds_resolved_groups shipped_classes shipped_heap
           shipped_params (VInt 0) shipped_typed).
  reflexivity.
Defined.

(** ** The groups that hold sub-groups *)

(** X13: the proxies group and the calibration group resolve each of their
    sub-groups with the resolver of the sub-group: the instance that a
    resolved group holds in [pages], [ncdc], [linear], [linear_TorP],
    [bilinear] or [h_interp] is equal in value to the sub-group resolved on
    its own.  The [seed] of a resolved proxies group is the seed that the
    class [core] declares. *)
Theorem groups_hold_resolved_subgroups C h P :
  typed C h P →
  (∃ g h1,
     instantiate (VClass "proxies") proxies.__init__ [] C h
     = Ok (VRef g) h1 ∧
     getattr (VRef g) "seed" C h1 = Ok (core.seed (core_p P)) h1 ∧
     Forall (holds_resolved C h1 (VRef g)) proxies_subgroups) ∧
  (∃ g h1,
     instantiate (VClass "psm") psm.__init__ [] C h = Ok (VRef g) h1 ∧
     Forall (holds_resolved C h1 (VRef g)) psm_subgroups).
Proof.
  intros HP. split.
  - pose proof HP as (_ & Hco0 & Hpp0 & Hnp0 & Hpx0 & _).
    pose proof (proxies_exec C h _ _ _ _ Hco0 Hpp0 Hnp0 Hpx0) as E1.
    set (X1 := OInst "proxies" _ :: _) in E1.
    pose proof (typed_frame C h X1 P HP) as (_ & Hco & Hpp & Hnp & _).
    exists (length h), (h ++ X1). split; [exact E1|].
    assert (Hlen : length (h ++ X1)
                   = length h + 16
                     + length (proxies._pages.rows (pages_p P))
                     + length (proxies._ncdc.rows (ncdc_p P))).
    { rewrite length_app. subst X1. cbn [length].
      rewrite length_proxies_allocated. lia. }
    pose proof (placed_frame h X1) as P1.
    assert (Hg : (h ++ X1) !! length h
                 = Some (OInst "proxies"
                           (proxies.resolved (core.seed (core_p P))
                              (length h) (pages_p P) (proxies_p P)))).
    { apply (placed_cons _ _ _ _ P1). }
    assert (Hold : ∀ Y, placed ((h ++ X1) ++ Y) (length h) X1).
    { intros Y. by apply placed_old. }
    split; [eapply getattr_at; [exact Hg|reflexivity]|].
    unfold proxies_subgroups.
    repeat (apply Forall_cons; split; [|]); [..|apply Forall_nil_2];
      unfold holds_resolved; cbn [fst snd].
    + do 3 eexists.
      split; [eapply getattr_at; [exact Hg|reflexivity]|].
      split; [by eapply pages_exec|]. split; [lia|].
      match goal with |- deep_eq (_ ++ ?Y) _ _ =>
        destruct (proxies_placed _ _ _ _ _ _ _ (Hold Y)) as (_ & Hp1 & _)
      end.
      eapply pages_deep_eq; [exact Hp1|apply placed_frame].
    + do 3 eexists.
      split; [eapply getattr_at; [exact Hg|reflexivity]|].
      split; [by eapply ncdc_exec|]. split; [lia|].
      match goal with |- deep_eq (_ ++ ?Y) _ _ =>
        destruct (proxies_placed _ _ _ _ _ _ _ (Hold Y)) as (_ & _ & Hn1)
      end.
      eapply ncdc_deep_eq; [exact Hn1|apply placed_frame].
  - pose proof (typed_context C h P HP) as Hctx0.
    pose proof HP as (_ & _ & _ & _ & _ & Hlp & Htp & Hbp & Hhp & Hps & _).
    pose proof (psm_exec C h _ _ _ _ _ _ _ _ Hctx0 Hlp Htp Hbp Hhp Hps) as E1.
    set (X1 := OInst "psm" _ :: _) in E1.
    pose proof (calib_context_frame C h X1 _ _ _ Hctx0) as Hctx.
    exists (length h), (h ++ X1). split; [exact E1|].
    assert (Hlen : length (h ++ X1) = length h + 5).
    { rewrite length_app. subst X1. cbn [length].
      rewrite length_psm_allocated. lia. }
    pose proof (placed_frame h X1) as P1.
    assert (Hg : (h ++ X1) !! length h
                 = Some (OInst "psm" (psm.resolved (length h) (psm_p P)))).
    { apply (placed_cons _ _ _ _ P1). }
    unfold psm_subgroups.
    repeat (apply Forall_cons; split; [|]); [..|apply Forall_nil_2];
      unfold holds_resolved; cbn [fst snd].
    + do 3 eexists.
      split; [eapply getattr_at; [exact Hg|reflexivity]|].
      split; [by eapply linear_exec|]. split; [lia|].
      eapply deep_eq_inst_same; [|by apply list_lookup_middle].
      apply frame_old. place P1 1.
    + do 3 eexists.
      split; [eapply getattr_at; [exact Hg|reflexivity]|].
      split; [by eapply linear_TorP_exec|]. split; [lia|].
      eapply deep_eq_inst_same; [|by apply list_lookup_middle].
      apply frame_old. place P1 2.
    + do 3 eexists.
      split; [eapply getattr_at; [exact Hg|reflexivity]|].
      split; [by eapply bilinear_exec|]. split; [lia|].
      eapply deep_eq_inst_same; [|by apply list_lookup_middle].
      apply frame_old. place P1 3.
    + do 3 eexists.
      split; [eapply getattr_at; [exact Hg|reflexivity]|].
      split; [by eapply h_interp_exec|]. split; [lia|].
      eapply deep_eq_inst_same; [|by apply list_lookup_middle].
      apply frame_old. place P1 4.
Qed.

Lemma groups_hold_resolved_subgroups_witness :
  (∃ g h1,
     instantiate (VClass "proxies") proxies.__init__ []
       shipped_classes shipped_heap = Ok (VRef g) h1 ∧
     getattr (VRef g) "seed" shipped_classes h1 = Ok (VInt 0) h1 ∧
     Forall (holds_resolved shipped_classes h1 (VRef g)) proxies_subgroups) ∧
  (∃ g h1,
     instantiate (VClass "psm") psm.__init__ []
       shipped_classes shipped_heap = Ok (VRef g) h1 ∧
     Forall (holds_resolved shipped_classes h1 (VRef g)) psm_subgroups).
Proof.
  apply (groups_hold_resolved_subgroups shipped_classes shipped_heap
           shipped_params).
  apply shipped_typed.
Defined.

(** ** The version and the names of the NCDC files *)

(** X14: the names of the NCDC data and metadata files are formatted from
    [dbversion] once, when the class body runs.  After a later assignment
    of another version to [proxies._ncdc.dbversion], the proxy group still
    resolves its two files to the names of the version of the class body,
    while the calibration group puts the new version into the name of its
    file. *)
Theorem later_dbversion_splits_names (v : string) :
  resolves_to (with_dbversion v) shipped_heap "proxies._ncdc"
    proxies._ncdc.__init__ "datafile_proxy"
    (VStr "/home/disk/kalman3/rtardif/LMR/data/proxies/NCDC_v0.1.0_Proxies.df.pckl") ∧
  resolves_to (with_dbversion v) shipped_heap "proxies._ncdc"
    proxies._ncdc.__init__ "metafile_proxy"
    (VStr "/home/disk/kalman3/rtardif/LMR/data/proxies/NCDC_v0.1.0_Metadata.df.pckl") ∧
  resolves_to (with_dbversion v) shipped_heap "psm._linear"
    psm._linear.__init__ "pre_calib_datafile"
    (VStr ("/home/disk/kalman3/rtardif/LMR/PSM/PSMs_NCDC_" +:+ v
             +:+ "_GISTEMP.pckl")).
Proof.
  assert (Hco : core.view (with_dbversion v) core.shipped).
  { unfold core.view, has_attrs. solve_forall. }
  assert (Hnp : proxies._ncdc.view (with_dbversion v) shipped_heap
                  (proxies._ncdc.Params v None
                     "NCDC_v0.1.0_Proxies.df.pckl"
                     "NCDC_v0.1.0_Metadata.df.pckl"
                     (VStr "DF") 15
                     (proxies._ncdc.regions_items proxies._ncdc.shipped)
                     (VRef 16) (VStr "asis") 17 [] 18
                     (proxies._ncdc.proxy_order_items proxies._ncdc.shipped)
                     45 (proxies._ncdc.rows proxies._ncdc.shipped) 46
                     (proxies._ncdc.proxy_blacklist_items
                        proxies._ncdc.shipped))).
  { solve_ncdc_view. }
  assert (Hctx : calib_context (with_dbversion v) shipped_heap
                   "/home/disk/kalman3/rtardif/LMR" ["NCDC"] v).
  { split; [vm_compute; reflexivity|].
    split; [exists 47; split; vm_compute; reflexivity|].
    split; vm_compute; reflexivity. }
  assert (Hlp : psm._linear.view (with_dbversion v) psm._linear.shipped).
  { unfold psm._linear.view, has_attrs. solve_forall. }
  pose proof (ncdc_exec _ _ _ _ Hco Hnp) as En.
  split; [|split].
  - eapply resolves_intro; [exact En|]. reflexivity.
  - eapply resolves_intro; [exact En|]. reflexivity.
  - eapply resolves_intro; [by apply linear_exec|].
    unfold psm._linear.resolved, namespace. cbn [foldl fst snd].
    rewrite psm_file_spec. unfold calib_filename, selected_version.
    cbn [psm._linear.shipped psm._linear.pre_calib_datafile
           psm._linear.datatag_calib default].
    reflexivity.
Qed.
